(** * PDFParser: the content pipeline and the document-scoped search layer

    A shallow embedding of the Node.js services of the repository
    (etlService, indexService, searchService, the Document model, the
    processDocument job and the search controller) and the properties of
    the specification that were checked against them.

    Conventions of the embedding.
    - A JavaScript string is a [string]: a sequence of code units below 256
      (the Latin-1 part of UTF-16), so [String.length] is [.length].
    - An absent property of an object is [None]; the truthiness tests of
      the source ([a || b], [if (!x)]) are written out.
    - An [async] method that reads or writes the database, the search
      server or the cache is a function in the monad [M]: it takes the
      [World] and returns a value or a thrown [JsError], and the new world.
      What was written before a [throw] stays written.
    - Calls of the logger are left out, and so is a [catch] block that
      only logs the error and throws it again.
    - Timestamps ([Date.now], [toISOString]) are left out of the records. *)

From Stdlib Require Import ZArith Ascii String List Bool Lia.
From Stdlib Require Import Numbers.DecimalString.
From stdpp Require Import base gmap strings list.

(** ** JavaScript values and string primitives *)

Module Js.

Definition code (c : ascii) : nat := nat_of_ascii c.

Definition inRange (lo hi : nat) (c : ascii) : bool :=
  (lo <=? code c) && (code c <=? hi).

Definition isDigit (c : ascii) : bool := inRange 48 57 c.
Definition isUpper (c : ascii) : bool := inRange 65 90 c.
Definition isLower (c : ascii) : bool := inRange 97 122 c.

(** [\w] *)
Definition isWord (c : ascii) : bool :=
  isDigit c || isUpper c || isLower c || (code c =? 95).

(** [\s] (and the characters [trim] strips) among the code units below 256:
    tab, line feed, vertical tab, form feed, carriage return, space and
    the no-break space. *)
Definition isSpace (c : ascii) : bool :=
  inRange 9 13 c || (code c =? 32) || (code c =? 160).

Definition oneOf (cs : list nat) (c : ascii) : bool :=
  existsb (Nat.eqb (code c)) cs.

Definition chr (n : nat) : ascii := ascii_of_nat n.
Definition space : ascii := chr 32.
Definition dquote : string := String (chr 34) EmptyString.

Definition chars (s : string) : list ascii := list_ascii_of_string s.
Definition str (l : list ascii) : string := string_of_list_ascii l.

(** [!s] is false exactly for the non-empty strings. *)
Definition truthy (s : string) : bool :=
  match s with EmptyString => false | String _ _ => true end.

(** [a || b] on optional strings: undefined and the empty string are falsy. *)
Definition orStr (a : option string) (b : string) : string :=
  match a with
  | Some s => if truthy s then s else b
  | None => b
  end.

(** [a || b] on optional numbers: undefined and 0 are falsy. *)
Definition orNum (a : option Z) (b : Z) : Z :=
  match a with
  | Some n => if (n =? 0)%Z then b else n
  | None => b
  end.

Fixpoint dropWhile (p : ascii -> bool) (l : list ascii) : list ascii :=
  match l with
  | [] => []
  | c :: r => if p c then dropWhile p r else l
  end.

Definition trimChars (l : list ascii) : list ascii :=
  rev (dropWhile isSpace (rev (dropWhile isSpace l))).

Definition trim (s : string) : string := str (trimChars (chars s)).

(** [s.replace(/[class]+/g, by)]: every maximal run of characters of the
    class becomes one copy of [by]. *)
Fixpoint replaceRuns (p : ascii -> bool) (by_ : list ascii) (inRun : bool)
  (l : list ascii) : list ascii :=
  match l with
  | [] => []
  | c :: r =>
      if p c then
        if inRun then replaceRuns p by_ true r
        else by_ ++ replaceRuns p by_ true r
      else c :: replaceRuns p by_ false r
  end.

(** [s.replace(/[class]/g, by)]: character by character. *)
Definition replaceEach (p : ascii -> bool) (by_ : list ascii)
  (l : list ascii) : list ascii :=
  flat_map (fun c => if p c then by_ else [c]) l.

(** [s.split(/[class]+/)]: the pieces between the maximal runs, the empty
    pieces at both ends included. [cur] holds the piece being read, reversed. *)
Fixpoint splitRuns (p : ascii -> bool) (cur : list ascii) (inRun : bool)
  (l : list ascii) : list (list ascii) :=
  match l with
  | [] => [rev cur]
  | c :: r =>
      if p c then
        if inRun then splitRuns p cur true r
        else rev cur :: splitRuns p [] true r
      else splitRuns p (c :: cur) false r
  end.

Definition split (p : ascii -> bool) (s : string) : list string :=
  map str (splitRuns p [] false (chars s)).

(** [toLowerCase] on the code units below 256, the characters a string
    of this development holds: the letters A to Z and the capitals of
    Latin-1. JavaScript also lowers characters above that range, two of
    them to ASCII letters (U+212A to [k], U+0130 to [i] and a combining
    dot): a lower-cased string can hold letters that come from neither a
    letter nor a capital of its source. *)
Definition toLowerChar (c : ascii) : ascii :=
  if isUpper c || (inRange 192 222 c && negb (code c =? 215))
  then chr (code c + 32) else c.

Definition toLowerCase (s : string) : string :=
  str (map toLowerChar (chars s)).

Fixpoint startsWithChars (s p : list ascii) : bool :=
  match p, s with
  | [], _ => true
  | _ :: _, [] => false
  | a :: p', b :: s' => (code a =? code b) && startsWithChars s' p'
  end.

Fixpoint includesChars (s p : list ascii) : bool :=
  startsWithChars s p ||
  match s with
  | [] => false
  | _ :: r => includesChars r p
  end.

Definition startsWith (s p : string) : bool := startsWithChars (chars s) (chars p).
Definition includes (s p : string) : bool := includesChars (chars s) (chars p).

(** [s.substring(0, n)] *)
Definition substring0 (n : nat) (s : string) : string := String.substring 0 n s.

(** [String(n)] for an integer. *)
Definition ofNat (n : nat) : string := NilZero.string_of_uint (Nat.to_uint n).
Definition ofZ (n : Z) : string := NilZero.string_of_int (Z.to_int n).

(** [l.join(sep)] *)
Fixpoint join (sep : string) (l : list string) : string :=
  match l with
  | [] => EmptyString
  | [s] => s
  | s :: r => s +:+ sep +:+ join sep r
  end.

(** [Math.round(a / b)] for lengths [a] and [b > 0]: the nearest integer,
    a half rounding up. On the quotients of two array lengths the double
    division decides the same side of the half as the exact quotient. *)
Definition roundDiv (a b : nat) : nat := (2 * a + b) / (2 * b).

(** [[a-zA-Z]] *)
Definition isLetter (c : ascii) : bool := isUpper c || isLower c.

(** [s.split(sep)] for a separator of one character: the pieces between
    the separators, the empty ones included. [cur] holds the piece being
    read, reversed. *)
Fixpoint splitEach (p : ascii -> bool) (cur : list ascii) (l : list ascii)
  : list (list ascii) :=
  match l with
  | [] => [rev cur]
  | c :: r =>
      if p c then rev cur :: splitEach p [] r
      else splitEach p (c :: cur) r
  end.

(** [s.indexOf(c)] for a character: the place of the first one, or -1. *)
Fixpoint indexOf (c : ascii) (l : list ascii) : Z :=
  match l with
  | [] => (-1)%Z
  | x :: r =>
      if code x =? code c then 0%Z
      else let i := indexOf c r in
           if (i <? 0)%Z then (-1)%Z else (i + 1)%Z
  end.

(** [s.charAt(i)]: the empty string outside the string is [None]. *)
Definition charAt (l : list ascii) (i : Z) : option ascii :=
  if (i <? 0)%Z then None else nth_error l (Z.to_nat i).

End Js.

(** ** utils/constants.js *)

Inductive DOCUMENT_STATUS : Set := PENDING | PROCESSING | COMPLETED | FAILED.

Inductive CONTENT_TYPES : Set := PARAGRAPH | IMAGE | TABLE.

Definition statusString (s : DOCUMENT_STATUS) : string :=
  match s with
  | PENDING => "pending"
  | PROCESSING => "processing"
  | COMPLETED => "completed"
  | FAILED => "failed"
  end.

Definition typeString (t : CONTENT_TYPES) : string :=
  match t with
  | PARAGRAPH => "paragraph"
  | IMAGE => "image"
  | TABLE => "table"
  end.

#[export] Instance DOCUMENT_STATUS_eq_dec : EqDecision DOCUMENT_STATUS.
Proof. solve_decision. Defined.

#[export] Instance CONTENT_TYPES_eq_dec : EqDecision CONTENT_TYPES.
Proof. solve_decision. Defined.

Module SEARCH_CONFIG.
Definition MAX_RESULTS : Z := 100.
Definition DEFAULT_LIMIT : Z := 20.
Definition MIN_QUERY_LENGTH : nat := 2.
End SEARCH_CONFIG.

Module HTTP_STATUS.
Definition OK : nat := 200.
Definition CREATED : nat := 201.
Definition BAD_REQUEST : nat := 400.
Definition NOT_FOUND : nat := 404.
Definition UNPROCESSABLE_ENTITY : nat := 422.
Definition INTERNAL_SERVER_ERROR : nat := 500.
Definition UNAUTHORIZED : nat := 401.
Definition TOO_MANY_REQUESTS : nat := 429.

End HTTP_STATUS.

(** ** natural.WordTokenizer

    The tokenizer of the [natural] package that etlService instantiates:
    it splits on the runs of characters outside letters, digits and the
    underscore, and discards the empty pieces. *)

Module WordTokenizer.

Definition tokenize (s : string) : list string :=
  List.filter Js.truthy (Js.split (fun c => negb (Js.isWord c)) s).

End WordTokenizer.

(** ** Errors and results *)

Record JsError : Set := { message : string; code : option string }.

(** [new Error(msg)] *)
Definition Error (msg : string) : JsError := {| message := msg; code := None |}.

Inductive Result (A : Type) : Type :=
| Ok (a : A)
| Throw (e : JsError).

Arguments Ok {A} a.
Arguments Throw {A} e.

(** ** The data model *)

Record TextFeatures : Set := {
  wordCount : nat;
  sentenceCount : nat;
  characterCount : nat;
  avgWordsPerSentence : nat;
  containsNumbers : bool;
  containsCapitals : bool;
  language : string
}.

(** A position is an object of numbers, opaque to the pipeline. *)
Definition Position : Set := list (string * Z).

(** The [metadata] object of a chunk, by kind. [fontInfo], [style],
    [imageFormat], [dimensions] and [tableStructure] are carried along
    unread and are left out. *)
Inductive ChunkMetadata : Set :=
| ParagraphMeta (originalLength cleanedLength : nat) (features : option TextFeatures)
| ImageMeta (originalImageSize extractedTextLength : nat) (features : option TextFeatures)
| TableMeta (rowCount columnCount : nat) (features : option TextFeatures).

(** [ocrConfidence] is a JavaScript number; here it is a whole number, so
    sums and averages of fractional confidences are outside the model. *)
Record Chunk : Set := {
  chunk_id : string;
  chunk_type : CONTENT_TYPES;
  content : string;
  pageNumber : Z;
  position : Position;
  ocrConfidence : option Z;
  metadata : ChunkMetadata
}.

(** The parsed content a job carries. An absent property is [None]. *)
Record Paragraph : Set := {
  p_content : option string;
  p_text : option string;
  p_pageNumber : option Z;
  p_page : option Z;
  p_position : option Position;
  p_bbox : option Position
}.

Record Image : Set := {
  i_data : option string;
  i_buffer : option string;
  i_pageNumber : option Z;
  i_page : option Z;
  i_position : option Position;
  i_bbox : option Position
}.

(** A row of a table: an array, an object, [null], or another value (a
    string, a number, a boolean). *)
Inductive Row : Set :=
| RowArray (cells : list string)
| RowObject (fields : list (string * string))
| RowNull
| RowOther.

(** [table.rows] when it is truthy: an array of rows, or a value that is
    no array (a string, a number, an object). *)
Inductive Rows : Set :=
| RowList (rows : list Row)
| RowsOther.

Record Table : Set := {
  t_headers : option (list string);
  t_rows : option Rows;
  t_caption : option string;
  t_pageNumber : option Z;
  t_page : option Z;
  t_position : option Position;
  t_bbox : option Position
}.

Record ParsedData : Set := {
  paragraphs : option (list Paragraph);
  images : option (list Image);
  tables : option (list Table)
}.

(** A row of the [documents] table, and the fields of a [Document] object. *)
Record DocumentData : Set := {
  id : string;
  filename : string;
  originalName : string;
  fileSize : Z;
  mimeType : string;
  uploadTime : string;
  processingStatus : DOCUMENT_STATUS;
  processingError : option string;
  totalPages : Z;
  totalChunks : nat;
  uploadPath : option string
}.

(** A row of the [chunks] table. *)
Record ChunkRow : Set := {
  row_id : string;
  document_id : string;
  row_type : CONTENT_TYPES;
  row_content : string;
  page_number : Z;
  position_data : Position;
  ocr_confidence : option Z;
  row_metadata : ChunkMetadata
}.

(** A document of a search index (indexService.indexDocumentChunks). *)
Record SearchDocument : Set := {
  sd_id : string;
  sd_documentId : string;
  sd_type : CONTENT_TYPES;
  sd_content : string;
  sd_pageNumber : Z;
  sd_position : Position;
  sd_ocrConfidence : option Z;
  sd_metadata : ChunkMetadata;
  sd_wordCount : nat;
  sd_contentLength : nat
}.

(** The options object a search is sent to the server with. *)
Record MeiliOptions : Set := {
  mo_limit : Z;
  mo_offset : Z;
  mo_attributesToRetrieve : list string;
  mo_attributesToCrop : list string;
  mo_matchingStrategy : option string;
  mo_filter : option string;
  mo_sort : option (list string)
}.

(** What the server answers a search with; [nbHits] is absent from the
    answer to a search by offset and limit. *)
Record MeiliResults : Set := {
  hits : list SearchDocument;
  estimatedTotalHits : nat;
  nbHits : option nat
}.

(** What indexService.search returns. *)
Record IndexResults : Set := {
  ir_hits : list SearchDocument;
  ir_query : string;
  ir_documentId : string;
  ir_offset : Z;
  ir_limit : Z;
  ir_total : option nat;
  ir_hasMore : bool
}.

(** What searchService.searchDocument returns (and caches). *)
Record SearchResponse : Set := {
  sr_results : IndexResults;
  sr_document : DocumentData;
  sr_originalQuery : string;
  sr_cleanedQuery : string;
  sr_cached : bool
}.

Record OcrResult : Set := { ocr_text : string; ocr_confidence_value : Z }.

(** ** The world: database, search server, cache *)

(** The SQLite database. [foreign_keys] is the pragma of that name
    (database/connection.js turns it on): with it, the row that
    [INSERT OR REPLACE] replaces takes its chunks along
    ([ON DELETE CASCADE] of schema.sql), and a chunk needs its document. *)
Record Database : Type := {
  foreign_keys : bool;
  documents : gmap string DocumentData;
  chunks : list ChunkRow
}.

(** The MeiliSearch server and the client's [isConnected] flag. [engine]
    is the server's matching and ranking, which the repository does not
    decide. *)
Record Meili : Type := {
  meili_up : bool;
  isConnected : bool;
  indexes : gmap string (list SearchDocument);
  queries : list (string * string);
  engine : list SearchDocument -> string -> MeiliOptions -> MeiliResults
}.

(** The Redis server: a value and the time it expires at, by key. *)
Record Redis : Type := {
  redis_isConnected : bool;
  entries : gmap string (SearchResponse * Z);
  clock : Z
}.

Record World : Type := {
  db : Database;
  meili : Meili;
  redis : Redis;
  recognize : string -> Result OcrResult;
  fresh : nat;
  progress : list (string * nat)
}.

Definition with_db (w : World) (d : Database) : World :=
  {| db := d; meili := meili w; redis := redis w; recognize := recognize w;
     fresh := fresh w; progress := progress w |}.

Definition with_meili (w : World) (m : Meili) : World :=
  {| db := db w; meili := m; redis := redis w; recognize := recognize w;
     fresh := fresh w; progress := progress w |}.

Definition with_redis (w : World) (r : Redis) : World :=
  {| db := db w; meili := meili w; redis := r; recognize := recognize w;
     fresh := fresh w; progress := progress w |}.

Definition with_fresh (w : World) (n : nat) : World :=
  {| db := db w; meili := meili w; redis := redis w; recognize := recognize w;
     fresh := n; progress := progress w |}.

Definition with_progress (w : World) (p : list (string * nat)) : World :=
  {| db := db w; meili := meili w; redis := redis w; recognize := recognize w;
     fresh := fresh w; progress := p |}.

(** ** The monad of the asynchronous methods *)

Definition M (A : Type) : Type := World -> Result A * World.

Definition ret {A : Type} (a : A) : M A := fun w => (Ok a, w).

Definition throw {A : Type} (e : JsError) : M A := fun w => (Throw e, w).

Definition bind {A B : Type} (m : M A) (k : A -> M B) : M B :=
  fun w =>
    match m w with
    | (Ok a, w') => k a w'
    | (Throw e, w') => (Throw e, w')
    end.

(** [try { m } catch (error) { h error }] *)
Definition tryCatch {A : Type} (m : M A) (h : JsError -> M A) : M A :=
  fun w =>
    match m w with
    | (Ok a, w') => (Ok a, w')
    | (Throw e, w') => h e w'
    end.

Notation "'let!' x ':=' m 'in' k" := (bind m (fun x => k))
  (at level 10, x name, m at level 100, k at level 200).

Notation "m ';;;' k" := (bind m (fun _ => k))
  (at level 100, k at level 200, right associativity).

(** The world as it is now. *)
Definition get : M World := fun w => (Ok w, w).

(** [if (c) throw e] *)
Definition throwIf (c : bool) (e : JsError) : M unit :=
  if c then throw e else ret tt.

(** [uuidv4()], [Date.now()] and [Math.random()] make a name that was not
    used before: the counter [fresh] stands for them. *)
Definition freshName (prefix : string) : M string :=
  fun w => (Ok (prefix +:+ Js.ofNat (fresh w)), with_fresh w (S (fresh w))).

(** ** database: the Document model (models/Document.js) *)

Module Document.

(** [COUNT( * ) FROM chunks WHERE document_id = ?] *)
Definition countChunks (docId : string) (rows : list ChunkRow) : nat :=
  length (filter (fun r => document_id r = docId) rows).

(** [new Document(row)] for the row selected by [WHERE id = ?]: its id is
    the one asked for, and [data.processingError || null]. *)
Definition ofRow (docId : string) (row : DocumentData) : DocumentData :=
  {| id := docId; filename := filename row; originalName := originalName row;
     fileSize := fileSize row; mimeType := mimeType row;
     uploadTime := uploadTime row; processingStatus := processingStatus row;
     processingError :=
       match processingError row with
       | Some e => if Js.truthy e then Some e else None
       | None => None
       end;
     totalPages := totalPages row; totalChunks := totalChunks row;
     uploadPath := uploadPath row |}.

Definition findById (docId : string) : M (option DocumentData) :=
  fun w => (Ok (ofRow docId <$> documents (db w) !! docId), w).

(** [INSERT OR REPLACE INTO documents]: the row of this id, if there is
    one, is deleted first, and with foreign keys on its chunks go with it. *)
Definition save (this : DocumentData) : M unit :=
  fun w =>
    let d := db w in
    let kept :=
      if foreign_keys d && bool_decide (is_Some (documents d !! id this))
      then filter (fun r => document_id r <> id this) (chunks d)
      else chunks d in
    (Ok tt,
     with_db w {| foreign_keys := foreign_keys d;
                  documents := <[id this := this]> (documents d);
                  chunks := kept |}).

Definition setStatus (status : DOCUMENT_STATUS) (error : option string)
  (d : DocumentData) : DocumentData :=
  {| id := id d; filename := filename d; originalName := originalName d;
     fileSize := fileSize d; mimeType := mimeType d; uploadTime := uploadTime d;
     processingStatus := status; processingError := error;
     totalPages := totalPages d; totalChunks := totalChunks d;
     uploadPath := uploadPath d |}.

Definition setTotalPages (n : Z) (d : DocumentData) : DocumentData :=
  {| id := id d; filename := filename d; originalName := originalName d;
     fileSize := fileSize d; mimeType := mimeType d; uploadTime := uploadTime d;
     processingStatus := processingStatus d; processingError := processingError d;
     totalPages := n; totalChunks := totalChunks d;
     uploadPath := uploadPath d |}.

Definition setTotalChunks (n : nat) (d : DocumentData) : DocumentData :=
  {| id := id d; filename := filename d; originalName := originalName d;
     fileSize := fileSize d; mimeType := mimeType d; uploadTime := uploadTime d;
     processingStatus := processingStatus d; processingError := processingError d;
     totalPages := totalPages d; totalChunks := n;
     uploadPath := uploadPath d |}.

(** [updateStatus(status, error = null)]: the object is changed, then the
    row by an [UPDATE ... WHERE id = ?]. The changed object is returned. *)
Definition updateStatus (this : DocumentData) (status : DOCUMENT_STATUS)
  (error : option string) : M DocumentData :=
  fun w =>
    let d := db w in
    (Ok (setStatus status error this),
     with_db w {| foreign_keys := foreign_keys d;
                  documents := alter (setStatus status error) (id this) (documents d);
                  chunks := chunks d |}).

(** [addChunk(chunkData)]: insert the row under a new uuid, then recount
    [total_chunks]. With foreign keys on, a chunk of a document that has
    no row is refused. *)
Definition addChunk (this : DocumentData) (c : Chunk) : M string :=
  let! chunkId := freshName "uuid-" in
  fun w =>
    let d := db w in
    if foreign_keys d && negb (bool_decide (is_Some (documents d !! id this)))
    then (Throw {| message := "SQLITE_CONSTRAINT: FOREIGN KEY constraint failed";
                   code := Some "SQLITE_CONSTRAINT" |}, w)
    else
      let row := {| row_id := chunkId; document_id := id this;
                    row_type := chunk_type c; row_content := content c;
                    page_number := pageNumber c; position_data := position c;
                    ocr_confidence :=
                      match ocrConfidence c with
                      | Some n => if (n =? 0)%Z then None else Some n
                      | None => None
                      end;
                    row_metadata := metadata c |} in
      let rows := chunks d ++ [row] in
      (Ok chunkId,
       with_db w {| foreign_keys := foreign_keys d;
                    documents :=
                      alter (setTotalChunks (countChunks (id this) rows))
                            (id this) (documents d);
                    chunks := rows |}).

(** The chunk rows of this document, in the order of the table.
    [getChunks()] selects the same rows and sorts them by page number and
    time of creation; no statement below reads their order as that of
    [getChunks()]. *)
Definition chunkRows (docId : string) (w : World) : list ChunkRow :=
  filter (fun r => document_id r = docId) (chunks (db w)).

(** [delete()]: [DELETE FROM chunks WHERE document_id = ?], then
    [DELETE FROM documents WHERE id = ?]. *)
Definition delete (this : DocumentData) : M unit :=
  fun w =>
    let d := db w in
    (Ok tt,
     with_db w {| foreign_keys := foreign_keys d;
                  documents := base.delete (id this) (documents d);
                  chunks := filter (fun r => document_id r <> id this) (chunks d) |}).

End Document.

(** ** config/meilisearch.js *)

Module MeiliSearchClient.

Definition setConnected (b : bool) : M unit :=
  fun w =>
    let m := meili w in
    (Ok tt, with_meili w {| meili_up := meili_up m; isConnected := b;
                            indexes := indexes m; queries := queries m;
                            engine := engine m |}).

Definition setIndexes (f : gmap string (list SearchDocument) ->
                           gmap string (list SearchDocument)) : M unit :=
  fun w =>
    let m := meili w in
    (Ok tt, with_meili w {| meili_up := meili_up m; isConnected := isConnected m;
                            indexes := f (indexes m); queries := queries m;
                            engine := engine m |}).

Definition logQuery (indexName query : string) : M unit :=
  fun w =>
    let m := meili w in
    (Ok tt, with_meili w {| meili_up := meili_up m; isConnected := isConnected m;
                            indexes := indexes m;
                            queries := queries m ++ [(indexName, query)];
                            engine := engine m |}).

(** A request to the server: it fails when the server cannot be reached. *)
Definition request : M unit :=
  fun w =>
    if meili_up (meili w) then (Ok tt, w)
    else (Throw (Error "request to MeiliSearch failed"), w).

Definition requireConnected : M unit :=
  fun w =>
    if isConnected (meili w) then (Ok tt, w)
    else (Throw (Error "MeiliSearch not connected"), w).

Definition connect : M unit :=
  tryCatch (request ;;; setConnected true)
           (fun error => setConnected false ;;; throw error).

Definition isHealthy : M bool := fun w => (Ok (isConnected (meili w)), w).

(** The server's [createIndex]: refused for a name that is taken. *)
Definition serverCreateIndex (indexName : string) : M unit :=
  request ;;;
  let! w := get in
  match indexes (meili w) !! indexName with
  | Some _ =>
      throw {| message := "Index " +:+ indexName +:+ " already exists.";
               code := Some "index_already_exists" |}
  | None => setIndexes (insert indexName [])
  end.

(** [createIndex(indexName)]: [None] is the [return null] of the index
    that exists already. *)
Definition createIndex (indexName : string) : M (option unit) :=
  tryCatch
    (requireConnected ;;;
     serverCreateIndex indexName ;;;
     ret (Some tt))
    (fun error =>
       if bool_decide (code error = Some "index_already_exists")
       then ret None
       else throw error).

(** [configureIndex]: five settings updates, none of which touches the
    documents of the index. *)
Definition configureIndex (indexName : string) : M bool :=
  requireConnected ;;; request ;;; ret true.

(** The server adds or replaces by the primary key [id]. *)
Definition upsert (d : SearchDocument) (l : list SearchDocument)
  : list SearchDocument :=
  if existsb (fun x => String.eqb (sd_id x) (sd_id d)) l
  then map (fun x => if String.eqb (sd_id x) (sd_id d) then d else x) l
  else l ++ [d].

Definition upsertAll (docs l : list SearchDocument) : list SearchDocument :=
  fold_left (fun acc d => upsert d acc) docs l.

Definition addDocuments (indexName : string) (docs : list SearchDocument)
  : M unit :=
  requireConnected ;;;
  request ;;;
  setIndexes (fun ix => <[indexName := upsertAll docs (default [] (ix !! indexName))]> ix).

Definition indexNotFound (indexName : string) : JsError :=
  {| message := "Index " +:+ indexName +:+ " not found.";
     code := Some "index_not_found" |}.

Definition search (indexName query : string) (options : MeiliOptions)
  : M MeiliResults :=
  requireConnected ;;;
  request ;;;
  let! w := get in
  match indexes (meili w) !! indexName with
  | None => throw (indexNotFound indexName)
  | Some docs =>
      logQuery indexName query ;;;
      ret (engine (meili w) docs query options)
  end.

Definition deleteIndex (indexName : string) : M unit :=
  requireConnected ;;;
  request ;;;
  let! w := get in
  match indexes (meili w) !! indexName with
  | None => throw (indexNotFound indexName)
  | Some _ => setIndexes (delete indexName)
  end.

End MeiliSearchClient.

(** ** config/redis.js *)

Module RedisClient.

(** [get(key)]: [null] when not connected, when the key is absent and
    when its time to live is over. *)
Definition get (key : string) : M (option SearchResponse) :=
  fun w =>
    let r := redis w in
    if redis_isConnected r then
      match entries r !! key with
      | Some (v, expires) =>
          (Ok (if (clock r <? expires)%Z then Some v else None), w)
      | None => (Ok None, w)
      end
    else (Ok None, w).

(** [set(key, value, ttl)] *)
Definition set (key : string) (value : SearchResponse) (ttl : Z) : M bool :=
  fun w =>
    let r := redis w in
    if redis_isConnected r then
      (Ok true,
       with_redis w {| redis_isConnected := true;
                       entries := <[key := (value, (clock r + ttl)%Z)]> (entries r);
                       clock := clock r |})
    else (Ok false, w).

End RedisClient.

(** ** services/ocrService.js

    [processImage] runs the Tesseract worker on the image and cleans the
    text; what it recognizes is the world's [recognize]. *)

Module OCRService.

Definition processImage (imageBuffer : string) : M OcrResult :=
  fun w => (recognize w imageBuffer, w).

(** The callback of [replace(/[0O]/g, match => ...)]: it looks for the
    matched character in [text], the text [cleanExtractedText] was called
    with, and at the neighbours of its first occurrence there. *)
Definition zeroOrO (text : list ascii) (matched : ascii) : ascii :=
  let i := Js.indexOf matched text in
  let letterAt j :=
    match Js.charAt text j with
    | Some c => Js.isLetter c
    | None => false
    end in
  if letterAt (i - 1)%Z || letterAt (i + 1)%Z then Js.chr 79 else Js.chr 48.

(** [replace(/\r\n/g, '\n')] *)
Fixpoint replaceCRLF (l : list ascii) : list ascii :=
  match l with
  | [] => []
  | c :: r =>
      if (Js.code c =? 13) &&
         match r with c' :: _ => Js.code c' =? 10 | [] => false end
      then match r with _ :: r' => Js.chr 10 :: replaceCRLF r' | [] => [] end
      else c :: replaceCRLF r
  end.

(** The characters [[^\x20-\x7E\n\t]] does not match. *)
Definition printable (c : ascii) : bool :=
  Js.inRange 32 126 c || Js.oneOf [10; 9] c.

Definition cleanExtractedText (text : string) : string :=
  if Js.truthy text then
    Js.str
      (Js.trimChars
         (Js.replaceEach (Js.oneOf [13]) [Js.chr 10]
            (replaceCRLF
               (List.filter printable
                  (map (fun c => if Js.oneOf [48; 79] c
                                 then zeroOrO (Js.chars text) c else c)
                     (Js.replaceEach (Js.oneOf [124]) [Js.chr 108]
                        (Js.replaceRuns Js.isSpace [Js.space] false
                           (Js.chars text))))))))
  else EmptyString.

End OCRService.

(** ** services/indexService.js *)

(** A number-valued option as JavaScript has it. *)
Inductive JsNumber : Set := NUndefined | NNull | NNaN | Num (n : Z).

(** [v || d] *)
Definition numOr (v : JsNumber) (d : Z) : Z :=
  match v with
  | Num n => if (n =? 0)%Z then d else n
  | _ => d
  end.

(** The truthy values of a number-valued option. *)
Definition numTruthy (v : JsNumber) : option Z :=
  match v with
  | Num n => if (n =? 0)%Z then None else Some n
  | _ => None
  end.

(** The [searchOptions] a caller spreads over the defaults. *)
Record SearchOverrides : Set := {
  ov_attributesToRetrieve : option (list string);
  ov_attributesToCrop : list string;
  ov_matchingStrategy : option string
}.

Record IndexSearchOptions : Set := {
  iso_limit : JsNumber;
  iso_offset : JsNumber;
  iso_contentType : option string;
  iso_pageNumber : JsNumber;
  iso_minConfidence : JsNumber;
  iso_sortBy : option string;
  iso_sortOrder : option string;
  iso_searchOptions : SearchOverrides
}.

Module IndexService.

Definition indexPrefix : string := "pdf_search".

Definition getIndexName (documentId : string) : string :=
  indexPrefix +:+ "_" +:+ documentId.

Definition createDocumentIndex (documentId : string) : M string :=
  let indexName := getIndexName documentId in
  let! healthy := MeiliSearchClient.isHealthy in
  (if healthy then ret tt else MeiliSearchClient.connect) ;;;
  MeiliSearchClient.createIndex indexName ;;;
  MeiliSearchClient.configureIndex indexName ;;;
  ret indexName.

(** [chunk.content.split(/\s+/).length] *)
Definition splitWordCount (s : string) : nat :=
  if Js.truthy s then length (Js.split Js.isSpace s) else 0.

Definition searchDocumentOf (documentId : string) (c : Chunk) : SearchDocument :=
  {| sd_id := chunk_id c; sd_documentId := documentId; sd_type := chunk_type c;
     sd_content := content c; sd_pageNumber := pageNumber c;
     sd_position := position c; sd_ocrConfidence := ocrConfidence c;
     sd_metadata := metadata c;
     sd_wordCount := splitWordCount (content c);
     sd_contentLength := String.length (content c) |}.

Definition indexDocumentChunks (documentId : string) (cs : list Chunk)
  : M (string * nat) :=
  let indexName := getIndexName documentId in
  MeiliSearchClient.addDocuments indexName (map (searchDocumentOf documentId) cs) ;;;
  ret (indexName, length cs).

Definition isContentType (s : string) : bool :=
  existsb (String.eqb s) (map typeString [PARAGRAPH; IMAGE; TABLE]).

Definition filters (options : IndexSearchOptions) : list string :=
  (match iso_contentType options with
   | Some t =>
       if Js.truthy t && isContentType t
       then ["type = " +:+ Js.dquote +:+ t +:+ Js.dquote] else []
   | None => []
   end) ++
  (match numTruthy (iso_pageNumber options) with
   | Some n => ["pageNumber = " +:+ Js.ofZ n]
   | None => []
   end) ++
  (match numTruthy (iso_minConfidence options) with
   | Some n => ["ocrConfidence >= " +:+ Js.ofZ n]
   | None => []
   end).

Definition meiliOptions (options : IndexSearchOptions) : MeiliOptions :=
  let ov := iso_searchOptions options in
  {| mo_limit := numOr (iso_limit options) 20;
     mo_offset := numOr (iso_offset options) 0;
     mo_attributesToRetrieve :=
       default ["id"; "type"; "content"; "pageNumber"; "position";
                "ocrConfidence"; "metadata"] (ov_attributesToRetrieve ov);
     mo_attributesToCrop := ov_attributesToCrop ov;
     mo_matchingStrategy := ov_matchingStrategy ov;
     mo_filter :=
       match filters options with
       | [] => None
       | fs => Some (Js.join " AND " fs)
       end;
     mo_sort :=
       match iso_sortBy options with
       | Some f =>
           if Js.truthy f then
             Some [f +:+ (if bool_decide (iso_sortOrder options = Some "desc")
                          then ":desc" else ":asc")]
           else None
       | None => None
       end |}.

(** [results.estimatedTotalHits || results.nbHits]: an estimate of 0 is
    falsy, and the total is then [nbHits], [undefined] when absent; a
    comparison with [undefined] is false. *)
Definition totalOf (results : MeiliResults) : option nat :=
  if 0 <? estimatedTotalHits results then Some (estimatedTotalHits results)
  else nbHits results.

Definition search (documentId query : string) (options : IndexSearchOptions)
  : M IndexResults :=
  let indexName := getIndexName documentId in
  let searchOptions := meiliOptions options in
  let! results := MeiliSearchClient.search indexName query searchOptions in
  let total := totalOf results in
  ret {| ir_hits := hits results; ir_query := query; ir_documentId := documentId;
         ir_offset := mo_offset searchOptions; ir_limit := mo_limit searchOptions;
         ir_total := total;
         ir_hasMore :=
           match total with
           | Some n => (mo_offset searchOptions + mo_limit searchOptions <? Z.of_nat n)%Z
           | None => false
           end |}.

Definition deleteDocumentIndex (documentId : string) : M unit :=
  tryCatch
    (MeiliSearchClient.deleteIndex (getIndexName documentId))
    (fun error =>
       if bool_decide (code error = Some "index_not_found")
       then ret tt else throw error).

Definition reindexDocument (documentId : string) (cs : list Chunk)
  : M (string * nat) :=
  deleteDocumentIndex documentId ;;;
  createDocumentIndex documentId ;;;
  indexDocumentChunks documentId cs.

End IndexService.

(** ** services/etlService.js *)

(** The object [processDocument] returns. *)
Record ProcessResult : Set := {
  pr_documentId : string;
  pr_totalChunks : nat;
  pr_totalPages : Z;
  pr_chunksByType : nat * nat * nat
}.

(** The object a health check returns; [services] and [timestamp] are
    left out. *)
Record Health : Set := { h_status : string; h_error : option string }.

Module ETLService.

Definition nl : string := String (Js.chr 10) EmptyString.

(** The characters [cleanText] keeps: word characters, white space, the
    punctuation [. , ! ? ; :], the brackets, the hyphen, the two quotes,
    the slash and the backslash. *)
Definition allowed (c : ascii) : bool :=
  Js.isWord c || Js.isSpace c ||
  Js.oneOf [46; 44; 33; 63; 59; 58; 40; 41; 45; 91; 93; 123; 125; 39; 34; 47; 92] c.

(** [. , ! ? ; :] *)
Definition isPunct (c : ascii) : bool := Js.oneOf [46; 44; 33; 63; 59; 58] c.

(** [replace(/([.,!?;:]){2,}/g, '$1')]: a run of two or more is replaced
    by what the group matched last, its last character; so of every run
    the last character stays. *)
Fixpoint collapsePunct (l : list ascii) : list ascii :=
  match l with
  | [] => []
  | c :: r =>
      if isPunct c && match r with c' :: _ => isPunct c' | [] => false end
      then collapsePunct r
      else c :: collapsePunct r
  end.

(** The two quote replacements of the source put a quote for a quote. *)
Definition cleanText (text : string) : string :=
  if Js.truthy text then
    Js.str
      (Js.trimChars
         (collapsePunct
            (Js.replaceEach (Js.oneOf [39]) [Js.chr 39]
               (Js.replaceEach (Js.oneOf [34]) [Js.chr 34]
                  (List.filter allowed
                     (Js.replaceRuns Js.isSpace [Js.space] false (Js.chars text)))))))
  else EmptyString.

(** [text.split(/[.!?]+/).filter(s => s.trim().length > 0)] *)
Definition sentences (text : string) : list string :=
  List.filter (fun s => 0 <? String.length (Js.trim s))
              (Js.split (Js.oneOf [46; 33; 63]) text).

(** [if (!text) return {}] is the [None] case. *)
Definition extractTextFeatures (text : string) : option TextFeatures :=
  if Js.truthy text then
    let tokens := WordTokenizer.tokenize (Js.toLowerCase text) in
    let sents := sentences text in
    Some {| wordCount := length tokens;
            sentenceCount := length sents;
            characterCount := String.length text;
            avgWordsPerSentence :=
              if 0 <? length sents
              then Js.roundDiv (length tokens) (length sents) else 0;
            containsNumbers := existsb Js.isDigit (Js.chars text);
            containsCapitals := existsb Js.isUpper (Js.chars text);
            language := "en" |}
  else None.

Definition generateChunkId : M string := freshName "chunk_".

(** [a || b || {}] on positions. *)
Definition orPosition (a b : option Position) : Position :=
  match a, b with
  | Some p, _ => p
  | None, Some p => p
  | None, None => []
  end.

(** [a || b || 1] on page numbers. *)
Definition orPage (a b : option Z) : Z := Js.orNum a (Js.orNum b 1).

Definition paragraphText (p : Paragraph) : string :=
  Js.orStr (p_content p) (Js.orStr (p_text p) EmptyString).

(** The body of the loop of [processParagraphs] up to the chunk's id:
    [None] is the [continue] of a paragraph that is too short. *)
Definition paragraphChunk (p : Paragraph) : option (string -> Chunk) :=
  let cleanedText := cleanText (paragraphText p) in
  if negb (Js.truthy cleanedText) || (String.length cleanedText <? 10) then None
  else
    Some (fun chunkId =>
      {| chunk_id := chunkId; chunk_type := PARAGRAPH; content := cleanedText;
         pageNumber := orPage (p_pageNumber p) (p_page p);
         position := orPosition (p_position p) (p_bbox p);
         ocrConfidence := None;
         metadata := ParagraphMeta (String.length (paragraphText p))
                       (String.length cleanedText)
                       (extractTextFeatures cleanedText) |}).

Fixpoint processParagraphs (ps : list Paragraph) : M (list Chunk) :=
  match ps with
  | [] => ret []
  | p :: rest =>
      let! here :=
        tryCatch
          (match paragraphChunk p with
           | None => ret []
           | Some mk => let! chunkId := generateChunkId in ret [mk chunkId]
           end)
          (fun _ => ret []) in
      let! more := processParagraphs rest in
      ret (here ++ more)
  end.

(** [image.data || image.buffer] *)
Definition imageData (image : Image) : option string :=
  match i_data image with
  | Some b => Some b
  | None => i_buffer image
  end.

(** The body of the loop of [processImages]. The chunk literal reads
    [imageBuffer], a [const] of the block of the OCR call, outside that
    block: evaluating it throws a ReferenceError after the chunk's id was
    made, and the [catch] of the loop goes on with the next image. *)
Definition processImage (image : Image) : M (list Chunk) :=
  tryCatch
    (let! ocr :=
       match imageData image with
       | Some imageBuffer =>
           let! ocrResult := OCRService.processImage imageBuffer in
           ret (ocr_text ocrResult, ocr_confidence_value ocrResult)
       | None => ret (EmptyString, 0%Z)
       end in
     let extractedText := fst ocr in
     if Js.truthy extractedText && (5 <? String.length extractedText) then
       let! chunkId := generateChunkId in
       throw {| message := "imageBuffer is not defined"; code := None |}
     else ret [])
    (fun _ => ret []).

Fixpoint processImages (imgs : list Image) : M (list Chunk) :=
  match imgs with
  | [] => ret []
  | image :: rest =>
      let! here := processImage image in
      let! more := processImages rest in
      ret (here ++ more)
  end.

(** One row of [convertTableToText]; [None] is the TypeError of
    [Object.values(null)], since [typeof null] is ['object']. *)
Definition rowLine (index : nat) (row : Row) : option string :=
  match row with
  | RowArray cells =>
      Some ("Row " +:+ Js.ofNat (index + 1) +:+ ": " +:+ Js.join ", " cells +:+ nl)
  | RowObject fields =>
      Some ("Row " +:+ Js.ofNat (index + 1) +:+ ": " +:+
            Js.join ", " (map snd fields) +:+ nl)
  | RowNull => None
  | RowOther => Some EmptyString
  end.

Fixpoint rowsText (index : nat) (rows : list Row) : option string :=
  match rows with
  | [] => Some EmptyString
  | row :: rest =>
      match rowLine index row, rowsText (S index) rest with
      | Some line, Some lines => Some (line +:+ lines)
      | _, _ => None
      end
  end.

Definition convertTableToText (table : Table) : string :=
  let headers :=
    match t_headers table with
    | Some hs => "Headers: " +:+ Js.join ", " hs +:+ nl
    | None => EmptyString
    end in
  let rows :=
    match t_rows table with
    | Some (RowList rs) => rowsText 0 rs
    | Some RowsOther => Some EmptyString
    | None => Some EmptyString
    end in
  let caption :=
    match t_caption table with
    | Some c => if Js.truthy c then "Caption: " +:+ c +:+ nl else EmptyString
    | None => EmptyString
    end in
  match rows with
  | Some rows => Js.trim (headers +:+ rows +:+ caption)
  | None => EmptyString
  end.

(** [extractTableStructure(table)]: [table.rows.some] is no function for
    rows that are truthy and no array, and the call throws a TypeError.
    Of the structure it returns, which the metadata of the chunk carries
    unread, nothing else is kept. *)
Definition extractTableStructure (table : Table) : M unit :=
  match t_rows table with
  | Some RowsOther => throw (Error "table.rows.some is not a function")
  | Some (RowList _) => ret tt
  | None => ret tt
  end.

Definition tableChunk (table : Table) : option (string -> Chunk) :=
  let tableText := convertTableToText table in
  if negb (Js.truthy tableText) || (String.length tableText <? 10) then None
  else
    Some (fun chunkId =>
      {| chunk_id := chunkId; chunk_type := TABLE; content := tableText;
         pageNumber := orPage (t_pageNumber table) (t_page table);
         position := orPosition (t_position table) (t_bbox table);
         ocrConfidence := None;
         metadata := TableMeta (match t_rows table with
                                | Some (RowList rs) => length rs
                                | _ => 0
                                end)
                       (match t_headers table with Some hs => length hs | None => 0 end)
                       (extractTextFeatures tableText) |}).

(** The body of the loop of [processTables]. The fields of the chunk are
    evaluated in their order: the id is made before
    [extractTableStructure] is called, and an error of that call is
    caught by the loop, which goes on to the next table. *)
Definition processTable (table : Table) : M (list Chunk) :=
  tryCatch
    (match tableChunk table with
     | None => ret []
     | Some mk =>
         let! chunkId := generateChunkId in
         extractTableStructure table ;;;
         ret [mk chunkId]
     end)
    (fun _ => ret []).

Fixpoint processTables (ts : list Table) : M (list Chunk) :=
  match ts with
  | [] => ret []
  | table :: rest =>
      let! here := processTable table in
      let! more := processTables rest in
      ret (here ++ more)
  end.

Definition extractAndProcessContent (parsedData : ParsedData) : M (list Chunk) :=
  let! paragraphChunks :=
    match paragraphs parsedData with
    | Some ps => processParagraphs ps
    | None => ret []
    end in
  let! imageChunks :=
    match images parsedData with
    | Some imgs => processImages imgs
    | None => ret []
    end in
  let! tableChunks :=
    match tables parsedData with
    | Some ts => processTables ts
    | None => ret []
    end in
  ret (paragraphChunks ++ imageChunks ++ tableChunks).

Fixpoint storeChunks (document : DocumentData) (cs : list Chunk)
  : M (list string) :=
  match cs with
  | [] => ret []
  | c :: rest =>
      let! here :=
        tryCatch (let! chunkId := Document.addChunk document c in ret [chunkId])
                 (fun _ => ret []) in
      let! more := storeChunks document rest in
      ret (here ++ more)
  end.

(** [Math.max(...chunks.map(chunk => chunk.pageNumber || 1))], and 0 for
    no chunk. *)
Definition calculateTotalPages (cs : list Chunk) : Z :=
  match map (fun c => Js.orNum (Some (pageNumber c)) 1) cs with
  | [] => 0
  | n :: rest => fold_left Z.max rest n
  end.

Definition countType (t : CONTENT_TYPES) (cs : list Chunk) : nat :=
  length (List.filter (fun c => bool_decide (chunk_type c = t)) cs).

Definition getChunkStatsByType (cs : list Chunk) : nat * nat * nat :=
  (countType PARAGRAPH cs, countType IMAGE cs, countType TABLE cs).

(** The [try] block of [processDocument] from the point where [document]
    is set. *)
Definition processLoaded (document : DocumentData) (documentId : string)
  (parsedData : ParsedData) : M ProcessResult :=
  let! document := Document.updateStatus document PROCESSING None in
  let! processedChunks := extractAndProcessContent parsedData in
  let document := Document.setTotalPages (calculateTotalPages processedChunks) document in
  Document.save document ;;;
  let! chunkIds := storeChunks document processedChunks in
  IndexService.createDocumentIndex documentId ;;;
  IndexService.indexDocumentChunks documentId processedChunks ;;;
  let! document := Document.updateStatus document COMPLETED None in
  ret {| pr_documentId := documentId;
         pr_totalChunks := length processedChunks;
         pr_totalPages := totalPages document;
         pr_chunksByType := getChunkStatsByType processedChunks |}.

(** [processDocument(documentId, parsedData)]. The [catch] marks the
    document failed [if (document)], that is for every error thrown after
    the document was loaded, and throws the error again. *)
Definition processDocument (documentId : string) (parsedData : ParsedData)
  : M ProcessResult :=
  let! found := Document.findById documentId in
  match found with
  | None => throw (Error ("Document " +:+ documentId +:+ " not found"))
  | Some document =>
      tryCatch
        (processLoaded document documentId parsedData)
        (fun error =>
           Document.updateStatus document FAILED (Some (message error)) ;;;
           throw error)
  end.

Definition unhealthy (error : JsError) : Health :=
  {| h_status := "unhealthy"; h_error := Some (message error) |}.

(** [healthCheck()]. The checks of ocrService and indexService it calls
    are its arguments. *)
Definition healthCheck (ocrHealth indexHealth : M Health) : M Health :=
  tryCatch
    (let testText := "This is a test paragraph for health check." in
     let features := extractTextFeatures testText in
     throwIf (match features with
              | Some f => (wordCount f =? 0) || negb (wordCount f =? 9)
              | None => true
              end)
             (Error "Text feature extraction failed") ;;;
     let! ocr := ocrHealth in
     throwIf (negb (String.eqb (h_status ocr) "healthy"))
             (Error "OCR service is unhealthy") ;;;
     let! index := indexHealth in
     throwIf (negb (String.eqb (h_status index) "healthy"))
             (Error "Index service is unhealthy") ;;;
     ret {| h_status := "healthy"; h_error := None |})
    (fun error => ret (unhealthy error)).

End ETLService.

(** ** jobs/processDocument.js *)

(** A job of the queue: its payload, the attempts made before this one
    and the attempts allowed ([job.opts.attempts]). *)
Record Job : Set := {
  job_id : string;
  job_documentId : option string;
  job_parsedData : option ParsedData;
  attemptsMade : nat;
  attempts : nat
}.

Inductive JobResult : Set :=
| AlreadyProcessed (documentId : string)
| Processed (result : ProcessResult) (jobId : string).

Module ProcessDocumentJob.

(** [job.progress(n)] *)
Definition reportProgress (job : Job) (n : nat) : M unit :=
  fun w => (Ok tt, with_progress w (progress w ++ [(job_id job, n)])).

Definition findDocument (documentId : option string) : M (option DocumentData) :=
  match documentId with
  | Some d => Document.findById d
  | None => ret None
  end.

(** The [try] block of [processDocumentJob]. *)
Definition attempt (job : Job) : M JobResult :=
  reportProgress job 10 ;;;
  match job_documentId job with
  | None => throw (Error "Document ID is required")
  | Some documentId =>
      if negb (Js.truthy documentId) then throw (Error "Document ID is required")
      else
        match job_parsedData job with
        | None => throw (Error "Parsed data is required")
        | Some parsedData =>
            let! document := Document.findById documentId in
            match document with
            | None => throw (Error ("Document " +:+ documentId +:+ " not found"))
            | Some document =>
                if bool_decide (processingStatus document = COMPLETED)
                then ret (AlreadyProcessed documentId)
                else
                  reportProgress job 20 ;;;
                  let! result := ETLService.processDocument documentId parsedData in
                  reportProgress job 100 ;;;
                  ret (Processed result (job_id job))
            end
        end
  end.

(** The [catch] block: on the final attempt the document is marked
    failed, and the error is thrown again to the queue. *)
Definition onError (job : Job) (error : JsError) : M JobResult :=
  (if attempts job <=? attemptsMade job + 1 then
     tryCatch
       (let! document := findDocument (job_documentId job) in
        match document with
        | Some document =>
            Document.updateStatus document FAILED (Some (message error)) ;;; ret tt
        | None => ret tt
        end)
       (fun _ => ret tt)
   else ret tt) ;;;
  throw error.

Definition processDocumentJob (job : Job) : M JobResult :=
  tryCatch (attempt job) (onError job).

(** [cleanupJob(documentId, reason = 'shutdown')] *)
Definition cleanupJob (documentId : string) (reason : option string) : M unit :=
  tryCatch
    (let! document := Document.findById documentId in
     match document with
     | Some document =>
         if bool_decide (processingStatus document = PROCESSING) then
           Document.updateStatus document FAILED
             (Some ("Processing interrupted: " +:+ default "shutdown" reason)) ;;;
           ret tt
         else ret tt
     | None => ret tt
     end)
    (fun _ => ret tt).

(** [getRetryDelay(attemptsMade)]:
    [Math.min(Math.pow(2, attemptsMade) * 1000, 30000)]. *)
Definition getRetryDelay (attemptsMade : nat) : Z :=
  Z.min (2 ^ Z.of_nat attemptsMade * 1000) 30000.

(** [healthCheck(queue)]: the status it reports. [getJobStatistics] reads
    the queue and gives [null] when that fails. *)
Definition healthCheck {Stats : Type} (getJobStatistics : M (option Stats))
  (ocrHealth indexHealth : M Health) : M string :=
  tryCatch
    (let! stats := getJobStatistics in
     let! etlHealth := ETLService.healthCheck ocrHealth indexHealth in
     ret (if String.eqb (h_status etlHealth) "healthy" &&
             bool_decide (is_Some stats)
          then "healthy" else "unhealthy"))
    (fun _ => ret "unhealthy").

End ProcessDocumentJob.

(** ** config/queue.js

    The queue manager is a state of its own: it is initialised at startup
    if the cache could be reached then, and [queue.add] can reject. *)

Module QueueManager.

(** [addJob(queueName, jobData, options)] for the state of the queue:
    [None] when it takes the job, whose id it gives, and [Some error] when
    [getQueue] throws ('Queue manager not initialized') or [queue.add]
    rejects. The error is thrown again. *)
Definition addJob (refusal : option JsError) : M string :=
  tryCatch
    (match refusal with
     | None => freshName "job-"
     | Some error => throw error
     end)
    (fun error => throw error).

End QueueManager.

(** ** controllers/documentController.js: reprocessDocument

    The handler resets the status and queues a job with its fixed payload
    and [attempts: 3]; the job it queues is returned here with the status
    code of the response. An error, which [addJob] can throw after the
    status was reset, is answered 500. *)

Module DocumentController.

Definition reprocessDocument (queue : option JsError) (documentId : string)
  : M (nat * option Job) :=
  tryCatch
    (let! found := Document.findById documentId in
     match found with
     | None => ret (HTTP_STATUS.NOT_FOUND, None)
     | Some document =>
         if bool_decide (processingStatus document = PROCESSING)
         then ret (HTTP_STATUS.UNPROCESSABLE_ENTITY, None)
         else
           let! document := Document.updateStatus document PENDING None in
           let mockParsedData :=
             {| paragraphs :=
                  Some [ {| p_content := Some ("Document " +:+ originalName document +:+ " reprocessing");
                            p_text := None; p_pageNumber := Some 1%Z; p_page := None;
                            p_position := Some [("x", 0%Z); ("y", 0%Z); ("width", 100%Z); ("height", 20%Z)];
                            p_bbox := None |} ];
                images := Some [];
                tables := Some [] |} in
           let! jobId := QueueManager.addJob queue in
           ret (HTTP_STATUS.OK,
                Some {| job_id := jobId; job_documentId := Some (id document);
                        job_parsedData := Some mockParsedData;
                        attemptsMade := 0; attempts := 3 |})
     end)
    (fun _ => ret (HTTP_STATUS.INTERNAL_SERVER_ERROR, None)).

(** [deleteDocument(req, res)]: the status code of the response. The
    index is deleted first, and a failure of that is only logged; removing
    the uploaded file from the disk is left out. *)
Definition deleteDocument (documentId : string) : M nat :=
  tryCatch
    (let! found := Document.findById documentId in
     match found with
     | None => ret HTTP_STATUS.NOT_FOUND
     | Some document =>
         tryCatch (IndexService.deleteDocumentIndex documentId)
                  (fun _ => ret tt) ;;;
         Document.delete document ;;;
         ret HTTP_STATUS.OK
     end)
    (fun _ => ret HTTP_STATUS.INTERNAL_SERVER_ERROR).

End DocumentController.

(** ** services/searchService.js *)

(** The [options] of a search. *)
Record SearchOptions : Set := {
  so_limit : JsNumber;
  so_offset : JsNumber;
  so_type : option string;
  so_page : JsNumber;
  so_minConfidence : JsNumber;
  so_sortBy : option string;
  so_sortOrder : option string;
  so_highlight : bool
}.

Record Suggestions : Set := {
  suggestions : list string;
  sg_query : option string;
  sg_documentId : option string
}.

(** [JSON.stringify] of the object the cache key is made of, and
    [Buffer.from(s).toString('base64')]. *)
Module Encoding.

Definition hexDigit (n : nat) : ascii :=
  if n <? 10 then Js.chr (48 + n) else Js.chr (87 + n).

(** A character inside a JSON string. *)
Definition escapeChar (c : ascii) : list ascii :=
  let n := Js.code c in
  if n =? 34 then [Js.chr 92; Js.chr 34]
  else if n =? 92 then [Js.chr 92; Js.chr 92]
  else if n =? 8 then [Js.chr 92; Js.chr 98]
  else if n =? 12 then [Js.chr 92; Js.chr 102]
  else if n =? 10 then [Js.chr 92; Js.chr 110]
  else if n =? 13 then [Js.chr 92; Js.chr 114]
  else if n =? 9 then [Js.chr 92; Js.chr 116]
  else if n <? 32 then
    [Js.chr 92; Js.chr 117; Js.chr 48; Js.chr 48; hexDigit (n / 16); hexDigit (n mod 16)]
  else [c].

Definition jsonString (s : string) : string :=
  Js.dquote +:+ Js.str (flat_map escapeChar (Js.chars s)) +:+ Js.dquote.

(** A number: NaN is written [null]. [None] is the undefined value, whose
    property is left out. *)
Definition jsonNumber (v : JsNumber) : option string :=
  match v with
  | NUndefined => None
  | NNull | NNaN => Some "null"
  | Num n => Some (Js.ofZ n)
  end.

Definition member (key : string) (value : option string) : list string :=
  match value with
  | Some v => [Js.dquote +:+ key +:+ Js.dquote +:+ ":" +:+ v]
  | None => []
  end.

Definition jsonObject (members : list string) : string :=
  "{" +:+ Js.join "," members +:+ "}".

(** The UTF-8 bytes of a string of code units below 256. *)
Definition utf8 (s : string) : list nat :=
  flat_map (fun c => let n := Js.code c in
                     if n <? 128 then [n] else [192 + n / 64; 128 + n mod 64])
           (Js.chars s).

Definition b64char (n : nat) : ascii :=
  if n <? 26 then Js.chr (65 + n)
  else if n <? 52 then Js.chr (71 + n)
  else if n <? 62 then Js.chr (n - 4)
  else if n =? 62 then Js.chr 43
  else Js.chr 47.

Fixpoint base64Bytes (l : list nat) : list ascii :=
  match l with
  | a :: b :: c :: r =>
      b64char (a / 4) :: b64char ((a mod 4) * 16 + b / 16) ::
      b64char ((b mod 16) * 4 + c / 64) :: b64char (c mod 64) :: base64Bytes r
  | [a; b] =>
      [b64char (a / 4); b64char ((a mod 4) * 16 + b / 16);
       b64char ((b mod 16) * 4); Js.chr 61]
  | [a] => [b64char (a / 4); b64char ((a mod 4) * 16); Js.chr 61; Js.chr 61]
  | [] => []
  end.

Definition base64 (s : string) : string := Js.str (base64Bytes (utf8 s)).

End Encoding.

(** What the loop of [analyzeChunks] counts. *)
Record Tally : Type := {
  tl_byType : nat * nat * nat;
  tl_byPage : gmap Z nat;
  tl_totalWords : nat;
  tl_totalConfidence : Z;
  tl_confidenceCount : nat;
  tl_high : nat;
  tl_medium : nat;
  tl_low : nat
}.

(** The [stats] object [analyzeChunks] returns; [byType] holds the counts
    of paragraphs, images and tables. *)
Record ChunkStats : Type := {
  st_total : nat;
  st_byType : nat * nat * nat;
  st_byPage : gmap Z nat;
  st_totalWords : nat;
  st_avgConfidence : Z;
  st_high : nat;
  st_medium : nat;
  st_low : nat
}.

Module SearchService.

Definition cachePrefix : string := "search:".
Definition cacheTTL : Z := 300.

(** The characters [cleanSearchQuery] keeps: word characters, white
    space, the hyphen and the two quotes. *)
Definition keptInQuery (c : ascii) : bool :=
  Js.isWord c || Js.isSpace c || Js.oneOf [45; 39; 34] c.

Definition cleanSearchQuery (query : string) : string :=
  Js.str
    (Js.trimChars
       (Js.replaceRuns Js.isSpace [Js.space] false
          (Js.replaceEach (fun c => negb (keptInQuery c)) [Js.space]
             (Js.chars (Js.toLowerCase (Js.trim query)))))).

Definition generateCacheKey (documentId query : string) (options : SearchOptions)
  : string :=
  let optionsHash :=
    Encoding.base64
      (Encoding.jsonObject
         (Encoding.member "limit" (Encoding.jsonNumber (so_limit options)) ++
          Encoding.member "offset" (Encoding.jsonNumber (so_offset options)) ++
          Encoding.member "type" (Encoding.jsonString <$> so_type options) ++
          Encoding.member "page" (Encoding.jsonNumber (so_page options)) ++
          Encoding.member "sortBy" (Encoding.jsonString <$> so_sortBy options) ++
          Encoding.member "sortOrder" (Encoding.jsonString <$> so_sortOrder options))) in
  cachePrefix +:+ documentId +:+ ":" +:+ Encoding.base64 query +:+ ":" +:+ optionsHash.

Definition getCachedResults (cacheKey : string) : M (option SearchResponse) :=
  tryCatch (RedisClient.get cacheKey) (fun _ => ret None).

Definition cacheResults (cacheKey : string) (results : SearchResponse) : M unit :=
  tryCatch (RedisClient.set cacheKey results cacheTTL ;;; ret tt) (fun _ => ret tt).

Definition queryTooShort : JsError :=
  Error ("Query must be at least " +:+ Js.ofNat SEARCH_CONFIG.MIN_QUERY_LENGTH +:+
         " characters long").

Definition notReady (status : DOCUMENT_STATUS) : JsError :=
  Error ("Document is not ready for search. Status: " +:+ statusString status).

(** The options [searchDocument] hands to indexService.search. *)
Definition indexOptions (options : SearchOptions) : IndexSearchOptions :=
  {| iso_limit := Num (Z.min (numOr (so_limit options) SEARCH_CONFIG.DEFAULT_LIMIT)
                             SEARCH_CONFIG.MAX_RESULTS);
     iso_offset := Num (numOr (so_offset options) 0);
     iso_contentType := so_type options;
     iso_pageNumber := so_page options;
     iso_minConfidence := so_minConfidence options;
     iso_sortBy := so_sortBy options;
     iso_sortOrder := so_sortOrder options;
     iso_searchOptions :=
       {| ov_attributesToRetrieve := None;
          ov_attributesToCrop := ["content:50"];
          ov_matchingStrategy := Some "all" |} |}.

(** [searchDocument(documentId, query, options)]; an absent [query] is
    [None]. The [catch] of the source logs and throws the error again. *)
Definition searchDocument (documentId : string) (query : option string)
  (options : SearchOptions) : M SearchResponse :=
  throwIf (negb (Js.truthy documentId)) (Error "Document ID is required") ;;;
  match query with
  | None => throw queryTooShort
  | Some query =>
      throwIf (negb (Js.truthy query) ||
               (String.length (Js.trim query) <? SEARCH_CONFIG.MIN_QUERY_LENGTH))
              queryTooShort ;;;
      let! found := Document.findById documentId in
      match found with
      | None => throw (Error "Document not found")
      | Some document =>
          throwIf (negb (bool_decide (processingStatus document = COMPLETED)))
                  (notReady (processingStatus document)) ;;;
          let cleanQuery := cleanSearchQuery query in
          let cacheKey := generateCacheKey documentId cleanQuery options in
          let! cachedResults := getCachedResults cacheKey in
          match cachedResults with
          | Some cached => ret cached
          | None =>
              let! results :=
                IndexService.search documentId cleanQuery (indexOptions options) in
              let finalResults :=
                {| sr_results := results; sr_document := document;
                   sr_originalQuery := query; sr_cleanedQuery := cleanQuery;
                   sr_cached := false |} in
              (if 0 <? length (ir_hits results)
               then cacheResults cacheKey finalResults else ret tt) ;;;
              ret finalResults
          end
      end
  end.

(** [words.slice(0, n)] *)
Definition slice0 {A : Type} (n : Z) (l : list A) : list A :=
  if (0 <=? n)%Z then take (Z.to_nat n) l
  else take (length l - Z.to_nat (- n)) l.

(** [suggestions.add(w)] on the set in insertion order. *)
Definition addWord (w : string) (seen : list string) : list string :=
  if existsb (String.eqb w) seen then seen else seen ++ [w].

Definition extractSuggestions (hs : list SearchDocument) (query : string)
  : list string :=
  let queryWords := Js.split Js.isSpace (Js.toLowerCase query) in
  fold_left
    (fun seen hit =>
       if Js.truthy (sd_content hit) then
         fold_left
           (fun seen word =>
              let cleanWord :=
                Js.str (List.filter Js.isWord (Js.chars word)) in
              if (2 <? String.length cleanWord) &&
                 (Js.startsWith cleanWord (Js.toLowerCase query) ||
                  existsb (fun qw => Js.includes cleanWord qw) queryWords)
              then addWord cleanWord seen else seen)
           (Js.split Js.isSpace (Js.toLowerCase (sd_content hit))) seen
       else seen)
    hs [].

Definition noSuggestions : Suggestions :=
  {| suggestions := []; sg_query := None; sg_documentId := None |}.

Definition suggestionOptions (limit : Z) : IndexSearchOptions :=
  {| iso_limit := Num limit; iso_offset := NUndefined; iso_contentType := None;
     iso_pageNumber := NUndefined; iso_minConfidence := NUndefined;
     iso_sortBy := None; iso_sortOrder := None;
     iso_searchOptions :=
       {| ov_attributesToRetrieve := Some ["content"];
          ov_attributesToCrop := ["content:10"];
          ov_matchingStrategy := None |} |}.

(** [searchSuggestions(documentId, query, limit = 5)] *)
Definition searchSuggestions (documentId : string) (query : option string)
  (limit : Z) : M Suggestions :=
  tryCatch
    (match query with
     | None => ret noSuggestions
     | Some query =>
         if negb (Js.truthy query) || (String.length query <? 2)
         then ret noSuggestions
         else
           let! results :=
             IndexService.search documentId query (suggestionOptions limit) in
           ret {| suggestions :=
                    slice0 limit (extractSuggestions (ir_hits results) query);
                  sg_query := Some query;
                  sg_documentId := Some documentId |}
     end)
    (fun _ => ret noSuggestions).

(** [invalidateCache(documentId)]: the pattern is made and logged, and
    [true] is returned; no command is sent to the cache. *)
Definition invalidateCache (documentId : string) : M bool :=
  tryCatch
    (let pattern := cachePrefix +:+ documentId +:+ ":*" in
     ret true)
    (fun _ => ret false).

(** The body of the loop. The confidences are whole numbers here (see
    [Chunk]): the sum is exact, and nothing is stated of an average of
    fractional confidences. *)
Definition countChunk (t : Tally) (chunk : Chunk) : Tally :=
  let counts := tl_byType t in
  let page := Js.orNum (Some (pageNumber chunk)) 1 in
  {| tl_byType :=
       match chunk_type chunk with
       | PARAGRAPH => (S counts.1.1, counts.1.2, counts.2)
       | IMAGE => (counts.1.1, S counts.1.2, counts.2)
       | TABLE => (counts.1.1, counts.1.2, S counts.2)
       end;
     tl_byPage := <[page := S (default 0 (tl_byPage t !! page))]> (tl_byPage t);
     tl_totalWords := tl_totalWords t + IndexService.splitWordCount (content chunk);
     tl_totalConfidence := (tl_totalConfidence t + default 0 (ocrConfidence chunk))%Z;
     tl_confidenceCount :=
       tl_confidenceCount t +
         match ocrConfidence chunk with Some _ => 1 | None => 0 end;
     tl_high :=
       tl_high t +
         match ocrConfidence chunk with
         | Some n => if (80 <=? n)%Z then 1 else 0
         | None => 0
         end;
     tl_medium :=
       tl_medium t +
         match ocrConfidence chunk with
         | Some n => if (80 <=? n)%Z then 0 else if (60 <=? n)%Z then 1 else 0
         | None => 0
         end;
     tl_low :=
       tl_low t +
         match ocrConfidence chunk with
         | Some n => if (80 <=? n)%Z then 0 else if (60 <=? n)%Z then 0 else 1
         | None => 0
         end |}.

(** [Math.round(total / count)] for [count > 0]: the nearest integer, a
    half rounding up. *)
Definition roundQuotient (total : Z) (count : nat) : Z :=
  ((2 * total + Z.of_nat count) / (2 * Z.of_nat count))%Z.

Definition analyzeChunks (chunks : list Chunk) : ChunkStats :=
  let t := fold_left countChunk chunks
             {| tl_byType := (0, 0, 0); tl_byPage := ∅; tl_totalWords := 0;
                tl_totalConfidence := 0; tl_confidenceCount := 0;
                tl_high := 0; tl_medium := 0; tl_low := 0 |} in
  {| st_total := length chunks;
     st_byType := tl_byType t;
     st_byPage := tl_byPage t;
     st_totalWords := tl_totalWords t;
     st_avgConfidence :=
       if 0 <? tl_confidenceCount t
       then roundQuotient (tl_totalConfidence t) (tl_confidenceCount t)
       else 0%Z;
     st_high := tl_high t;
     st_medium := tl_medium t;
     st_low := tl_low t |}.

End SearchService.

(** ** controllers/searchController.js *)

(** The validated request of [GET /api/search/:id]. *)
Record SearchRequest : Set := {
  params_id : string;
  q : option string;
  r_type : option string;
  r_page : option Z;
  r_limit : option Z;
  r_offset : option Z;
  r_minConfidence : option Z;
  r_sortBy : option string;
  r_sortOrder : option string
}.

Record Response : Set := {
  res_status : nat;
  res_success : bool;
  res_error : option string;
  res_data : option SearchResponse
}.

(** The response of [testSearch]. *)
Record TestReply : Set := {
  tr_status : nat;
  tr_success : bool;
  tr_searchWorking : option bool;
  tr_resultsFound : option nat;
  tr_error : option string
}.

Module SearchController.

(** [parseInt(v)] of a number or of nothing. *)
Definition parseInt (v : option Z) : JsNumber :=
  match v with
  | Some n => Num n
  | None => NNaN
  end.

(** [v ? parseInt(v) : null] *)
Definition parseOrNull (v : option Z) : JsNumber :=
  match v with
  | Some n => if (n =? 0)%Z then NNull else Num n
  | None => NNull
  end.

Definition optionsOf (req : SearchRequest) : SearchOptions :=
  {| so_limit := parseInt (r_limit req);
     so_offset := parseInt (r_offset req);
     so_type := r_type req;
     so_page := parseOrNull (r_page req);
     so_minConfidence := parseOrNull (r_minConfidence req);
     so_sortBy := r_sortBy req;
     so_sortOrder := r_sortOrder req;
     so_highlight := true |}.

Definition failure (status : nat) (error : string) : Response :=
  {| res_status := status; res_success := false; res_error := Some error;
     res_data := None |}.

(** The [catch] of [searchDocument]: the status code by the message. *)
Definition respondToError (error : JsError) : Response :=
  if Js.includes (message error) "Document not found"
  then failure HTTP_STATUS.NOT_FOUND "Document not found"
  else if Js.includes (message error) "not ready for search"
  then failure HTTP_STATUS.UNPROCESSABLE_ENTITY (message error)
  else if Js.includes (message error) "Query must be at least"
  then failure HTTP_STATUS.BAD_REQUEST (message error)
  else failure HTTP_STATUS.INTERNAL_SERVER_ERROR "Search failed".

(** [searchDocument(req, res)]: the response sent. [query.substring] of
    the first log line throws for a request without [q]. *)
Definition searchDocument (req : SearchRequest) : World -> Response * World :=
  fun w =>
    match
      (match q req with
       | None =>
           throw (Error "Cannot read properties of undefined (reading 'substring')")
       | Some query =>
           SearchService.searchDocument (params_id req) (Some query) (optionsOf req)
       end) w
    with
    | (Ok results, w') =>
        ({| res_status := HTTP_STATUS.OK; res_success := true; res_error := None;
            res_data := Some results |}, w')
    | (Throw error, w') => (respondToError error, w')
    end.

(** [clearSearchCache(req, res)]: the status code and [data.cacheCleared]. *)
Definition clearSearchCache (documentId : string) : World -> (nat * option bool) * World :=
  fun w =>
    match
      (let! found := Document.findById documentId in
       match found with
       | None => ret (HTTP_STATUS.NOT_FOUND, None)
       | Some _ =>
           let! cacheCleared := SearchService.invalidateCache documentId in
           ret (HTTP_STATUS.OK, Some cacheCleared)
       end) w
    with
    | (Ok r, w') => (r, w')
    | (Throw _, w') => ((HTTP_STATUS.INTERNAL_SERVER_ERROR, None), w')
    end.

(** [getSearchSuggestions(req, res)]: the status code and the data of the
    response. [limit] is the validated number, 5 when absent;
    [query.substring] of the log line throws for a request without [q]. *)
Definition getSearchSuggestions (documentId : string) (query : option string)
  (limit : option Z) : World -> (nat * option Suggestions) * World :=
  fun w =>
    match
      (match query with
       | None =>
           throw (Error "Cannot read properties of undefined (reading 'substring')")
       | Some query =>
           SearchService.searchSuggestions documentId (Some query) (default 5%Z limit)
       end) w
    with
    | (Ok s, w') => ((HTTP_STATUS.OK, Some s), w')
    | (Throw _, w') => ((HTTP_STATUS.INTERNAL_SERVER_ERROR, None), w')
    end.

Definition success (results : SearchResponse) : Response :=
  {| res_status := HTTP_STATUS.OK; res_success := true; res_error := None;
     res_data := Some results |}.

(** The options of [searchByContentType]: [limit = 20] and [offset = 0]
    when absent, the type of the route, and nothing else. *)
Definition contentTypeOptions (type : string) (limit offset : option Z)
  : SearchOptions :=
  {| so_limit := Num (default 20%Z limit);
     so_offset := Num (default 0%Z offset);
     so_type := Some type;
     so_page := NUndefined;
     so_minConfidence := NUndefined;
     so_sortBy := None;
     so_sortOrder := None;
     so_highlight := false |}.

(** [searchByContentType(req, res)]: every error is answered alike. *)
Definition searchByContentType (documentId type : string) (query : option string)
  (limit offset : option Z) : World -> Response * World :=
  fun w =>
    match
      (match query with
       | None =>
           throw (Error "Cannot read properties of undefined (reading 'substring')")
       | Some query =>
           SearchService.searchDocument documentId (Some query)
             (contentTypeOptions type limit offset)
       end) w
    with
    | (Ok results, w') => (success results, w')
    | (Throw _, w') =>
        (failure HTTP_STATUS.INTERNAL_SERVER_ERROR "Content type search failed", w')
    end.

(** The options of [searchDocumentPage]: [type || undefined]. *)
Definition pageOptions (page : Z) (type : option string) (limit : option Z)
  : SearchOptions :=
  {| so_limit := Num (default 20%Z limit);
     so_offset := NUndefined;
     so_type := match type with
                | Some t => if Js.truthy t then Some t else None
                | None => None
                end;
     so_page := Num page;
     so_minConfidence := NUndefined;
     so_sortBy := None;
     so_sortOrder := None;
     so_highlight := false |}.

(** [searchDocumentPage(req, res)]; [pageNumber] is what [parseInt] reads
    from the route, [None] for NaN. *)
Definition searchDocumentPage (documentId : string) (pageNumber : option Z)
  (query : option string) (type : option string) (limit : option Z)
  : World -> Response * World :=
  fun w =>
    match pageNumber with
    | None => (failure HTTP_STATUS.BAD_REQUEST "Invalid page number", w)
    | Some page =>
        if (page <? 1)%Z
        then (failure HTTP_STATUS.BAD_REQUEST "Invalid page number", w)
        else
          match
            (match query with
             | None =>
                 throw (Error "Cannot read properties of undefined (reading 'substring')")
             | Some query =>
                 SearchService.searchDocument documentId (Some query)
                   (pageOptions page type limit)
             end) w
          with
          | (Ok results, w') => (success results, w')
          | (Throw _, w') =>
              (failure HTTP_STATUS.INTERNAL_SERVER_ERROR "Page search failed", w')
          end
    end.

(** The options [{ limit: 5 }]. *)
Definition testOptions : SearchOptions :=
  {| so_limit := Num 5; so_offset := NUndefined; so_type := None;
     so_page := NUndefined; so_minConfidence := NUndefined;
     so_sortBy := None; so_sortOrder := None; so_highlight := false |}.

(** [testSearch(req, res)]: an error of the search is answered by
    [res.json], with the status 200 of a response that sets none. *)
Definition testSearch (documentId : string) (testQuery : option string)
  : World -> TestReply * World :=
  fun w =>
    let testQuery := Js.orStr testQuery "test" in
    match
      (let! found := Document.findById documentId in
       match found with
       | None =>
           ret {| tr_status := HTTP_STATUS.NOT_FOUND; tr_success := false;
                  tr_searchWorking := None; tr_resultsFound := None;
                  tr_error := Some "Document not found" |}
       | Some document =>
           if negb (bool_decide (processingStatus document = COMPLETED)) then
             ret {| tr_status := HTTP_STATUS.UNPROCESSABLE_ENTITY; tr_success := false;
                    tr_searchWorking := None; tr_resultsFound := None;
                    tr_error := Some (message (SearchService.notReady
                                                 (processingStatus document))) |}
           else
             let! results :=
               SearchService.searchDocument documentId (Some testQuery) testOptions in
             ret {| tr_status := HTTP_STATUS.OK; tr_success := true;
                    tr_searchWorking := Some true;
                    tr_resultsFound := Some (length (ir_hits (sr_results results)));
                    tr_error := None |}
       end) w
    with
    | (Ok reply, w') => (reply, w')
    | (Throw error, w') =>
        ({| tr_status := HTTP_STATUS.OK; tr_success := false;
            tr_searchWorking := Some false; tr_resultsFound := None;
            tr_error := Some (message error) |}, w')
    end.

End SearchController.

(** ** utils/validators.js: the sanitization helpers *)

Module Validators.

(** [[<>]] *)
Definition angle (c : ascii) : bool := Js.oneOf [60; 62] c.

Definition sanitizeString (s : string) : string :=
  Js.str (List.filter (fun c => negb (angle c)) (Js.chars (Js.trim s))).

Definition sanitizeSearchQuery (query : string) : string :=
  Js.substring0 200
    (Js.str
       (Js.replaceRuns Js.isSpace [Js.space] false
          (List.filter (fun c => negb (angle c)) (Js.chars (Js.trim query))))).

End Validators.

(** ** middleware/auth.js *)

Module Auth.

(** What the middleware does with a request: [next()], or a response. *)
Inductive Outcome : Set :=
| Next
| Denied (status : nat) (error : string).

(** [authenticate(req, res, next)]: the header [X-API-Key], the query
    parameter [apiKey] and [process.env.API_KEY]. *)
Definition authenticate (header queryKey API_KEY : option string) : Outcome :=
  let apiKey :=
    match header with
    | Some h => if Js.truthy h then Some h else queryKey
    | None => queryKey
    end in
  match apiKey with
  | None => Denied HTTP_STATUS.UNAUTHORIZED "API key required"
  | Some key =>
      if negb (Js.truthy key) then Denied HTTP_STATUS.UNAUTHORIZED "API key required"
      else if negb (bool_decide (Some key = API_KEY))
      then Denied HTTP_STATUS.UNAUTHORIZED "Invalid API key"
      else Next
  end.

End Auth.

(** ** database/migrate.js *)

Module Migrate.

(** The statements [migrate] runs one by one:
    [schema.split(';').filter(s => s.trim().length > 0).map(s => s.trim() + ';')]. *)
Definition statements (schema : string) : list string :=
  map (fun statement => Js.trim statement +:+ ";")
      (List.filter (fun statement => 0 <? String.length (Js.trim statement))
         (map Js.str (Js.splitEach (Js.oneOf [59]) [] (Js.chars schema)))).

(** The last statement of schema.sql, with the comment above it. *)
Definition trigger : string :=
  "-- Trigger to update updated_at timestamp" +:+ ETLService.nl +:+
  "CREATE TRIGGER IF NOT EXISTS update_documents_timestamp " +:+ ETLService.nl +:+
  "    AFTER UPDATE ON documents" +:+ ETLService.nl +:+
  "    FOR EACH ROW" +:+ ETLService.nl +:+
  "    BEGIN" +:+ ETLService.nl +:+
  "        UPDATE documents SET updated_at = CURRENT_TIMESTAMP WHERE id = NEW.id;" +:+
  ETLService.nl +:+
  "    END;".

End Migrate.

(** ** A small world to run the code in *)

Module Demo.

(** A server that answers every search with all the documents of the index. *)
Definition allHits (docs : list SearchDocument) (query : string)
  (options : MeiliOptions) : MeiliResults :=
  {| hits := docs; estimatedTotalHits := length docs; nbHits := None |}.

Definition doc (docId : string) (status : DOCUMENT_STATUS) : DocumentData :=
  {| id := docId; filename := "f.pdf"; originalName := "report.pdf";
     fileSize := 1024; mimeType := "application/pdf";
     uploadTime := "2025-01-01T00:00:00.000Z";
     processingStatus := status; processingError := None;
     totalPages := 0; totalChunks := 0; uploadPath := None |}.

(** One pending document [D], no chunk, no index, an empty cache. *)
Definition world (fk up : bool) : World :=
  {| db := {| foreign_keys := fk;
              documents := {[ "D" := doc "D" PENDING ]};
              chunks := [] |};
     meili := {| meili_up := up; isConnected := up; indexes := ∅;
                 queries := []; engine := allHits |};
     redis := {| redis_isConnected := true; entries := ∅; clock := 0 |};
     recognize := fun _ => Ok {| ocr_text := "text of the image";
                                 ocr_confidence_value := 90 |};
     fresh := 0;
     progress := [] |}.

Definition paragraph (text : string) (page : Z) : Paragraph :=
  {| p_content := Some text; p_text := None; p_pageNumber := Some page;
     p_page := None; p_position := None; p_bbox := None |}.

Definition job (jobId : string) (pd : ParsedData) (made : nat) : Job :=
  {| job_id := jobId; job_documentId := Some "D"; job_parsedData := Some pd;
     attemptsMade := made; attempts := 3 |}.

Definition fox : ParsedData :=
  {| paragraphs := Some [paragraph "The quick brown fox jumps over the lazy dog" 5];
     images := None; tables := None |}.

Definition nothing : ParsedData :=
  {| paragraphs := Some []; images := Some []; tables := Some [] |}.

(** The world after the first job of [D] ran. *)
Definition afterFirstRun (fk : bool) : World :=
  snd (ProcessDocumentJob.processDocumentJob (job "j1" fox 0) (world fk true)).

(** Then a reprocess request: its response, the job it queues, the world. *)
Definition reprocessed (fk : bool) : Result (nat * option Job) * World :=
  DocumentController.reprocessDocument None "D" (afterFirstRun fk).

(** Then the run of the job the request queued. *)
Definition afterReprocess (fk : bool) : World :=
  match reprocessed fk with
  | (Ok (_, Some job2), w2) => snd (ProcessDocumentJob.processDocumentJob job2 w2)
  | (_, w2) => w2
  end.

(** Or, after the request, the run of a job whose parsed data is empty. *)
Definition afterEmptyRerun (fk : bool) : World :=
  snd (ProcessDocumentJob.processDocumentJob (job "j2" nothing 0) (snd (reprocessed fk))).

Definition options : SearchOptions :=
  {| so_limit := Num 20; so_offset := Num 0; so_type := None; so_page := NNull;
     so_minConfidence := NNull; so_sortBy := None; so_sortOrder := Some "desc";
     so_highlight := true |}.

(** A server that honours a filter by finding nothing, and answers a
    search without a filter with all the documents of the index. *)
Definition filteredHits (docs : list SearchDocument) (query : string)
  (options : MeiliOptions) : MeiliResults :=
  match mo_filter options with
  | Some _ => {| hits := []; estimatedTotalHits := 0; nbHits := None |}
  | None => {| hits := docs; estimatedTotalHits := length docs; nbHits := None |}
  end.

(** The number of hits of a search that returned. *)
Definition hitCount (r : Result SearchResponse) : option nat :=
  match r with
  | Ok response => Some (length (ir_hits (sr_results response)))
  | Throw _ => None
  end.

(** The world after the first run, with that server. *)
Definition filteredWorld : World :=
  let w := afterFirstRun false in
  let m := meili w in
  with_meili w {| meili_up := meili_up m; isConnected := isConnected m;
                  indexes := indexes m; queries := queries m;
                  engine := filteredHits |}.

(** The world after the first run and one search for "fox". *)
Definition afterSearch : World :=
  snd (SearchService.searchDocument "D" (Some "fox") options (afterFirstRun false)).

End Demo.

(** * The vocabulary of the properties *)

(** Unfolds the combinators of the monad in the goal and the hypotheses. *)
Ltac run :=
  cbv beta iota zeta delta
    [bind ret throw throwIf tryCatch get] in *.

(** ** A Hoare logic for the monad *)

(** [triple P m Q E]: from a world in [P], [m] ends in a world in [Q a]
    when it returns [a] and in a world in [E e] when it throws [e]. *)
Definition triple {A : Type} (P : World -> Prop) (m : M A)
  (Q : A -> World -> Prop) (E : JsError -> World -> Prop) : Prop :=
  forall w, P w ->
    match m w with
    | (Ok a, w') => Q a w'
    | (Throw e, w') => E e w'
    end.

(** [m] keeps the invariant [I], however it ends, and its value is in [Q]. *)
Definition keeps {A : Type} (I : World -> Prop) (m : M A) (Q : A -> Prop) : Prop :=
  triple I m (fun a w => I w /\ Q a) (fun _ w => I w).

(** [m] returns, and what it returns is in [Q]. *)
Definition returns {A : Type} (m : M A) (Q : A -> Prop) : Prop :=
  forall w, exists a w', m w = (Ok a, w') /\ Q a.

(** [m] leaves the database as it was. *)
Definition dbFrame {A : Type} (m : M A) : Prop :=
  forall w, db (snd (m w)) = db w.

(** [I] speaks of the database only. *)
Definition ofDb (I : World -> Prop) : Prop :=
  forall w w', db w = db w' -> I w -> I w'.

(** ** Requests and jobs *)

(** A document id as the router hands it on: not empty. *)
Definition validId (documentId : string) : Prop := documentId <> EmptyString.

(** A job as the queue delivers it after an upload or a reprocess request:
    it names its document and carries parsed data. *)
Definition wellFormed (job : Job) (documentId : string) : Prop :=
  job_documentId job = Some documentId /\ validId documentId /\
  is_Some (job_parsedData job).

(** The queries [searchSuggestions] answers without a search. *)
Definition shortOrAbsent (query : option string) : Prop :=
  match query with
  | None => True
  | Some query => String.length query < 2
  end.

(** The options with another minimum confidence. *)
Definition withMinConfidence (v : JsNumber) (options : SearchOptions) : SearchOptions :=
  {| so_limit := so_limit options; so_offset := so_offset options;
     so_type := so_type options; so_page := so_page options;
     so_minConfidence := v;
     so_sortBy := so_sortBy options; so_sortOrder := so_sortOrder options;
     so_highlight := so_highlight options |}.

(** ** Chunks and rows *)

(** The minimum length of the content of a chunk, by kind. *)
Definition minimumLength (t : CONTENT_TYPES) : nat :=
  match t with
  | PARAGRAPH => 10
  | IMAGE => 6
  | TABLE => 10
  end.

Definition meetsMinimum (c : Chunk) : Prop :=
  minimumLength (chunk_type c) <= String.length (content c).

Definition rowMeetsMinimum (r : ChunkRow) : Prop :=
  minimumLength (row_type r) <= String.length (row_content r).

(** Every chunk row of the database has content of the minimum length. *)
Definition rowsMeetMinimum (w : World) : Prop :=
  Forall rowMeetsMinimum (chunks (db w)).

(** The page number of the chunk is a truthy number. *)
Definition pageSet (c : Chunk) : Prop := pageNumber c <> 0%Z.

(** ** Documents *)

Definition hasRow (documentId : string) (w : World) : Prop :=
  is_Some (documents (db w) !! documentId).

(** The row of the document has this status and this error. *)
Definition statusIs (documentId : string) (s : DOCUMENT_STATUS)
  (e : option string) (w : World) : Prop :=
  exists d, documents (db w) !! documentId = Some d /\
            processingStatus d = s /\ processingError d = e.

(** The largest page number of the rows, 0 for none. *)
Definition maxPage (rows : list ChunkRow) : Z :=
  match map page_number rows with
  | [] => 0
  | n :: rest => fold_left Z.max rest n
  end.

(** The totals of the document describe its chunk rows. *)
Definition totalsMatch (documentId : string) (w : World) : Prop :=
  exists d, documents (db w) !! documentId = Some d /\
            totalChunks d = length (Document.chunkRows documentId w) /\
            totalPages d = maxPage (Document.chunkRows documentId w).

(** The document has a row whose [totalChunks] counts its chunk rows and
    whose [totalPages] is [pages]. *)
Definition countedWith (documentId : string) (pages : Z) (w : World) : Prop :=
  exists d, documents (db w) !! documentId = Some d /\
            totalChunks d = length (Document.chunkRows documentId w) /\
            totalPages d = pages.

(** The rows of the table are absent or an array, so that
    [extractTableStructure] returns. *)
Definition structured (t : Table) : bool :=
  match t_rows t with
  | Some RowsOther => false
  | _ => true
  end.

(** The document has a row and no chunk row. *)
Definition freshDocument (documentId : string) (w : World) : Prop :=
  hasRow documentId w /\ Document.chunkRows documentId w = [].

(** A fact about every character is checked on the 256 of them. *)
Ltac by_ascii c :=
  destruct c as [[] [] [] [] [] [] [] []]; vm_compute; try reflexivity;
  try discriminate; try (intros; congruence); try tauto.

(** ** Texts *)

(** No two neighbours in the list are both of the class. *)
Definition apart (p : ascii -> bool) (l : list ascii) : Prop :=
  forall l1 a b l2, l = l1 ++ a :: b :: l2 -> p a && p b = false.

(** The list neither starts nor ends with white space. *)
Definition trimmed (l : list ascii) : Prop :=
  Js.dropWhile Js.isSpace l = l /\ Js.dropWhile Js.isSpace (rev l) = rev l.

(** White space is the space character only. *)
Definition plainSpace (c : ascii) : Prop := Js.isSpace c = true -> c = Js.space.

(** A character of a cleaned query: one that [cleanSearchQuery] keeps, in
    lower case, and of white space the space only. *)
Definition queryChar (c : ascii) : Prop :=
  SearchService.keptInQuery c = true /\ Js.toLowerChar c = c /\ plainSpace c.

(** ** Chunks by page and by confidence *)

(** The chunks that count for the page: [chunk.pageNumber || 1]. *)
Definition onPage (page : Z) (chunks : list Chunk) : list Chunk :=
  List.filter (fun c => (Js.orNum (Some (pageNumber c)) 1 =? page)%Z) chunks.

(** The chunks that carry an OCR confidence. *)
Definition confident (chunks : list Chunk) : list Chunk :=
  List.filter (fun c => bool_decide (is_Some (ocrConfidence c))) chunks.

(** ** What the extraction accepts *)

(** The texts of at least ten characters. *)
Definition longEnough (texts : list string) : list string :=
  List.filter (fun s => 10 <=? String.length s) texts.

(** The cleaned texts of the paragraphs that give a chunk, in their order. *)
Definition paragraphContents (parsedData : ParsedData) : list string :=
  longEnough (map (fun p => ETLService.cleanText (ETLService.paragraphText p))
                  (default [] (paragraphs parsedData))).

(** The texts of the tables that give a chunk, in their order: the texts
    that are long enough, of the tables whose rows are absent or an array
    (the other tables are dropped when [extractTableStructure] throws). *)
Definition tableContents (parsedData : ParsedData) : list string :=
  longEnough (map ETLService.convertTableToText
                  (List.filter structured (default [] (tables parsedData)))).

(** A chunk as the extraction makes it: on a page that is not 0, without
    a confidence, its text trimmed, and its metadata describing the text. *)
Definition wellFormedChunk (c : Chunk) : Prop :=
  pageNumber c <> 0%Z /\ ocrConfidence c = None /\
  trimmed (Js.chars (content c)) /\
  match metadata c with
  | ParagraphMeta originalLength cleanedLength features =>
      chunk_type c = PARAGRAPH /\
      cleanedLength = String.length (content c) /\
      cleanedLength <= originalLength /\
      (characterCount <$> features) = Some cleanedLength
  | TableMeta rowCount columnCount features =>
      chunk_type c = TABLE /\
      (characterCount <$> features) = Some (String.length (content c))
  | ImageMeta _ _ _ => False
  end.

(** The chunk rows of the document a run starts from: with foreign keys
    on, the [INSERT OR REPLACE] of [save] takes the earlier rows away. *)
Definition earlierRows (documentId : string) (w : World) : list ChunkRow :=
  if foreign_keys (db w) then [] else Document.chunkRows documentId w.

(** What a loop of the extraction returns: one chunk of the kind for
    every text that is long enough, in the order of the records. *)
Definition extracted (kind : CONTENT_TYPES) (texts : list string)
  (cs : list Chunk) : Prop :=
  map content cs = longEnough texts /\
  Forall (fun c => chunk_type c = kind /\ wellFormedChunk c) cs.

(** The chunk rows of the document are those the run started with (in
    the world [w0]) and after them a row for each of the chunks. *)
Definition storedAfter (documentId : string) (w0 : World) (cs : list Chunk)
  (w : World) : Prop :=
  exists new,
    Document.chunkRows documentId w = earlierRows documentId w0 ++ new /\
    map row_content new = map content cs /\
    map page_number new = map pageNumber cs.

(** The row of the document has the status and no error, its
    [totalPages] is that of the chunks, and its [totalChunks] counts the
    chunk rows of the document if the run stored a chunk. *)
Definition rowAfter (documentId : string) (cs : list Chunk)
  (status : DOCUMENT_STATUS) (w : World) : Prop :=
  exists d,
    documents (db w) !! documentId = Some d /\
    processingStatus d = status /\ processingError d = None /\
    totalPages d = ETLService.calculateTotalPages cs /\
    (cs <> [] -> totalChunks d = length (Document.chunkRows documentId w)).

(** ** Searches and suggestions *)

(** The key under which the response to a search is cached. *)
Definition cacheKeyOf (documentId query : string) (options : SearchOptions)
  : string :=
  SearchService.generateCacheKey documentId
    (SearchService.cleanSearchQuery query) options.

(** A digit, a lower-case letter or the underscore. *)
Definition lowerWord (c : ascii) : Prop :=
  Js.isWord c = true /\ Js.isUpper c = false.

(** What a suggestion for the query is: longer than two characters, made
    of digits, lower-case letters and underscores, and starting with the
    lower-cased query or holding one of its words. *)
Definition suggested (query word : string) : Prop :=
  2 < String.length word /\
  Forall lowerWord (Js.chars word) /\
  Js.startsWith word (Js.toLowerCase query) ||
    existsb (fun qw => Js.includes word qw)
      (Js.split Js.isSpace (Js.toLowerCase query)) = true.

(** ** The totals after a run on a document that had chunks *)

(** What a run leaves of the document, for the texts it accepted and the
    count [before] the row held when the run started: a chunk row for
    each text, [totalPages] the largest page among the rows, and of
    [totalChunks] the number of the rows if a text was accepted, and the
    count from before the run if none was. *)
Definition totalsAfter (documentId : string) (before : nat)
  (accepted : list string) (w : World) : Prop :=
  exists d,
    documents (db w) !! documentId = Some d /\
    length (Document.chunkRows documentId w) = length accepted /\
    totalPages d = maxPage (Document.chunkRows documentId w) /\
    totalChunks d = match accepted with
                    | [] => before
                    | _ :: _ => length (Document.chunkRows documentId w)
                    end.

(** * Properties *)

(** ** The rules of the logic *)

Lemma triple_ret {A : Type} (P : World -> Prop) (a : A) Q E :
  (forall w, P w -> Q a w) -> triple P (ret a) Q E.
Proof. intros H w Hw. cbn. auto. Qed.

Lemma triple_throw {A : Type} (P : World -> Prop) (e : JsError)
  (Q : A -> World -> Prop) E :
  (forall w, P w -> E e w) -> triple P (throw e) Q E.
Proof. intros H w Hw. cbn. auto. Qed.

Lemma triple_weaken {A : Type} (P P' : World -> Prop) (m : M A) (Q Q' : A -> World -> Prop)
  (E E' : JsError -> World -> Prop) :
  triple P m Q E ->
  (forall w, P' w -> P w) ->
  (forall a w, Q a w -> Q' a w) ->
  (forall e w, E e w -> E' e w) ->
  triple P' m Q' E'.
Proof.
  intros H HP HQ HE w Hw. specialize (H w (HP w Hw)).
  destruct (m w) as [[a | e] w']; auto.
Qed.

Lemma triple_tryCatch {A : Type} (P : World -> Prop) (m : M A) (h : JsError -> M A)
  (Q : A -> World -> Prop) (E' E : JsError -> World -> Prop) :
  triple P m Q E' ->
  (forall e, triple (E' e) (h e) Q E) ->
  triple P (tryCatch m h) Q E.
Proof.
  intros Hm Hh w Hw. unfold tryCatch. specialize (Hm w Hw).
  destruct (m w) as [[a | e] w']; [exact Hm |]. exact (Hh e w' Hm).
Qed.

Lemma triple_bind {A B : Type} (P : World -> Prop) (m : M A) (k : A -> M B)
  (R : A -> World -> Prop) (Q : B -> World -> Prop) (E : JsError -> World -> Prop) :
  triple P m R E ->
  (forall a, triple (R a) (k a) Q E) ->
  triple P (bind m k) Q E.
Proof.
  intros Hm Hk w Hw. unfold bind. specialize (Hm w Hw).
  destruct (m w) as [[a | e] w']; [| exact Hm]. exact (Hk a w' Hm).
Qed.

Lemma triple_pure {A : Type} (phi : Prop) (P : World -> Prop) (m : M A) Q E :
  (phi -> triple P m Q E) -> triple (fun w => phi /\ P w) m Q E.
Proof. intros H w [Hphi Hw]. exact (H Hphi w Hw). Qed.

Lemma keeps_ret {A : Type} (I : World -> Prop) (a : A) (Q : A -> Prop) :
  Q a -> keeps I (ret a) Q.
Proof. intros H. apply triple_ret. auto. Qed.

Lemma keeps_throw {A : Type} (I : World -> Prop) (e : JsError) (Q : A -> Prop) :
  keeps I (throw e) Q.
Proof. apply triple_throw. auto. Qed.

Lemma keeps_bind {A B : Type} (I : World -> Prop) (m : M A) (k : A -> M B)
  (R : A -> Prop) (Q : B -> Prop) :
  keeps I m R -> (forall a, R a -> keeps I (k a) Q) -> keeps I (bind m k) Q.
Proof.
  intros Hm Hk. apply triple_bind with (R := fun a w => I w /\ R a); [exact Hm |].
  intros a w [Hw Ha]. exact (Hk a Ha w Hw).
Qed.

Lemma keeps_tryCatch {A : Type} (I : World -> Prop) (m : M A) (h : JsError -> M A)
  (Q : A -> Prop) :
  keeps I m Q -> (forall e, keeps I (h e) Q) -> keeps I (tryCatch m h) Q.
Proof.
  intros Hm Hh. apply triple_tryCatch with (E' := fun _ w => I w); [exact Hm |].
  exact Hh.
Qed.

Lemma keeps_triple {A : Type} (I : World -> Prop) (m : M A) :
  keeps I m (fun _ => True) -> triple I m (fun _ w => I w) (fun _ w => I w).
Proof.
  intros H. eapply triple_weaken; [exact H | auto | | auto].
  intros a w [Hw _]. exact Hw.
Qed.

Lemma returns_ret {A : Type} (a : A) (Q : A -> Prop) : Q a -> returns (ret a) Q.
Proof. intros H w. exists a, w. auto. Qed.

Lemma returns_bind {A B : Type} (m : M A) (k : A -> M B) (R : A -> Prop)
  (Q : B -> Prop) :
  returns m R -> (forall a, R a -> returns (k a) Q) -> returns (bind m k) Q.
Proof.
  intros Hm Hk w. destruct (Hm w) as (a & w' & Hrun & Ha).
  destruct (Hk a Ha w') as (b & w'' & Hrun' & Hb).
  exists b, w''. unfold bind. rewrite Hrun. auto.
Qed.

Lemma returns_tryCatch {A : Type} (m : M A) (h : JsError -> M A) (Q : A -> Prop) :
  returns m Q -> returns (tryCatch m h) Q.
Proof.
  intros Hm w. destruct (Hm w) as (a & w' & Hrun & Ha).
  exists a, w'. unfold tryCatch. rewrite Hrun. auto.
Qed.

Lemma returns_freshName (prefix : string) : returns (freshName prefix) (fun _ => True).
Proof. intros w. eexists _, _. split; [reflexivity | exact I]. Qed.

Lemma returns_keeps {A : Type} (I : World -> Prop) (m : M A) (Q : A -> Prop) :
  returns m Q -> keeps I m (fun _ => True) -> keeps I m Q.
Proof.
  intros Hr Hk w Hw. specialize (Hk w Hw).
  destruct (Hr w) as (a & w' & Hrun & Ha). rewrite Hrun in *. tauto.
Qed.

Lemma dbFrame_keeps {A : Type} (I : World -> Prop) (m : M A) :
  ofDb I -> dbFrame m -> keeps I m (fun _ => True).
Proof.
  intros HI Hm w Hw. specialize (Hm w).
  destruct (m w) as [[a | e] w']; cbn in Hm.
  - split; [| exact Logic.I]. apply (HI w); auto.
  - apply (HI w); auto.
Qed.

Lemma returns_frame_triple {A : Type} (P : World -> Prop) (m : M A) (Q : A -> Prop) :
  ofDb P -> dbFrame m -> returns m Q ->
  triple P m (fun a w => P w /\ Q a) (fun _ _ => False).
Proof.
  intros HP Hm Hr w Hw. specialize (Hm w).
  destruct (Hr w) as (a & w' & Hrun & Ha). rewrite Hrun in *. cbn in Hm.
  split; [| exact Ha]. apply (HP w); auto.
Qed.

(** ** Methods that leave the database alone *)

Lemma dbFrame_ret {A : Type} (a : A) : dbFrame (ret a).
Proof. intros w. reflexivity. Qed.

Lemma dbFrame_throw {A : Type} (e : JsError) : dbFrame (@throw A e).
Proof. intros w. reflexivity. Qed.

Lemma dbFrame_bind {A B : Type} (m : M A) (k : A -> M B) :
  dbFrame m -> (forall a, dbFrame (k a)) -> dbFrame (bind m k).
Proof.
  intros Hm Hk w. unfold bind. specialize (Hm w).
  destruct (m w) as [[a | e] w']; cbn in Hm; [| exact Hm].
  rewrite (Hk a w'). exact Hm.
Qed.

Lemma dbFrame_tryCatch {A : Type} (m : M A) (h : JsError -> M A) :
  dbFrame m -> (forall e, dbFrame (h e)) -> dbFrame (tryCatch m h).
Proof.
  intros Hm Hh w. unfold tryCatch. specialize (Hm w).
  destruct (m w) as [[a | e] w']; cbn in Hm; [exact Hm |].
  rewrite (Hh e w'). exact Hm.
Qed.

Lemma dbFrame_freshName (prefix : string) : dbFrame (freshName prefix).
Proof. intros w. reflexivity. Qed.

Lemma dbFrame_get : dbFrame get.
Proof. intros w. reflexivity. Qed.

Create HintDb frame.

#[export] Hint Resolve dbFrame_ret dbFrame_throw dbFrame_freshName dbFrame_get
  dbFrame_bind dbFrame_tryCatch : frame.

#[export] Hint Extern 1 (dbFrame (let _ := _ in _)) => cbv zeta : frame.

#[export] Hint Extern 2 (dbFrame (match ?x with _ => _ end)) => destruct x : frame.

#[export] Hint Extern 2 (dbFrame (throwIf ?b _)) => unfold throwIf : frame.

#[export] Hint Extern 3 (dbFrame (fun w => _)) =>
  (let w := fresh "w" in intros w; cbn; reflexivity) : frame.

Lemma dbFrame_processParagraphs (ps : list Paragraph) :
  dbFrame (ETLService.processParagraphs ps).
Proof.
  induction ps as [| p rest IH]; cbn [ETLService.processParagraphs];
    unfold ETLService.generateChunkId; auto 30 with frame.
Qed.

Lemma dbFrame_processImage (image : Image) : dbFrame (ETLService.processImage image).
Proof.
  unfold ETLService.processImage, ETLService.generateChunkId,
    OCRService.processImage. auto 30 with frame.
Qed.

#[export] Hint Resolve dbFrame_processImage : frame.

Lemma dbFrame_processImages (imgs : list Image) :
  dbFrame (ETLService.processImages imgs).
Proof.
  induction imgs as [| image rest IH]; cbn [ETLService.processImages]; auto 30 with frame.
Qed.

Lemma dbFrame_processTables (ts : list Table) :
  dbFrame (ETLService.processTables ts).
Proof.
  induction ts as [| t rest IH]; cbn [ETLService.processTables];
    unfold ETLService.processTable, ETLService.generateChunkId,
      ETLService.extractTableStructure;
    auto 40 with frame.
Qed.

#[export] Hint Resolve dbFrame_processParagraphs dbFrame_processImages
  dbFrame_processTables : frame.

Lemma dbFrame_extract (pd : ParsedData) :
  dbFrame (ETLService.extractAndProcessContent pd).
Proof. unfold ETLService.extractAndProcessContent. auto 30 with frame. Qed.

#[export] Hint Resolve dbFrame_extract : frame.

Lemma dbFrame_request : dbFrame MeiliSearchClient.request.
Proof. intros w. unfold MeiliSearchClient.request. destruct (meili_up _); reflexivity. Qed.

Lemma dbFrame_requireConnected : dbFrame MeiliSearchClient.requireConnected.
Proof.
  intros w. unfold MeiliSearchClient.requireConnected.
  destruct (isConnected _); reflexivity.
Qed.

Lemma dbFrame_setConnected (b : bool) : dbFrame (MeiliSearchClient.setConnected b).
Proof. intros w. reflexivity. Qed.

Lemma dbFrame_setIndexes f : dbFrame (MeiliSearchClient.setIndexes f).
Proof. intros w. reflexivity. Qed.

Lemma dbFrame_logQuery (indexName query : string) :
  dbFrame (MeiliSearchClient.logQuery indexName query).
Proof. intros w. reflexivity. Qed.

Lemma dbFrame_isHealthy : dbFrame MeiliSearchClient.isHealthy.
Proof. intros w. reflexivity. Qed.

#[export] Hint Resolve dbFrame_request dbFrame_requireConnected
  dbFrame_setConnected dbFrame_setIndexes dbFrame_logQuery dbFrame_isHealthy : frame.

Lemma dbFrame_createDocumentIndex (documentId : string) :
  dbFrame (IndexService.createDocumentIndex documentId).
Proof.
  unfold IndexService.createDocumentIndex, MeiliSearchClient.connect,
    MeiliSearchClient.createIndex, MeiliSearchClient.configureIndex,
    MeiliSearchClient.serverCreateIndex.
  auto 40 with frame.
Qed.

Lemma dbFrame_indexDocumentChunks (documentId : string) (cs : list Chunk) :
  dbFrame (IndexService.indexDocumentChunks documentId cs).
Proof.
  unfold IndexService.indexDocumentChunks, MeiliSearchClient.addDocuments.
  auto 30 with frame.
Qed.

#[export] Hint Resolve dbFrame_createDocumentIndex dbFrame_indexDocumentChunks : frame.

(** ** The embedding on examples *)

Example cleanText_example :
  ETLService.cleanText "  Hello,,   World!?  <b>x</b> ...  " = "Hello, World? bx/b .".
Proof. vm_compute. reflexivity. Qed.

Example cleanSearchQuery_example :
  SearchService.cleanSearchQuery "  Hello,   World! it's  " = "hello world it's".
Proof. vm_compute. reflexivity. Qed.

Example convertTableToText_example :
  ETLService.convertTableToText
    {| t_headers := Some ["A"; "B"]; t_rows := Some (RowList [RowArray ["1"; "2"]]);
       t_caption := None; t_pageNumber := Some 2%Z; t_page := None;
       t_position := None; t_bbox := None |}
  = "Headers: A, B" +:+ ETLService.nl +:+ "Row 1: 1, 2".
Proof. vm_compute. reflexivity. Qed.

Example generateCacheKey_example :
  SearchService.generateCacheKey "D" "fox" Demo.options
  = "search:D:Zm94:eyJsaW1pdCI6MjAsIm9mZnNldCI6MCwicGFnZSI6bnVsbCwic29ydE9yZGVyIjoiZGVzYyJ9".
Proof. vm_compute. reflexivity. Qed.

Example extractSuggestions_example :
  SearchService.extractSuggestions
    [ {| sd_id := "a"; sd_documentId := "D"; sd_type := PARAGRAPH;
         sd_content := "The quick brown fox, foxes and Foxtrot.";
         sd_pageNumber := 1; sd_position := []; sd_ocrConfidence := None;
         sd_metadata := ParagraphMeta 0 0 None; sd_wordCount := 0;
         sd_contentLength := 0 |} ] "fox"
  = ["fox"; "foxes"; "foxtrot"].
Proof. vm_compute. reflexivity. Qed.

(** The scenario of the specification: a paragraph on page 1 and a table
    on page 2 give two chunks, two pages and a completed document, with
    foreign keys on or off. *)
Example two_chunk_scenario (fk : bool) :
  let parsedData :=
    {| paragraphs := Some [Demo.paragraph "The quick brown fox jumps over the lazy dog" 1];
       images := None;
       tables := Some [ {| t_headers := Some ["A"; "B"];
                           t_rows := Some (RowList [RowArray ["1"; "2"]]);
                           t_caption := None; t_pageNumber := Some 2%Z;
                           t_page := None; t_position := None; t_bbox := None |} ] |} in
  let w := snd (ProcessDocumentJob.processDocumentJob (Demo.job "j1" parsedData 0)
                  (Demo.world fk true)) in
  documents (db w) !! "D"
    = Some (Document.setTotalChunks 2 (Document.setTotalPages 2 (Demo.doc "D" COMPLETED))) /\
  map row_type (Document.chunkRows "D" w) = [PARAGRAPH; TABLE] /\
  (map sd_type <$> indexes (meili w) !! "pdf_search_D") = Some [PARAGRAPH; TABLE].
Proof. destruct fk; vm_compute; repeat split. Qed.

(** ** Text features *)

Lemma roundDiv_nearest (a b : nat) :
  0 < b ->
  2 * b * Js.roundDiv a b <= 2 * a + b /\ 2 * a < 2 * b * Js.roundDiv a b + b.
Proof.
  intros Hb. unfold Js.roundDiv.
  pose proof (Nat.div_mod_eq (2 * a + b) (2 * b)) as Hdiv.
  pose proof (Nat.mod_upper_bound (2 * a + b) (2 * b)) as Hmod.
  lia.
Qed.

(** A text without a word and without a sentence: no division by zero. *)
Example features_without_sentence :
  ETLService.extractTextFeatures "..." =
  Some {| wordCount := 0; sentenceCount := 0; characterCount := 3;
          avgWordsPerSentence := 0; containsNumbers := false;
          containsCapitals := false; language := "en" |}.
Proof. vm_compute. reflexivity. Qed.

(** C9, as the specification states it, fails: three words in two
    sentences average to 2, where the quotient rounded down is 1. *)
Lemma avg_words_not_rounded_down :
  exists f, ETLService.extractTextFeatures "a b. c" = Some f /\
            wordCount f = 3 /\ sentenceCount f = 2 /\
            wordCount f / sentenceCount f = 1 /\
            avgWordsPerSentence f = 2.
Proof. eexists. split; [vm_compute; reflexivity |]. repeat split. Qed.

(** C9 (amended): for every non-empty text the features are computed, from
    the text alone; with no sentence the average is 0, and otherwise it is
    the integer nearest to the quotient of the word count by the sentence
    count, a half rounding up. *)
Theorem avg_words_rounds_to_nearest (text : string) :
  text <> EmptyString ->
  exists f,
    ETLService.extractTextFeatures text = Some f /\
    wordCount f = length (WordTokenizer.tokenize (Js.toLowerCase text)) /\
    sentenceCount f = length (ETLService.sentences text) /\
    (sentenceCount f = 0 -> avgWordsPerSentence f = 0) /\
    (0 < sentenceCount f ->
       avgWordsPerSentence f =
         (2 * wordCount f + sentenceCount f) / (2 * sentenceCount f) /\
       2 * sentenceCount f * avgWordsPerSentence f <= 2 * wordCount f + sentenceCount f /\
       2 * wordCount f < 2 * sentenceCount f * avgWordsPerSentence f + sentenceCount f).
Proof.
  intros Hne. unfold ETLService.extractTextFeatures.
  destruct text as [| c rest]; [congruence |]. cbn [Js.truthy].
  eexists. split; [reflexivity |]. cbn [wordCount sentenceCount avgWordsPerSentence].
  set (w := length (WordTokenizer.tokenize _)).
  set (s := length (ETLService.sentences _)).
  repeat split.
  - intros Hs. rewrite Hs. reflexivity.
  - destruct (Nat.ltb_spec 0 s); [reflexivity | lia].
  - destruct (Nat.ltb_spec 0 s); [| lia]. apply roundDiv_nearest; assumption.
  - destruct (Nat.ltb_spec 0 s); [| lia]. apply roundDiv_nearest; assumption.
Qed.

(** The text of three words in two sentences. *)
Lemma avg_words_rounds_to_nearest_witness :
  exists f,
    ETLService.extractTextFeatures "a b. c" = Some f /\
    wordCount f = length (WordTokenizer.tokenize (Js.toLowerCase "a b. c")) /\
    sentenceCount f = length (ETLService.sentences "a b. c") /\
    (sentenceCount f = 0 -> avgWordsPerSentence f = 0) /\
    (0 < sentenceCount f ->
       avgWordsPerSentence f =
         (2 * wordCount f + sentenceCount f) / (2 * sentenceCount f) /\
       2 * sentenceCount f * avgWordsPerSentence f <= 2 * wordCount f + sentenceCount f /\
       2 * wordCount f < 2 * sentenceCount f * avgWordsPerSentence f + sentenceCount f).
Proof. apply (avg_words_rounds_to_nearest "a b. c"). discriminate. Defined.

(** ** Suggestions *)

(** C10: [searchSuggestions] always returns a value; for an absent query
    and for one shorter than 2 characters it returns no suggestion and
    leaves the world as it was, so that no search reached the index; and
    when the search of the index throws it returns no suggestion. *)
Theorem suggestions_never_throw (documentId : string) (query : option string)
  (limit : Z) (w : World) :
  (exists s w', SearchService.searchSuggestions documentId query limit w = (Ok s, w')) /\
  (shortOrAbsent query ->
     SearchService.searchSuggestions documentId query limit w
       = (Ok SearchService.noSuggestions, w) /\
     queries (meili (snd (SearchService.searchSuggestions documentId query limit w)))
       = queries (meili w)) /\
  (forall query' e,
     query = Some query' ->
     fst (IndexService.search documentId query' (SearchService.suggestionOptions limit) w)
       = Throw e ->
     fst (SearchService.searchSuggestions documentId query limit w)
       = Ok SearchService.noSuggestions).
Proof.
  unfold SearchService.searchSuggestions.
  destruct query as [query |]; cbn [shortOrAbsent].
  - destruct (negb (Js.truthy query) || (String.length query <? 2)) eqn:Hshort.
    + run. split; [eauto | split]; [auto |].
      intros query' e [= <-]. reflexivity.
    + assert (Hlong : 2 <= String.length query).
      { apply orb_false_iff in Hshort as [_ Hlen].
        apply Nat.ltb_ge in Hlen. exact Hlen. }
      run.
      destruct (IndexService.search documentId query
                  (SearchService.suggestionOptions limit) w) as [[results | e] w'] eqn:Hs.
      * split; [eauto | split]; [intros Hlt; lia |].
        intros query' e [= <-]. rewrite Hs. discriminate.
      * split; [eauto | split]; [intros Hlt; lia |].
        intros query' e' [= <-]. reflexivity.
  - run. split; [eauto | split]; [auto |].
    intros query' e. discriminate.
Qed.

(** ** Typed search errors *)

Lemma truthy_valid (documentId : string) :
  validId documentId -> Js.truthy documentId = true.
Proof. destruct documentId; [intros H; now elim H | reflexivity]. Qed.

Lemma respond_not_ready (s : DOCUMENT_STATUS) :
  s <> COMPLETED ->
  SearchController.respondToError (SearchService.notReady s)
    = SearchController.failure HTTP_STATUS.UNPROCESSABLE_ENTITY
        (message (SearchService.notReady s)).
Proof. destruct s; intros H; try congruence; vm_compute; reflexivity. Qed.

Lemma search_query_too_short (documentId query : string) (options : SearchOptions)
  (w : World) :
  validId documentId ->
  String.length (Js.trim query) < SEARCH_CONFIG.MIN_QUERY_LENGTH ->
  SearchService.searchDocument documentId (Some query) options w
    = (Throw SearchService.queryTooShort, w).
Proof.
  intros Hid Hlen. unfold SearchService.searchDocument.
  rewrite (truthy_valid _ Hid). cbn [negb]. run.
  apply Nat.ltb_lt in Hlen. rewrite Hlen, orb_true_r. reflexivity.
Qed.

Lemma long_query_passes (query : string) :
  SEARCH_CONFIG.MIN_QUERY_LENGTH <= String.length (Js.trim query) ->
  negb (Js.truthy query) ||
    (String.length (Js.trim query) <? SEARCH_CONFIG.MIN_QUERY_LENGTH) = false.
Proof.
  intros Hlen. apply orb_false_iff. split.
  - destruct query; [cbn in Hlen; unfold SEARCH_CONFIG.MIN_QUERY_LENGTH in Hlen; lia | reflexivity].
  - apply Nat.ltb_ge. exact Hlen.
Qed.

Lemma search_not_found (documentId query : string) (options : SearchOptions)
  (w : World) :
  validId documentId ->
  SEARCH_CONFIG.MIN_QUERY_LENGTH <= String.length (Js.trim query) ->
  documents (db w) !! documentId = None ->
  SearchService.searchDocument documentId (Some query) options w
    = (Throw (Error "Document not found"), w).
Proof.
  intros Hid Hlen Hdoc. unfold SearchService.searchDocument.
  rewrite (truthy_valid _ Hid), (long_query_passes _ Hlen). cbn [negb].
  unfold Document.findById. run. rewrite Hdoc. reflexivity.
Qed.

Lemma search_not_ready (documentId query : string) (options : SearchOptions)
  (w : World) (d : DocumentData) :
  validId documentId ->
  SEARCH_CONFIG.MIN_QUERY_LENGTH <= String.length (Js.trim query) ->
  documents (db w) !! documentId = Some d ->
  processingStatus d <> COMPLETED ->
  SearchService.searchDocument documentId (Some query) options w
    = (Throw (SearchService.notReady (processingStatus d)), w).
Proof.
  intros Hid Hlen Hdoc Hst. unfold SearchService.searchDocument.
  rewrite (truthy_valid _ Hid), (long_query_passes _ Hlen). cbn [negb].
  unfold Document.findById. run. rewrite Hdoc. cbn [fmap option_fmap option_map].
  cbn [Document.ofRow processingStatus].
  rewrite bool_decide_eq_false_2 by exact Hst. reflexivity.
Qed.

(** The plain search route: for a request with a document id, a query
    whose trimmed length is under 2 fails with the query-too-short error,
    a query on an unknown document with the not-found error, a query on a
    document that is not completed with the not-ready error; each time
    the world is left as it was, so the index was not queried; and the
    controller answers the three with 400, 404 and 422, three codes that
    differ from each other and from 500, which two of the other errors
    are shown to get. The controller reads the kind of an error off its
    message. *)
Theorem search_failures_are_typed (req : SearchRequest) (query : string)
  (w : World) :
  validId (params_id req) ->
  q req = Some query ->
  (String.length (Js.trim query) < SEARCH_CONFIG.MIN_QUERY_LENGTH ->
     SearchService.searchDocument (params_id req) (Some query)
       (SearchController.optionsOf req) w
       = (Throw SearchService.queryTooShort, w) /\
     SearchController.searchDocument req w
       = (SearchController.failure HTTP_STATUS.BAD_REQUEST
            "Query must be at least 2 characters long", w)) /\
  (SEARCH_CONFIG.MIN_QUERY_LENGTH <= String.length (Js.trim query) ->
   documents (db w) !! params_id req = None ->
     SearchService.searchDocument (params_id req) (Some query)
       (SearchController.optionsOf req) w
       = (Throw (Error "Document not found"), w) /\
     SearchController.searchDocument req w
       = (SearchController.failure HTTP_STATUS.NOT_FOUND "Document not found", w)) /\
  (SEARCH_CONFIG.MIN_QUERY_LENGTH <= String.length (Js.trim query) ->
   forall d, documents (db w) !! params_id req = Some d ->
   processingStatus d <> COMPLETED ->
     SearchService.searchDocument (params_id req) (Some query)
       (SearchController.optionsOf req) w
       = (Throw (SearchService.notReady (processingStatus d)), w) /\
     SearchController.searchDocument req w
       = (SearchController.failure HTTP_STATUS.UNPROCESSABLE_ENTITY
            ("Document is not ready for search. Status: " +:+
             statusString (processingStatus d)), w)) /\
  NoDup [HTTP_STATUS.BAD_REQUEST; HTTP_STATUS.NOT_FOUND;
         HTTP_STATUS.UNPROCESSABLE_ENTITY; HTTP_STATUS.INTERNAL_SERVER_ERROR] /\
  res_status (SearchController.respondToError (Error "Document ID is required"))
    = HTTP_STATUS.INTERNAL_SERVER_ERROR /\
  res_status (SearchController.respondToError (Error "request to MeiliSearch failed"))
    = HTTP_STATUS.INTERNAL_SERVER_ERROR.
Proof.
  intros Hid Hq.
  split; [| split; [| split; [| split; [| split]]]].
  - intros Hlen.
    pose proof (search_query_too_short _ _ (SearchController.optionsOf req) w Hid Hlen) as Hs.
    split; [exact Hs |].
    unfold SearchController.searchDocument. rewrite Hq, Hs. reflexivity.
  - intros Hlen Hdoc.
    pose proof (search_not_found _ _ (SearchController.optionsOf req) w Hid Hlen Hdoc) as Hs.
    split; [exact Hs |].
    unfold SearchController.searchDocument. rewrite Hq, Hs. reflexivity.
  - intros Hlen d Hdoc Hst.
    pose proof (search_not_ready _ _ (SearchController.optionsOf req) w d Hid Hlen Hdoc Hst) as Hs.
    split; [exact Hs |].
    unfold SearchController.searchDocument. rewrite Hq, Hs.
    rewrite (respond_not_ready _ Hst). reflexivity.
  - unfold HTTP_STATUS.BAD_REQUEST, HTTP_STATUS.NOT_FOUND,
      HTTP_STATUS.UNPROCESSABLE_ENTITY, HTTP_STATUS.INTERNAL_SERVER_ERROR.
    apply (bool_decide_unpack _). vm_compute. exact I.
  - vm_compute. reflexivity.
  - vm_compute. reflexivity.
Qed.

(** A query of one letter between two spaces is answered 400. *)
Lemma search_failures_are_typed_witness :
  let req := {| params_id := "D"; q := Some " a "; r_type := None; r_page := None;
                r_limit := Some 20%Z; r_offset := Some 0%Z;
                r_minConfidence := None; r_sortBy := None;
                r_sortOrder := Some "desc" |} in
  SearchController.searchDocument req (Demo.world false true)
    = (SearchController.failure HTTP_STATUS.BAD_REQUEST
         "Query must be at least 2 characters long", Demo.world false true).
Proof.
  intros req.
  refine (proj2 (proj1 (search_failures_are_typed req " a " (Demo.world false true) _ _) _)).
  - discriminate.
  - reflexivity.
  - vm_compute. lia.
Defined.

(** ** The cache *)

(** A search of a completed document whose key is in the cache returns
    the cached response and does not reach the index. *)
Lemma search_served_from_cache (documentId query : string)
  (options : SearchOptions) (w : World) (d : DocumentData)
  (cached : SearchResponse) (expires : Z) :
  validId documentId ->
  SEARCH_CONFIG.MIN_QUERY_LENGTH <= String.length (Js.trim query) ->
  documents (db w) !! documentId = Some d ->
  processingStatus d = COMPLETED ->
  redis_isConnected (redis w) = true ->
  entries (redis w) !!
    SearchService.generateCacheKey documentId
      (SearchService.cleanSearchQuery query) options = Some (cached, expires) ->
  (clock (redis w) < expires)%Z ->
  SearchService.searchDocument documentId (Some query) options w = (Ok cached, w).
Proof.
  intros Hid Hlen Hdoc Hst Hconn Hentry Hclock.
  unfold SearchService.searchDocument.
  rewrite (truthy_valid _ Hid), (long_query_passes _ Hlen). cbn [negb].
  unfold Document.findById, SearchService.getCachedResults, RedisClient.get.
  run. rewrite Hdoc. cbn [fmap option_fmap option_map Document.ofRow processingStatus].
  rewrite bool_decide_eq_true_2 by exact Hst. cbn [negb].
  rewrite Hconn, Hentry.
  apply Z.ltb_lt in Hclock. rewrite Hclock. reflexivity.
Qed.

(** C6: the key of the cache is a function of the document id, the
    cleaned query and six options, and does not read the minimum
    confidence: two requests that differ in that option alone have one
    key, and the second is answered with what the first stored. The
    specification has them never share an entry. *)
Theorem cache_key_ignores_min_confidence (documentId query : string)
  (options : SearchOptions) (v : JsNumber) :
  SearchService.generateCacheKey documentId query (withMinConfidence v options)
    = SearchService.generateCacheKey documentId query options /\
  (forall (w : World) (d : DocumentData) (cached : SearchResponse) (expires : Z),
     validId documentId ->
     SEARCH_CONFIG.MIN_QUERY_LENGTH <= String.length (Js.trim query) ->
     documents (db w) !! documentId = Some d ->
     processingStatus d = COMPLETED ->
     redis_isConnected (redis w) = true ->
     entries (redis w) !!
       SearchService.generateCacheKey documentId
         (SearchService.cleanSearchQuery query) options = Some (cached, expires) ->
     (clock (redis w) < expires)%Z ->
     SearchService.searchDocument documentId (Some query)
       (withMinConfidence v options) w = (Ok cached, w)).
Proof.
  split; [reflexivity |].
  intros w d cached expires Hid Hlen Hdoc Hst Hconn Hentry Hclock.
  apply (search_served_from_cache _ _ _ _ d cached expires); auto.
Qed.

(** On a server that finds nothing above a confidence of 90, the search
    with that minimum finds nothing when it comes first, and is answered
    with the hit of the search without a minimum when it comes second. *)
Lemma min_confidence_served_from_cache :
  let confident := withMinConfidence (Num 90) Demo.options in
  let first := SearchService.searchDocument "D" (Some "fox") Demo.options
                 Demo.filteredWorld in
  Demo.hitCount
    (fst (SearchService.searchDocument "D" (Some "fox") confident Demo.filteredWorld))
    = Some 0 /\
  Demo.hitCount (fst first) = Some 1 /\
  SearchService.searchDocument "D" (Some "fox") confident (snd first)
    = (fst first, snd first).
Proof. vm_compute. repeat split. Qed.

(** C7: [invalidateCache] returns [true] and leaves the world, and with
    it every entry of the cache, as it was: the entries of other documents
    and, against the specification, those of this document; the controller
    then answers 200 with [cacheCleared: true]. *)
Theorem invalidate_cache_removes_nothing (documentId : string) (w : World) :
  SearchService.invalidateCache documentId w = (Ok true, w) /\
  (forall key, entries (redis (snd (SearchService.invalidateCache documentId w))) !! key
               = entries (redis w) !! key) /\
  (hasRow documentId w ->
   SearchController.clearSearchCache documentId w
     = ((HTTP_STATUS.OK, Some true), w)).
Proof.
  split; [reflexivity |]. split; [reflexivity |].
  intros [d Hd]. unfold SearchController.clearSearchCache, Document.findById.
  run. rewrite Hd. reflexivity.
Qed.

(** After the cache of the document was cleared, the same search is
    answered from the cache: the index saw the first search only. *)
Lemma cache_hit_after_clear :
  SearchController.clearSearchCache "D" Demo.afterSearch
    = ((HTTP_STATUS.OK, Some true), Demo.afterSearch) /\
  SearchService.searchDocument "D" (Some "fox") Demo.options Demo.afterSearch
    = (fst (SearchService.searchDocument "D" (Some "fox") Demo.options
              (Demo.afterFirstRun false)),
       Demo.afterSearch) /\
  queries (meili (snd (SearchService.searchDocument "D" (Some "fox") Demo.options
                         Demo.afterSearch)))
    = [("pdf_search_D", "fox")].
Proof. vm_compute. repeat split. Qed.

(** ** Minimum content length *)

Lemma guard_spec (s : string) :
  negb (Js.truthy s) || (String.length s <? 10) = false <-> 10 <= String.length s.
Proof.
  rewrite orb_false_iff, Nat.ltb_ge. split; [tauto |].
  intros H. split; [| exact H]. destruct s; [cbn in H; lia | reflexivity].
Qed.

Lemma paragraphChunk_accepts (p : Paragraph) :
  is_Some (ETLService.paragraphChunk p) <->
  10 <= String.length (ETLService.cleanText (ETLService.paragraphText p)).
Proof.
  unfold ETLService.paragraphChunk. cbv zeta. rewrite <- guard_spec.
  destruct (negb _ || _); split; intros H; try discriminate; eauto.
  destruct H as [? H]; discriminate.
Qed.

Lemma paragraphChunk_meets (p : Paragraph) (mk : string -> Chunk) (chunkId : string) :
  ETLService.paragraphChunk p = Some mk ->
  meetsMinimum (mk chunkId) /\
  chunk_type (mk chunkId) = PARAGRAPH /\
  content (mk chunkId) = ETLService.cleanText (ETLService.paragraphText p).
Proof.
  unfold ETLService.paragraphChunk. cbv zeta.
  destruct (negb _ || _) eqn:Hguard; [discriminate |].
  intros [= <-]. apply guard_spec in Hguard.
  unfold meetsMinimum. cbn. auto.
Qed.

Lemma tableChunk_accepts (t : Table) :
  is_Some (ETLService.tableChunk t) <->
  10 <= String.length (ETLService.convertTableToText t).
Proof.
  unfold ETLService.tableChunk. cbv zeta. rewrite <- guard_spec.
  destruct (negb _ || _); split; intros H; try discriminate; eauto.
  destruct H as [? H]; discriminate.
Qed.

Lemma tableChunk_meets (t : Table) (mk : string -> Chunk) (chunkId : string) :
  ETLService.tableChunk t = Some mk ->
  meetsMinimum (mk chunkId) /\
  chunk_type (mk chunkId) = TABLE /\
  content (mk chunkId) = ETLService.convertTableToText t.
Proof.
  unfold ETLService.tableChunk. cbv zeta.
  destruct (negb _ || _) eqn:Hguard; [discriminate |].
  intros [= <-]. apply guard_spec in Hguard.
  unfold meetsMinimum. cbn. auto.
Qed.

Lemma returns_processParagraphs (ps : list Paragraph) :
  returns (ETLService.processParagraphs ps) (Forall meetsMinimum).
Proof.
  induction ps as [| p rest IH]; cbn [ETLService.processParagraphs].
  - apply returns_ret. constructor.
  - apply returns_bind with (R := Forall meetsMinimum).
    + apply returns_tryCatch.
      destruct (ETLService.paragraphChunk p) as [mk |] eqn:Hp.
      * apply returns_bind with (R := fun _ => True);
          [apply returns_freshName |].
        intros chunkId _. apply returns_ret. repeat constructor.
        apply (paragraphChunk_meets p mk chunkId Hp).
      * apply returns_ret. constructor.
    + intros here Hhere. apply returns_bind with (R := Forall meetsMinimum);
        [exact IH |].
      intros more Hmore. apply returns_ret. apply Forall_app. auto.
Qed.

(** No image gives a chunk: where the text is long enough the chunk
    literal throws, and the loop goes on. *)
Lemma returns_processImage (image : Image) :
  returns (ETLService.processImage image) (fun cs => cs = []).
Proof.
  intros w. unfold ETLService.processImage, OCRService.processImage,
    ETLService.generateChunkId, freshName. run.
  destruct (ETLService.imageData image) as [buffer |].
  - destruct (recognize w buffer) as [ocr | e]; cbn.
    + destruct (Js.truthy _ && _); cbn; eauto.
    + eauto.
  - cbn. eauto.
Qed.

Lemma returns_processImages (imgs : list Image) :
  returns (ETLService.processImages imgs) (fun cs => cs = []).
Proof.
  induction imgs as [| image rest IH]; cbn [ETLService.processImages].
  - apply returns_ret. reflexivity.
  - apply returns_bind with (R := fun cs => cs = []);
      [apply returns_processImage |].
    intros here ->. apply returns_bind with (R := fun cs => cs = []); [exact IH |].
    intros more ->. apply returns_ret. reflexivity.
Qed.

(** A table gives its chunk when its text is long enough and its rows
    are absent or an array, and nothing otherwise. *)
Lemma returns_processTable (t : Table) :
  returns (ETLService.processTable t)
    (fun here =>
       match ETLService.tableChunk t with
       | Some mk =>
           if structured t then exists chunkId, here = [mk chunkId] else here = []
       | None => here = []
       end).
Proof.
  intros w. unfold ETLService.processTable, ETLService.extractTableStructure,
    ETLService.generateChunkId, structured, freshName. run.
  destruct (ETLService.tableChunk t) as [mk |]; [| eauto].
  destruct (t_rows t) as [[rows |] |]; cbn; eauto.
Qed.

Lemma returns_table_chunks (t : Table) (Q : Chunk -> Prop) :
  (forall mk chunkId, ETLService.tableChunk t = Some mk -> Q (mk chunkId)) ->
  returns (ETLService.processTable t) (Forall Q).
Proof.
  intros H w. destruct (returns_processTable t w) as (here & w' & Hrun & Hhere).
  exists here, w'. split; [exact Hrun |].
  destruct (ETLService.tableChunk t) as [mk |] eqn:Ht; [| subst; constructor].
  destruct (structured t); [| subst; constructor].
  destruct Hhere as [chunkId ->]. repeat constructor. apply (H mk chunkId eq_refl).
Qed.

Lemma returns_processTables (ts : list Table) :
  returns (ETLService.processTables ts) (Forall meetsMinimum).
Proof.
  induction ts as [| t rest IH]; cbn [ETLService.processTables].
  - apply returns_ret. constructor.
  - apply returns_bind with (R := Forall meetsMinimum).
    + apply returns_table_chunks. intros mk chunkId Ht.
      apply (tableChunk_meets t mk chunkId Ht).
    + intros here Hhere. apply returns_bind with (R := Forall meetsMinimum);
        [exact IH |].
      intros more Hmore. apply returns_ret. apply Forall_app. auto.
Qed.

Lemma returns_extract (pd : ParsedData) :
  returns (ETLService.extractAndProcessContent pd) (Forall meetsMinimum).
Proof.
  unfold ETLService.extractAndProcessContent.
  apply returns_bind with (R := Forall meetsMinimum).
  { destruct (paragraphs pd); [apply returns_processParagraphs |].
    apply returns_ret. constructor. }
  intros pcs Hp. apply returns_bind with (R := fun cs => cs = []).
  { destruct (images pd); [apply returns_processImages |].
    apply returns_ret. reflexivity. }
  intros ics ->. apply returns_bind with (R := Forall meetsMinimum).
  { destruct (tables pd); [apply returns_processTables |].
    apply returns_ret. constructor. }
  intros tcs Ht. apply returns_ret. apply Forall_app. auto.
Qed.

Lemma Forall_filter_keep {A : Type} (P Q : A -> Prop)
  `{forall x, Decision (P x)} (l : list A) :
  Forall Q l -> Forall Q (filter P l).
Proof.
  rewrite !Forall_forall. intros HQ x Hx.
  apply list_elem_of_filter in Hx as [_ Hx]. auto.
Qed.

Lemma ofDb_rowsMeetMinimum : ofDb rowsMeetMinimum.
Proof. intros w w' Hdb. unfold rowsMeetMinimum. rewrite Hdb. auto. Qed.

Lemma keeps_rows_updateStatus (d : DocumentData) (s : DOCUMENT_STATUS)
  (e : option string) :
  keeps rowsMeetMinimum (Document.updateStatus d s e) (fun _ => True).
Proof. intros w Hw. cbn. auto. Qed.

Lemma keeps_rows_save (d : DocumentData) :
  keeps rowsMeetMinimum (Document.save d) (fun _ => True).
Proof.
  intros w Hw. unfold Document.save, rowsMeetMinimum in *. cbn.
  split; [| exact I].
  destruct (foreign_keys (db w) && _); [| exact Hw].
  apply Forall_filter_keep. exact Hw.
Qed.

Lemma keeps_rows_addChunk (d : DocumentData) (c : Chunk) :
  meetsMinimum c ->
  keeps rowsMeetMinimum (Document.addChunk d c) (fun _ => True).
Proof.
  intros Hc w Hw. unfold Document.addChunk, freshName, rowsMeetMinimum in *.
  run. cbn [db with_fresh].
  destruct (foreign_keys (db w) && _); cbn; [exact Hw |].
  split; [| exact I]. apply Forall_app. split; [exact Hw |].
  repeat constructor. exact Hc.
Qed.

Lemma keeps_rows_storeChunks (d : DocumentData) (cs : list Chunk) :
  Forall meetsMinimum cs ->
  keeps rowsMeetMinimum (ETLService.storeChunks d cs) (fun _ => True).
Proof.
  induction 1 as [| c rest Hc Hrest IH]; cbn [ETLService.storeChunks].
  - apply keeps_ret. exact I.
  - apply keeps_bind with (R := fun _ => True).
    + apply keeps_tryCatch.
      * apply keeps_bind with (R := fun _ => True);
          [apply keeps_rows_addChunk; exact Hc |].
        intros. apply keeps_ret. exact I.
      * intros. apply keeps_ret. exact I.
    + intros. apply keeps_bind with (R := fun _ => True); [exact IH |].
      intros. apply keeps_ret. exact I.
Qed.

Lemma keeps_rows_processDocument (documentId : string) (pd : ParsedData) :
  keeps rowsMeetMinimum (ETLService.processDocument documentId pd) (fun _ => True).
Proof.
  pose proof ofDb_rowsMeetMinimum as Hdb.
  unfold ETLService.processDocument.
  apply keeps_bind with (R := fun _ => True).
  { apply dbFrame_keeps; [exact Hdb |]. intros w. reflexivity. }
  intros [document |] _; [| apply keeps_throw].
  apply keeps_tryCatch.
  - unfold ETLService.processLoaded.
    apply keeps_bind with (R := fun _ => True); [apply keeps_rows_updateStatus |].
    intros document' _.
    apply keeps_bind with (R := Forall meetsMinimum).
    { apply returns_keeps; [apply returns_extract |].
      apply dbFrame_keeps; [exact Hdb | apply dbFrame_extract]. }
    intros cs Hcs. cbv zeta.
    apply keeps_bind with (R := fun _ => True); [apply keeps_rows_save |].
    intros _ _.
    apply keeps_bind with (R := fun _ => True);
      [apply keeps_rows_storeChunks; exact Hcs |].
    intros chunkIds _.
    apply keeps_bind with (R := fun _ => True);
      [apply dbFrame_keeps; [exact Hdb | apply dbFrame_createDocumentIndex] |].
    intros _ _.
    apply keeps_bind with (R := fun _ => True);
      [apply dbFrame_keeps; [exact Hdb | apply dbFrame_indexDocumentChunks] |].
    intros _ _.
    apply keeps_bind with (R := fun _ => True); [apply keeps_rows_updateStatus |].
    intros document'' _. apply keeps_ret. exact I.
  - intros error.
    apply keeps_bind with (R := fun _ => True); [apply keeps_rows_updateStatus |].
    intros _ _. apply keeps_throw.
Qed.

Lemma dbFrame_findById (documentId : string) : dbFrame (Document.findById documentId).
Proof. intros w. reflexivity. Qed.

Lemma dbFrame_reportProgress (job : Job) (n : nat) :
  dbFrame (ProcessDocumentJob.reportProgress job n).
Proof. intros w. reflexivity. Qed.

Lemma keeps_rows_processDocumentJob (job : Job) :
  keeps rowsMeetMinimum (ProcessDocumentJob.processDocumentJob job) (fun _ => True).
Proof.
  pose proof ofDb_rowsMeetMinimum as Hdb.
  assert (Hprogress : forall n,
            keeps rowsMeetMinimum (ProcessDocumentJob.reportProgress job n)
                  (fun _ => True)).
  { intros n. apply dbFrame_keeps; [exact Hdb | apply dbFrame_reportProgress]. }
  assert (Hfind : forall documentId,
            keeps rowsMeetMinimum (Document.findById documentId) (fun _ => True)).
  { intros documentId. apply dbFrame_keeps; [exact Hdb | apply dbFrame_findById]. }
  unfold ProcessDocumentJob.processDocumentJob. apply keeps_tryCatch.
  - unfold ProcessDocumentJob.attempt.
    apply keeps_bind with (R := fun _ => True); [apply Hprogress |]. intros _ _.
    destruct (job_documentId job) as [documentId |]; [| apply keeps_throw].
    destruct (negb (Js.truthy documentId)); [apply keeps_throw |].
    destruct (job_parsedData job) as [pd |]; [| apply keeps_throw].
    apply keeps_bind with (R := fun _ => True); [apply Hfind |].
    intros [document |] _; [| apply keeps_throw].
    destruct (bool_decide _); [apply keeps_ret; exact I |].
    apply keeps_bind with (R := fun _ => True); [apply Hprogress |]. intros _ _.
    apply keeps_bind with (R := fun _ => True);
      [apply keeps_rows_processDocument |]. intros result _.
    apply keeps_bind with (R := fun _ => True); [apply Hprogress |]. intros _ _.
    apply keeps_ret. exact I.
  - intros error. unfold ProcessDocumentJob.onError.
    apply keeps_bind with (R := fun _ => True); [| intros _ _; apply keeps_throw].
    destruct (attempts job <=? attemptsMade job + 1); [| apply keeps_ret; exact I].
    apply keeps_tryCatch; [| intros _; apply keeps_ret; exact I].
    apply keeps_bind with (R := fun _ => True).
    { unfold ProcessDocumentJob.findDocument.
      destruct (job_documentId job); [apply Hfind | apply keeps_ret; exact I]. }
    intros [document |] _; [| apply keeps_ret; exact I].
    apply keeps_bind with (R := fun _ => True); [apply keeps_rows_updateStatus |].
    intros _ _. apply keeps_ret. exact I.
Qed.

(** C4: extraction returns chunks, each with content of at least the
    minimum length of its kind (10 for a paragraph and for a table, 6 for
    an image); a paragraph gives a chunk exactly when its cleaned text has
    10 characters or more, and a table exactly when its text has; and
    [processDocument], as the job that calls it, keeps the chunk rows of
    the database at or above those lengths, however it ends: a shorter
    content is never stored. *)
Theorem accepted_chunks_meet_minimum (parsedData : ParsedData)
  (documentId : string) (job : Job) (w : World) :
  (exists cs w',
     ETLService.extractAndProcessContent parsedData w = (Ok cs, w') /\
     Forall meetsMinimum cs) /\
  (forall p, is_Some (ETLService.paragraphChunk p) <->
             10 <= String.length (ETLService.cleanText (ETLService.paragraphText p))) /\
  (forall t, is_Some (ETLService.tableChunk t) <->
             10 <= String.length (ETLService.convertTableToText t)) /\
  (rowsMeetMinimum w ->
   rowsMeetMinimum (snd (ETLService.processDocument documentId parsedData w))) /\
  (rowsMeetMinimum w ->
   rowsMeetMinimum (snd (ProcessDocumentJob.processDocumentJob job w))).
Proof.
  split; [apply returns_extract |].
  split; [apply paragraphChunk_accepts |].
  split; [apply tableChunk_accepts |].
  split; intros Hw.
  - pose proof (keeps_rows_processDocument documentId parsedData w Hw) as H.
    destruct (ETLService.processDocument documentId parsedData w) as [[r | e] w'];
      cbn; tauto.
  - pose proof (keeps_rows_processDocumentJob job w Hw) as H.
    destruct (ProcessDocumentJob.processDocumentJob job w) as [[r | e] w'];
      cbn; tauto.
Qed.

(** ** The status of a document after a run *)

Section Status.

(** The document the lemmas of this section speak of. *)
Variable documentId : string.

Lemma ofDb_hasRow : ofDb (hasRow documentId).
Proof. intros w w' Hdb. unfold hasRow. rewrite Hdb. auto. Qed.

Lemma keeps_row_updateStatus (d : DocumentData)
  (s : DOCUMENT_STATUS) (e : option string) :
  keeps (hasRow documentId) (Document.updateStatus d s e) (fun _ => True).
Proof.
  intros w Hw. unfold hasRow in *. cbn. split; [| exact I].
  rewrite lookup_alter. case_decide; [| exact Hw].
  subst. destruct Hw as [x ->]. cbn. eauto.
Qed.

Lemma updateStatus_sets (d : DocumentData) (s : DOCUMENT_STATUS) (e : option string) :
  triple (hasRow (id d)) (Document.updateStatus d s e)
         (fun _ w => statusIs (id d) s e w) (fun _ _ => False).
Proof.
  intros w [x Hx]. unfold statusIs. cbn. exists (Document.setStatus s e x).
  rewrite lookup_alter, decide_True by reflexivity. rewrite Hx. cbn. auto.
Qed.

Lemma keeps_row_save (d : DocumentData) :
  keeps (hasRow documentId) (Document.save d) (fun _ => True).
Proof.
  intros w Hw. unfold hasRow in *. cbn. split; [| exact I].
  rewrite lookup_insert. case_decide; [eauto | exact Hw].
Qed.

Lemma save_makes_row (d : DocumentData) :
  triple (fun _ => True) (Document.save d) (fun _ w => hasRow (id d) w)
         (fun _ _ => False).
Proof. intros w _. unfold hasRow. cbn. rewrite lookup_insert_eq. eauto. Qed.

Lemma keeps_row_addChunk (d : DocumentData) (c : Chunk) :
  keeps (hasRow documentId) (Document.addChunk d c) (fun _ => True).
Proof.
  intros w Hw. unfold Document.addChunk, freshName, hasRow in *.
  run. cbn [db with_fresh].
  destruct (foreign_keys (db w) && _); cbn; [exact Hw |].
  split; [| exact I]. rewrite lookup_alter. case_decide; [| exact Hw].
  subst. destruct Hw as [x ->]. cbn. eauto.
Qed.

Lemma keeps_row_storeChunks (d : DocumentData)
  (cs : list Chunk) :
  keeps (hasRow documentId) (ETLService.storeChunks d cs) (fun _ => True).
Proof.
  induction cs as [| c rest IH]; cbn [ETLService.storeChunks].
  - apply keeps_ret. exact I.
  - apply keeps_bind with (R := fun _ => True).
    + apply keeps_tryCatch.
      * apply keeps_bind with (R := fun _ => True);
          [apply keeps_row_addChunk |].
        intros. apply keeps_ret. exact I.
      * intros. apply keeps_ret. exact I.
    + intros. apply keeps_bind with (R := fun _ => True); [exact IH |].
      intros. apply keeps_ret. exact I.
Qed.

Lemma keeps_row_processLoaded (document : DocumentData)
  (docId : string) (pd : ParsedData) :
  keeps (hasRow documentId) (ETLService.processLoaded document docId pd)
        (fun _ => True).
Proof.
  pose proof ofDb_hasRow as Hdb.
  unfold ETLService.processLoaded.
  apply keeps_bind with (R := fun _ => True); [apply keeps_row_updateStatus |].
  intros document' _.
  apply keeps_bind with (R := fun _ => True);
    [apply dbFrame_keeps; [exact Hdb | apply dbFrame_extract] |].
  intros cs _. cbv zeta.
  apply keeps_bind with (R := fun _ => True); [apply keeps_row_save |].
  intros _ _.
  apply keeps_bind with (R := fun _ => True); [apply keeps_row_storeChunks |].
  intros chunkIds _.
  apply keeps_bind with (R := fun _ => True);
    [apply dbFrame_keeps; [exact Hdb | apply dbFrame_createDocumentIndex] |].
  intros _ _.
  apply keeps_bind with (R := fun _ => True);
    [apply dbFrame_keeps; [exact Hdb | apply dbFrame_indexDocumentChunks] |].
  intros _ _.
  apply keeps_bind with (R := fun _ => True); [apply keeps_row_updateStatus |].
  intros document'' _. apply keeps_ret. exact I.
Qed.

(** The error [processDocument] throws for a document that has a row is
    on that row when it is thrown. *)
Lemma processDocument_failure (pd : ParsedData)
  (w w' : World) (e : JsError) :
  hasRow documentId w ->
  ETLService.processDocument documentId pd w = (Throw e, w') ->
  statusIs documentId FAILED (Some (message e)) w'.
Proof.
  intros Hrow. unfold ETLService.processDocument, Document.findById.
  destruct Hrow as [x Hx]. run. rewrite Hx. cbn [fmap option_fmap option_map].
  pose proof (keeps_row_processLoaded (Document.ofRow documentId x)
                documentId pd w (ex_intro _ x Hx)) as Hkeep.
  destruct (ETLService.processLoaded _ _ _ w) as [[r | e1] w1]; [discriminate |].
  pose proof (updateStatus_sets (Document.ofRow documentId x) FAILED
                (Some (message e1)) w1 Hkeep) as Hset.
  destruct (Document.updateStatus _ _ _ w1) as [[d' | e2] w2]; [| contradiction].
  intros [= <- <-]. exact Hset.
Qed.

(** When [processDocument] returns, the document is completed. *)
Lemma processDocument_success (pd : ParsedData)
  (w w' : World) (r : ProcessResult) :
  ETLService.processDocument documentId pd w = (Ok r, w') ->
  statusIs documentId COMPLETED None w'.
Proof.
  unfold ETLService.processDocument, Document.findById. run.
  destruct (documents (db w) !! documentId) as [x |]; cbn [fmap option_fmap option_map];
    [| discriminate].
  set (document := Document.ofRow documentId x).
  assert (Hrun : triple (fun _ => True)
                   (ETLService.processLoaded document documentId pd)
                   (fun _ w => statusIs documentId COMPLETED None w)
                   (fun _ _ => True)).
  { pose proof ofDb_hasRow as Hdb.
    unfold ETLService.processLoaded.
    apply triple_bind with (R := fun d _ => id d = documentId).
    { intros w0 _. reflexivity. }
    intros document'. 
    apply triple_bind with (R := fun _ _ => id document' = documentId).
    { intros w0 Hid. destruct (ETLService.extractAndProcessContent pd w0) as [[? | ?] ?]; auto. }
    intros cs. cbv zeta.
    apply triple_bind with (R := fun _ w => id document' = documentId /\ hasRow documentId w).
    { intros w0 Hid. split; [exact Hid |]. unfold hasRow. cbn.
      rewrite Hid, lookup_insert_eq. eauto. }
    intros _.
    apply triple_bind with (R := fun _ w => id document' = documentId /\ hasRow documentId w).
    { intros w0 [Hid Hrow].
      pose proof (keeps_row_storeChunks
                    (Document.setTotalPages (ETLService.calculateTotalPages cs) document')
                    cs w0 Hrow) as H.
      destruct (ETLService.storeChunks _ _ w0) as [[? | ?] ?]; tauto. }
    intros chunkIds.
    apply triple_bind with (R := fun _ w => id document' = documentId /\ hasRow documentId w).
    { intros w0 [Hid Hrow].
      pose proof (dbFrame_keeps _ _ Hdb (dbFrame_createDocumentIndex documentId) w0 Hrow) as H.
      destruct (IndexService.createDocumentIndex _ w0) as [[? | ?] ?]; tauto. }
    intros _.
    apply triple_bind with (R := fun _ w => id document' = documentId /\ hasRow documentId w).
    { intros w0 [Hid Hrow].
      pose proof (dbFrame_keeps _ _ Hdb (dbFrame_indexDocumentChunks documentId cs) w0 Hrow) as H.
      destruct (IndexService.indexDocumentChunks _ _ w0) as [[? | ?] ?]; tauto. }
    intros _.
    apply triple_bind with (R := fun _ w => statusIs documentId COMPLETED None w).
    { intros w0 [Hid Hrow].
      pose proof (updateStatus_sets
                    (Document.setTotalPages (ETLService.calculateTotalPages cs) document')
                    COMPLETED None w0) as H.
      cbn [id Document.setTotalPages] in H. rewrite Hid in H. specialize (H Hrow).
      destruct (Document.updateStatus _ _ _ w0) as [[? | ?] ?]; [exact H | exact I]. }
    intros document''. apply triple_ret. auto. }
  specialize (Hrun w I).
  destruct (ETLService.processLoaded document documentId pd w) as [[r1 | e1] w1].
  - intros [= <- <-]. exact Hrun.
  - destruct (Document.updateStatus _ _ _ w1) as [[? | ?] ?]; discriminate.
Qed.

End Status.

(** ** Failed attempts *)

Lemma onError_throws (job : Job) (error : JsError) (w : World) :
  exists w', ProcessDocumentJob.onError job error w = (Throw error, w').
Proof.
  unfold ProcessDocumentJob.onError, ProcessDocumentJob.findDocument,
    Document.findById. run.
  destruct (attempts job <=? attemptsMade job + 1); [| eauto].
  destruct (job_documentId job) as [documentId |]; [| eauto].
  destruct (documents (db w) !! documentId); cbn; eauto.
Qed.

Lemma onError_keeps_failed (job : Job) (documentId : string) (error : JsError)
  (w w' : World) :
  job_documentId job = Some documentId ->
  statusIs documentId FAILED (Some (message error)) w ->
  ProcessDocumentJob.onError job error w = (Throw error, w') ->
  statusIs documentId FAILED (Some (message error)) w'.
Proof.
  intros Hid Hst. unfold ProcessDocumentJob.onError, ProcessDocumentJob.findDocument,
    Document.findById. rewrite Hid. run.
  destruct (attempts job <=? attemptsMade job + 1).
  - destruct Hst as (d & Hd & Hs & He). rewrite Hd.
    cbn [fmap option_fmap option_map].
    pose proof (updateStatus_sets (Document.ofRow documentId d) FAILED
                  (Some (message error)) w (ex_intro _ d Hd)) as Hset.
    destruct (Document.updateStatus _ _ _ w) as [[d' | e2] w2]; [| contradiction].
    intros [= <-]. exact Hset.
  - intros [= <-]. exact Hst.
Qed.

(** The error of a failed attempt is the error the job throws: it reaches
    the queue, which decides on the retry. *)
Lemma failure_reaches_the_queue (job : Job) (w w1 : World) (e : JsError) :
  ProcessDocumentJob.attempt job w = (Throw e, w1) ->
  fst (ProcessDocumentJob.processDocumentJob job w) = Throw e.
Proof.
  intros Hattempt. unfold ProcessDocumentJob.processDocumentJob, tryCatch.
  rewrite Hattempt. destruct (onError_throws job e w1) as [w2 ->]. reflexivity.
Qed.

(** C3: whatever the number of the attempt, when a job of a document that
    is not completed fails, the document is failed with the message of the
    error, on the first of three attempts as on the last; the
    specification has only the last attempt mark the document. *)
Theorem failed_attempt_marks_document_failed (job : Job) (documentId : string)
  (w w' : World) (d : DocumentData) (e : JsError) :
  wellFormed job documentId ->
  documents (db w) !! documentId = Some d ->
  processingStatus d <> COMPLETED ->
  ProcessDocumentJob.processDocumentJob job w = (Throw e, w') ->
  statusIs documentId FAILED (Some (message e)) w'.
Proof.
  intros (Hid & Hvalid & [pd Hpd]) Hdoc Hst.
  unfold ProcessDocumentJob.processDocumentJob. unfold tryCatch.
  destruct (ProcessDocumentJob.attempt job w) as [[r | e1] w1] eqn:Hattempt;
    [discriminate |].
  intros Herr.
  assert (Hfailed : statusIs documentId FAILED (Some (message e1)) w1).
  { revert Hattempt.
    unfold ProcessDocumentJob.attempt, ProcessDocumentJob.reportProgress.
    rewrite Hid, Hpd, (truthy_valid _ Hvalid). cbn [negb].
    unfold Document.findById. run. cbn [db with_progress].
    rewrite Hdoc. cbn [fmap option_fmap option_map Document.ofRow processingStatus].
    rewrite bool_decide_eq_false_2 by exact Hst.
    match goal with
    | |- context [ETLService.processDocument documentId pd ?w0] =>
        destruct (ETLService.processDocument documentId pd w0)
          as [[r | e2] w2] eqn:Hrun
    end; [discriminate |].
    intros [= <- <-].
    eapply processDocument_failure; [| exact Hrun].
    unfold hasRow. cbn. rewrite Hdoc. eauto. }
  destruct (onError_throws job e1 w1) as [w2 Hthrow].
  rewrite Hthrow in Herr. injection Herr as <- <-.
  eapply onError_keeps_failed; eauto.
Qed.

(** The first of three attempts, with the search server out of reach. *)
Lemma failed_attempt_marks_document_failed_witness :
  attemptsMade (Demo.job "j1" Demo.fox 0) + 1 < attempts (Demo.job "j1" Demo.fox 0) /\
  statusIs "D" FAILED (Some "request to MeiliSearch failed")
    (snd (ProcessDocumentJob.processDocumentJob (Demo.job "j1" Demo.fox 0)
            (Demo.world false false))).
Proof.
  split; [cbn; lia |].
  apply (failed_attempt_marks_document_failed (Demo.job "j1" Demo.fox 0) "D"
           (Demo.world false false) _ (Demo.doc "D" PENDING)
           (Error "request to MeiliSearch failed")).
  - repeat split; [discriminate | eexists; reflexivity].
  - reflexivity.
  - discriminate.
  - vm_compute. reflexivity.
Defined.

(** ** Duplicate delivery *)

Lemma completed_job_short_circuits (job : Job) (documentId : string)
  (w : World) (d : DocumentData) :
  wellFormed job documentId ->
  documents (db w) !! documentId = Some d ->
  processingStatus d = COMPLETED ->
  ProcessDocumentJob.processDocumentJob job w
    = (Ok (AlreadyProcessed documentId),
       with_progress w (progress w ++ [(job_id job, 10)])).
Proof.
  intros (Hid & Hvalid & [pd Hpd]) Hdoc Hst.
  unfold ProcessDocumentJob.processDocumentJob, ProcessDocumentJob.attempt,
    ProcessDocumentJob.reportProgress.
  rewrite Hid, Hpd, (truthy_valid _ Hvalid). cbn [negb].
  unfold Document.findById. run. cbn [db with_progress].
  rewrite Hdoc. cbn [fmap option_fmap option_map Document.ofRow processingStatus].
  rewrite bool_decide_eq_true_2 by exact Hst. reflexivity.
Qed.

(** C8: a well-formed job for a document that is already completed
    succeeds with the already-processed result, and the world after it is
    the world before it with one progress report added: the rows of the
    document and of its chunks, the indexes and the cache are the same, and
    no id was drawn for a chunk. *)
Theorem completed_job_is_noop (job : Job) (documentId : string) (w : World)
  (d : DocumentData) :
  wellFormed job documentId ->
  documents (db w) !! documentId = Some d ->
  processingStatus d = COMPLETED ->
  let (result, w') := ProcessDocumentJob.processDocumentJob job w in
  result = Ok (AlreadyProcessed documentId) /\
  db w' = db w /\ meili w' = meili w /\ redis w' = redis w /\ fresh w' = fresh w /\
  progress w' = progress w ++ [(job_id job, 10)].
Proof.
  intros Hjob Hdoc Hst.
  rewrite (completed_job_short_circuits job documentId w d Hjob Hdoc Hst).
  repeat split.
Qed.

(** The job of the first run, delivered once more. *)
Lemma completed_job_is_noop_witness :
  let (result, w') :=
    ProcessDocumentJob.processDocumentJob (Demo.job "j1" Demo.fox 1)
      (Demo.afterFirstRun false) in
  result = Ok (AlreadyProcessed "D") /\
  db w' = db (Demo.afterFirstRun false) /\
  meili w' = meili (Demo.afterFirstRun false) /\
  redis w' = redis (Demo.afterFirstRun false) /\
  fresh w' = fresh (Demo.afterFirstRun false) /\
  progress w' = progress (Demo.afterFirstRun false) ++ [(job_id (Demo.job "j1" Demo.fox 1), 10)].
Proof.
  apply (completed_job_is_noop (Demo.job "j1" Demo.fox 1) "D" (Demo.afterFirstRun false)
           (Document.setStatus COMPLETED None
              (Document.setTotalChunks 1
                 (Document.setTotalPages 5 (Demo.doc "D" PROCESSING))))).
  - repeat split; [discriminate | eexists; reflexivity].
  - vm_compute. reflexivity.
  - reflexivity.
Defined.

(** A job that succeeded is, on a second delivery, a job of a completed
    document: it is answered without a second run. *)
Lemma redelivery_is_noop (job : Job) (w w1 : World) (r : JobResult) :
  ProcessDocumentJob.processDocumentJob job w = (Ok r, w1) ->
  exists documentId,
    ProcessDocumentJob.processDocumentJob job w1
      = (Ok (AlreadyProcessed documentId),
         with_progress w1 (progress w1 ++ [(job_id job, 10)])).
Proof.
  unfold ProcessDocumentJob.processDocumentJob at 1. unfold tryCatch.
  destruct (ProcessDocumentJob.attempt job w) as [[r1 | e1] w1'] eqn:Hattempt.
  2: { destruct (onError_throws job e1 w1') as [w2 ->]. discriminate. }
  intros [= <- <-]. revert Hattempt.
  unfold ProcessDocumentJob.attempt, ProcessDocumentJob.reportProgress. run.
  destruct (job_documentId job) as [documentId |] eqn:Hid; [| discriminate].
  destruct (Js.truthy documentId) eqn:Htruthy; cbn [negb]; [| discriminate].
  destruct (job_parsedData job) as [pd |] eqn:Hpd; [| discriminate].
  assert (Hjob : wellFormed job documentId).
  { repeat split; eauto. intros ->. discriminate. }
  unfold Document.findById. cbn [db with_progress].
  destruct (documents (db w) !! documentId) as [d |] eqn:Hdoc;
    cbn [fmap option_fmap option_map Document.ofRow processingStatus];
    [| discriminate].
  case_bool_decide as Hst.
  - intros [= <- <-]. exists documentId.
    apply (completed_job_short_circuits job documentId _ d Hjob); auto.
  - match goal with
    | |- context [ETLService.processDocument documentId pd ?w0] =>
        destruct (ETLService.processDocument documentId pd w0)
          as [[res | e2] w2] eqn:Hrun
    end; [| discriminate].
    intros [= <- <-]. exists documentId.
    destruct (processDocument_success _ _ _ _ _ Hrun) as (d' & Hd' & Hs' & _).
    apply (completed_job_short_circuits job documentId _ d' Hjob); auto.
Qed.

(** ** The totals of a document *)

Lemma ofDb_totalsMatch (documentId : string) : ofDb (totalsMatch documentId).
Proof.
  intros w w' Hdb. unfold totalsMatch, Document.chunkRows. rewrite Hdb. auto.
Qed.

Lemma keeps_totals_updateStatus (documentId : string) (d : DocumentData)
  (s : DOCUMENT_STATUS) (e : option string) :
  keeps (totalsMatch documentId) (Document.updateStatus d s e) (fun _ => True).
Proof.
  intros w (x & Hx & Hc & Hp). cbn. split; [| exact I].
  unfold totalsMatch, Document.chunkRows in *. cbn.
  rewrite lookup_alter. case_decide as Heq.
  - subst. rewrite Hx. cbn. eexists. split; [reflexivity |]. cbn. auto.
  - eauto.
Qed.

Lemma orPage_set (a b : option Z) : ETLService.orPage a b <> 0%Z.
Proof.
  unfold ETLService.orPage, Js.orNum.
  destruct a as [n |]; [destruct (Z.eqb_spec n 0); [| assumption] |];
    (destruct b as [m |]; [destruct (Z.eqb_spec m 0); [discriminate | assumption]
                          | discriminate]).
Qed.

Lemma paragraphChunk_page (p : Paragraph) (mk : string -> Chunk) (chunkId : string) :
  ETLService.paragraphChunk p = Some mk -> pageSet (mk chunkId).
Proof.
  unfold ETLService.paragraphChunk. cbv zeta.
  destruct (negb _ || _); [discriminate |].
  intros [= <-]. apply orPage_set.
Qed.

Lemma tableChunk_page (t : Table) (mk : string -> Chunk) (chunkId : string) :
  ETLService.tableChunk t = Some mk -> pageSet (mk chunkId).
Proof.
  unfold ETLService.tableChunk. cbv zeta.
  destruct (negb _ || _); [discriminate |].
  intros [= <-]. apply orPage_set.
Qed.

Lemma returns_pages_paragraphs (ps : list Paragraph) :
  returns (ETLService.processParagraphs ps) (Forall pageSet).
Proof.
  induction ps as [| p rest IH]; cbn [ETLService.processParagraphs].
  - apply returns_ret. constructor.
  - apply returns_bind with (R := Forall pageSet).
    + apply returns_tryCatch.
      destruct (ETLService.paragraphChunk p) as [mk |] eqn:Hp.
      * apply returns_bind with (R := fun _ => True);
          [apply returns_freshName |].
        intros chunkId _. apply returns_ret. repeat constructor.
        apply (paragraphChunk_page p mk chunkId Hp).
      * apply returns_ret. constructor.
    + intros here Hhere. apply returns_bind with (R := Forall pageSet);
        [exact IH |].
      intros more Hmore. apply returns_ret. apply Forall_app. auto.
Qed.

Lemma returns_pages_tables (ts : list Table) :
  returns (ETLService.processTables ts) (Forall pageSet).
Proof.
  induction ts as [| t rest IH]; cbn [ETLService.processTables].
  - apply returns_ret. constructor.
  - apply returns_bind with (R := Forall pageSet).
    + apply returns_table_chunks. intros mk chunkId Ht.
      apply (tableChunk_page t mk chunkId Ht).
    + intros here Hhere. apply returns_bind with (R := Forall pageSet);
        [exact IH |].
      intros more Hmore. apply returns_ret. apply Forall_app. auto.
Qed.

Lemma returns_pages_extract (pd : ParsedData) :
  returns (ETLService.extractAndProcessContent pd) (Forall pageSet).
Proof.
  unfold ETLService.extractAndProcessContent.
  apply returns_bind with (R := Forall pageSet).
  { destruct (paragraphs pd); [apply returns_pages_paragraphs |].
    apply returns_ret. constructor. }
  intros pcs Hp. apply returns_bind with (R := fun cs => cs = []).
  { destruct (images pd); [apply returns_processImages |].
    apply returns_ret. reflexivity. }
  intros ics ->. apply returns_bind with (R := Forall pageSet).
  { destruct (tables pd); [apply returns_pages_tables |].
    apply returns_ret. constructor. }
  intros tcs Ht. apply returns_ret. apply Forall_app. auto.
Qed.

Lemma calculateTotalPages_pages (cs : list Chunk) :
  Forall pageSet cs ->
  ETLService.calculateTotalPages cs =
    match map pageNumber cs with
    | [] => 0%Z
    | n :: rest => fold_left Z.max rest n
    end.
Proof.
  intros H. unfold ETLService.calculateTotalPages.
  replace (map (fun c => Js.orNum (Some (pageNumber c)) 1) cs) with (map pageNumber cs);
    [reflexivity |].
  induction H as [| c rest Hc Hrest IH]; [reflexivity |]. cbn. f_equal; [| exact IH].
  destruct (Z.eqb_spec (pageNumber c) 0); [contradiction | reflexivity].
Qed.

(** [storeChunks] on a document with a row: every chunk is stored, in
    order, and the count of the row follows. *)
Lemma storeChunks_counts (document : DocumentData) (cs : list Chunk) (w : World)
  (pages : Z) :
  countedWith (id document) pages w ->
  exists ids w',
    ETLService.storeChunks document cs w = (Ok ids, w') /\
    countedWith (id document) pages w' /\
    map page_number (Document.chunkRows (id document) w')
      = map page_number (Document.chunkRows (id document) w) ++ map pageNumber cs.
Proof.
  revert w. induction cs as [| c rest IH]; intros w Hw.
  - exists [], w. cbn. rewrite app_nil_r. auto.
  - cbn [ETLService.storeChunks].
    destruct Hw as (x & Hx & Hcount & Hpages).
    unfold Document.addChunk, freshName. run. cbn [db with_fresh].
    rewrite Hx. cbn [is_Some]. rewrite bool_decide_eq_true_2 by eauto.
    rewrite andb_false_r.
    match goal with
    | |- context [ETLService.storeChunks document rest ?w0] =>
        destruct (IH w0) as (ids & w' & Hrun & Hw' & Hrows)
    end.
    { unfold countedWith, Document.chunkRows, Document.countChunks. cbn.
      rewrite lookup_alter, decide_True by reflexivity. rewrite Hx. cbn.
      eexists. split; [reflexivity |]. cbn. auto. }
    rewrite Hrun. eexists _, w'. split; [reflexivity |]. split; [exact Hw' |].
    rewrite Hrows. unfold Document.chunkRows. cbn.
    rewrite filter_app, filter_cons_True, filter_nil by reflexivity.
    rewrite map_app, <- app_assoc. reflexivity.
Qed.

Lemma ofDb_freshDocument (documentId : string) : ofDb (freshDocument documentId).
Proof.
  intros w w' Hdb. unfold freshDocument, hasRow, Document.chunkRows.
  rewrite Hdb. auto.
Qed.

Lemma filter_filter_out (documentId : string) (rows : list ChunkRow) :
  filter (fun r => document_id r = documentId) rows = [] ->
  filter (fun r => document_id r = documentId)
         (filter (fun r => document_id r <> documentId) rows) = [].
Proof.
  intros H. induction rows as [| r rest IH]; [reflexivity |].
  rewrite filter_cons in H. rewrite filter_cons.
  destruct (decide (document_id r = documentId)) as [Heq | Hne].
  - discriminate.
  - rewrite decide_True by exact Hne.
    rewrite filter_cons_False by exact Hne. auto.
Qed.

Lemma processLoaded_first_run (document : DocumentData) (documentId : string)
  (pd : ParsedData) :
  id document = documentId ->
  totalChunks document = 0 ->
  triple (freshDocument documentId)
         (ETLService.processLoaded document documentId pd)
         (fun _ w => totalsMatch documentId w)
         (fun _ w => totalsMatch documentId w).
Proof.
  intros Hid Hzero. unfold ETLService.processLoaded.
  apply triple_bind with
    (R := fun d w => (id d = documentId /\ totalChunks d = 0) /\ freshDocument documentId w).
  { intros w [Hrow Hrows]. cbn. split; [auto |]. split.
    - apply (keeps_row_updateStatus documentId document PROCESSING None w Hrow).
    - exact Hrows. }
  intros document'. apply triple_pure. intros [Hid' Hzero'].
  apply triple_bind with
    (R := fun cs w => Forall pageSet cs /\ freshDocument documentId w).
  { eapply triple_weaken.
    - apply (returns_frame_triple (freshDocument documentId) _ (Forall pageSet));
        [apply ofDb_freshDocument | apply dbFrame_extract | apply returns_pages_extract].
    - auto.
    - cbn. tauto.
    - cbn. tauto. }
  intros cs. apply triple_pure. intros Hpages. cbv zeta.
  set (pages := ETLService.calculateTotalPages cs).
  apply triple_bind with
    (R := fun _ w => countedWith documentId pages w /\
                     Document.chunkRows documentId w = []).
  { intros w [Hrow Hrows]. unfold countedWith, Document.chunkRows in *. cbn.
    rewrite Hid', lookup_insert_eq.
    assert (Hkept : filter (fun r => document_id r = documentId)
                      (if foreign_keys (db w) &&
                          bool_decide (is_Some (documents (db w) !! documentId))
                       then filter (fun r => document_id r <> documentId) (chunks (db w))
                       else chunks (db w)) = []).
    { destruct (foreign_keys (db w) && _);
        [apply filter_filter_out |]; exact Hrows. }
    split; [| exact Hkept].
    eexists. split; [reflexivity |]. cbn. split; [| reflexivity].
    rewrite Hzero', Hkept. reflexivity. }
  intros _.
  apply triple_bind with (R := fun _ w => totalsMatch documentId w).
  { intros w [Hw Hrows].
    pose proof (storeChunks_counts (Document.setTotalPages pages document') cs w pages)
      as Hstore.
    cbn [id Document.setTotalPages] in Hstore. rewrite Hid' in Hstore.
    destruct (Hstore Hw) as (ids & w' & Hrun & (x & Hx & Hcount & Hp) & Hmap).
    rewrite Hrun. exists x. split; [exact Hx |]. split; [exact Hcount |].
    rewrite Hp. unfold maxPage. rewrite Hmap, Hrows. cbn [map app].
    apply calculateTotalPages_pages. exact Hpages. }
  intros chunkIds.
  apply triple_bind with (R := fun _ w => totalsMatch documentId w).
  { apply keeps_triple, dbFrame_keeps;
      [apply ofDb_totalsMatch | apply dbFrame_createDocumentIndex]. }
  intros _.
  apply triple_bind with (R := fun _ w => totalsMatch documentId w).
  { apply keeps_triple, dbFrame_keeps;
      [apply ofDb_totalsMatch | apply dbFrame_indexDocumentChunks]. }
  intros _.
  apply triple_bind with (R := fun _ w => totalsMatch documentId w).
  { apply keeps_triple, keeps_totals_updateStatus. }
  intros document''. apply triple_ret. auto.
Qed.

(** After a second run the totals can differ from the rows. With
    foreign keys off, the run of the job of a reprocess request leaves
    [totalPages] at 1 over chunk rows on pages 5 and 1, and a second run
    that extracts nothing leaves it at 0 over a row on page 5; with
    foreign keys on, that run leaves [totalChunks] at 1 over no row. *)
Lemma totals_stale_after_rerun :
  ((processingStatus <$> documents (db (Demo.afterReprocess false)) !! "D")
     = Some COMPLETED /\
   (totalPages <$> documents (db (Demo.afterReprocess false)) !! "D") = Some 1%Z /\
   map page_number (Document.chunkRows "D" (Demo.afterReprocess false)) = [5%Z; 1%Z] /\
   maxPage (Document.chunkRows "D" (Demo.afterReprocess false)) = 5%Z) /\
  ((processingStatus <$> documents (db (Demo.afterEmptyRerun false)) !! "D")
     = Some COMPLETED /\
   (totalPages <$> documents (db (Demo.afterEmptyRerun false)) !! "D") = Some 0%Z /\
   maxPage (Document.chunkRows "D" (Demo.afterEmptyRerun false)) = 5%Z) /\
  ((processingStatus <$> documents (db (Demo.afterEmptyRerun true)) !! "D")
     = Some COMPLETED /\
   (totalChunks <$> documents (db (Demo.afterEmptyRerun true)) !! "D") = Some 1 /\
   length (Document.chunkRows "D" (Demo.afterEmptyRerun true)) = 0).
Proof. vm_compute. repeat split. Qed.

(** A first run: a run on a document that has a row with a count of 0 and
    no chunk row leaves, however it ends, a row whose [totalChunks] is the
    number of the chunk rows of the document and whose [totalPages] is the
    largest page number among them, 0 when there is none. *)
Theorem first_run_totals (documentId : string) (parsedData : ParsedData)
  (w : World) (d : DocumentData) :
  documents (db w) !! documentId = Some d ->
  totalChunks d = 0 ->
  Document.chunkRows documentId w = [] ->
  totalsMatch documentId
    (snd (ETLService.processDocument documentId parsedData w)).
Proof.
  intros Hdoc Hzero Hrows.
  unfold ETLService.processDocument, Document.findById. run.
  rewrite Hdoc. cbn [fmap option_fmap option_map].
  pose proof (processLoaded_first_run (Document.ofRow documentId d) documentId
                parsedData eq_refl Hzero w) as Hrun.
  destruct (ETLService.processLoaded _ _ _ w) as [[r | e] w1].
  - apply Hrun. split; [unfold hasRow; rewrite Hdoc; eauto | exact Hrows].
  - assert (Hw1 : totalsMatch documentId w1).
    { apply Hrun. split; [unfold hasRow; rewrite Hdoc; eauto | exact Hrows]. }
    pose proof (keeps_totals_updateStatus documentId (Document.ofRow documentId d)
                  FAILED (Some (message e)) w1 Hw1) as Hfail.
    destruct (Document.updateStatus _ _ _ w1) as [[d' | e'] w2]; cbn; tauto.
Qed.

(** The first run of the demo document, with foreign keys on. *)
Lemma first_run_totals_witness :
  totalsMatch "D"
    (snd (ETLService.processDocument "D" Demo.fox (Demo.world true true))).
Proof.
  apply (first_run_totals "D" Demo.fox (Demo.world true true) (Demo.doc "D" PENDING));
    reflexivity.
Defined.

(** ** Reprocessing *)

Lemma createDocumentIndex_keeps_index (documentId : string) (w : World)
  (docs : list SearchDocument) :
  indexes (meili w) !! IndexService.getIndexName documentId = Some docs ->
  indexes (meili (snd (IndexService.createDocumentIndex documentId w)))
    = indexes (meili w).
Proof.
  intros Hdocs.
  unfold IndexService.createDocumentIndex, MeiliSearchClient.isHealthy,
    MeiliSearchClient.connect, MeiliSearchClient.createIndex,
    MeiliSearchClient.configureIndex, MeiliSearchClient.serverCreateIndex,
    MeiliSearchClient.requireConnected, MeiliSearchClient.request,
    MeiliSearchClient.setConnected, MeiliSearchClient.setIndexes.
  run.
  destruct (isConnected (meili w)) eqn:Hc, (meili_up (meili w)) eqn:Hu;
    repeat first
      [ rewrite Hc | rewrite Hu | rewrite Hdocs
      | rewrite bool_decide_eq_true_2 by reflexivity
      | progress cbn ];
    reflexivity.
Qed.

(** C1: [createDocumentIndex] on a document that has an index keeps that
    index and what it holds. So after a first run, a reprocess request and
    the run of the job it queues, the document is completed and has its
    one index, but that index holds the entry of the first run beside the
    entry of the second; with foreign keys off the chunk rows of the first
    run are there as well. Nothing is deleted before the second run
    writes, where the specification has the index and the chunks deleted
    and made again. *)
Theorem reprocess_keeps_stale_entries (documentId : string) (w : World)
  (docs : list SearchDocument) :
  (indexes (meili w) !! IndexService.getIndexName documentId = Some docs ->
   indexes (meili (snd (IndexService.createDocumentIndex documentId w)))
     = indexes (meili w)) /\
  ((processingStatus <$> documents (db (Demo.afterReprocess false)) !! "D")
     = Some COMPLETED /\
   size (indexes (meili (Demo.afterReprocess false))) = 1 /\
   (map sd_content <$>
      indexes (meili (Demo.afterReprocess false)) !! IndexService.getIndexName "D")
     = Some ["The quick brown fox jumps over the lazy dog";
             "Document report.pdf reprocessing"] /\
   map row_content (Document.chunkRows "D" (Demo.afterReprocess false))
     = ["The quick brown fox jumps over the lazy dog";
        "Document report.pdf reprocessing"]) /\
  ((processingStatus <$> documents (db (Demo.afterReprocess true)) !! "D")
     = Some COMPLETED /\
   size (indexes (meili (Demo.afterReprocess true))) = 1 /\
   (map sd_content <$>
      indexes (meili (Demo.afterReprocess true)) !! IndexService.getIndexName "D")
     = Some ["The quick brown fox jumps over the lazy dog";
             "Document report.pdf reprocessing"] /\
   map row_content (Document.chunkRows "D" (Demo.afterReprocess true))
     = ["Document report.pdf reprocessing"]).
Proof.
  split; [apply createDocumentIndex_keeps_index |].
  split; vm_compute; repeat split.
Qed.

(** [reindexDocument], which the pipeline does not call, deletes the index
    first: after it the index holds the new entries only. *)
Lemma reindex_replaces_entries :
  let cs := [ {| chunk_id := "chunk_9"; chunk_type := PARAGRAPH;
                 content := "Document report.pdf reprocessing"; pageNumber := 1;
                 position := []; ocrConfidence := None;
                 metadata := ParagraphMeta 32 32 None |} ] in
  (map sd_content <$>
     indexes (meili (snd (IndexService.reindexDocument "D" cs (Demo.afterFirstRun false))))
       !! IndexService.getIndexName "D")
    = Some ["Document report.pdf reprocessing"].
Proof. vm_compute. reflexivity. Qed.

(** * Further properties of the code *)

(** ** Strings as lists of characters *)

Lemma chars_str (l : list ascii) : Js.chars (Js.str l) = l.
Proof. apply list_ascii_of_string_of_list_ascii. Qed.

Lemma str_chars (s : string) : Js.str (Js.chars s) = s.
Proof. apply string_of_list_ascii_of_string. Qed.

Lemma length_chars (s : string) : length (Js.chars s) = String.length s.
Proof. unfold Js.chars. induction s; simpl; congruence. Qed.

Lemma length_str (l : list ascii) : String.length (Js.str l) = length l.
Proof. rewrite <- length_chars, chars_str. reflexivity. Qed.

Lemma chars_app (a b : string) : Js.chars (a +:+ b) = Js.chars a ++ Js.chars b.
Proof.
  induction a as [|c a IH]; [reflexivity |].
  change (Js.chars (String c a +:+ b)) with (c :: Js.chars (a +:+ b)).
  rewrite IH. reflexivity.
Qed.

Lemma truthy_chars (s : string) : Js.truthy s = false -> s = EmptyString.
Proof. destruct s; [reflexivity | discriminate]. Qed.

(** ** What the steps of the cleaning functions keep *)

Section Steps.

Variables p q : ascii -> bool.

(** [q] removes nothing that [p] selects. *)
Hypothesis disjoint : forall c, q c = true -> p c = false.

Lemma filter_dropWhile (l : list ascii) :
  List.filter p (Js.dropWhile q l) = List.filter p l.
Proof.
  induction l as [|c r IH]; cbn; [reflexivity |].
  destruct (q c) eqn:Hq; [rewrite (disjoint c Hq); assumption | reflexivity].
Qed.

Lemma filter_trimChars_gen (l : list ascii) :
  List.filter p (rev (Js.dropWhile q (rev (Js.dropWhile q l)))) = List.filter p l.
Proof.
  rewrite List.filter_rev, filter_dropWhile, List.filter_rev, rev_involutive.
  apply filter_dropWhile.
Qed.

Lemma filter_replaceRuns (by_ : list ascii) (inRun : bool) (l : list ascii) :
  List.filter p by_ = [] ->
  List.filter p (Js.replaceRuns q by_ inRun l) = List.filter p l.
Proof.
  intros Hby. revert inRun.
  induction l as [|c r IH]; intros inRun; cbn; [reflexivity |].
  destruct (q c) eqn:Hq.
  - rewrite (disjoint c Hq). destruct inRun; [apply IH |].
    rewrite List.filter_app, Hby. apply IH.
  - cbn. rewrite IH. reflexivity.
Qed.

Lemma filter_replaceEach (by_ : list ascii) (l : list ascii) :
  List.filter p by_ = [] ->
  List.filter p (Js.replaceEach q by_ l) = List.filter p l.
Proof.
  intros Hby. unfold Js.replaceEach.
  induction l as [|c r IH]; cbn; [reflexivity |].
  rewrite List.filter_app, IH.
  destruct (q c) eqn:Hq.
  - rewrite Hby, (disjoint c Hq). reflexivity.
  - cbn. destruct (p c); reflexivity.
Qed.

End Steps.

Lemma filter_filter_keep (p q : ascii -> bool) (l : list ascii) :
  (forall c, p c = true -> q c = true) ->
  List.filter p (List.filter q l) = List.filter p l.
Proof.
  intros H. induction l as [|c r IH]; cbn; [reflexivity |].
  destruct (q c) eqn:Hq; cbn.
  - rewrite IH. reflexivity.
  - destruct (p c) eqn:Hp; [rewrite (H c Hp) in Hq; discriminate | assumption].
Qed.

Lemma replaceEach_same (p : ascii -> bool) (a : ascii) (l : list ascii) :
  (forall c, p c = true -> c = a) -> Js.replaceEach p [a] l = l.
Proof.
  intros H. unfold Js.replaceEach.
  induction l as [|c r IH]; cbn; [reflexivity |].
  rewrite IH. destruct (p c) eqn:Hp; [rewrite (H c Hp) |]; reflexivity.
Qed.

Lemma filter_collapsePunct (p : ascii -> bool) (l : list ascii) :
  (forall c, ETLService.isPunct c = true -> p c = false) ->
  List.filter p (ETLService.collapsePunct l) = List.filter p l.
Proof.
  intros H. induction l as [|c r IH]; [reflexivity |].
  cbn [ETLService.collapsePunct].
  destruct (ETLService.isPunct c) eqn:Hc; cbn [andb].
  - destruct r as [|c' r']; [reflexivity |].
    destruct (ETLService.isPunct c') eqn:Hc'.
    + cbn [List.filter]. rewrite (H c Hc). exact IH.
    + cbn [List.filter]. rewrite (H c Hc). exact IH.
  - cbn [List.filter]. rewrite IH. reflexivity.
Qed.

Lemma word_not_space (c : ascii) : Js.isSpace c = true -> Js.isWord c = false.
Proof. by_ascii c. Qed.

Lemma word_not_punct (c : ascii) : ETLService.isPunct c = true -> Js.isWord c = false.
Proof. by_ascii c. Qed.

Lemma word_allowed (c : ascii) : Js.isWord c = true -> ETLService.allowed c = true.
Proof. by_ascii c. Qed.

Lemma quote_is (n : nat) (c : ascii) :
  n < 256 -> Js.oneOf [n] c = true -> c = Js.chr n.
Proof.
  intros Hn H. unfold Js.oneOf in H. cbn in H.
  rewrite orb_false_r in H. apply Nat.eqb_eq in H.
  unfold Js.code in H. rewrite <- H. unfold Js.chr.
  symmetry. apply ascii_nat_embedding.
Qed.

Lemma cleanText_chars (text : string) :
  Js.chars (ETLService.cleanText text) =
  Js.trimChars
    (ETLService.collapsePunct
       (List.filter ETLService.allowed
          (Js.replaceRuns Js.isSpace [Js.space] false (Js.chars text)))).
Proof.
  unfold ETLService.cleanText.
  destruct (Js.truthy text) eqn:Ht.
  - rewrite chars_str.
    rewrite (replaceEach_same _ _ _ (fun c => quote_is 39 c ltac:(lia))).
    rewrite (replaceEach_same _ _ _ (fun c => quote_is 34 c ltac:(lia))).
    reflexivity.
  - apply truthy_chars in Ht. subst. reflexivity.
Qed.

Lemma cleanText_words (text : string) :
  List.filter Js.isWord (Js.chars (ETLService.cleanText text))
    = List.filter Js.isWord (Js.chars text).
Proof.
  rewrite cleanText_chars. unfold Js.trimChars.
  rewrite (filter_trimChars_gen _ _ word_not_space).
  rewrite (filter_collapsePunct _ _ word_not_punct).
  rewrite (filter_filter_keep _ _ _ word_allowed).
  apply (filter_replaceRuns _ _ word_not_space). reflexivity.
Qed.

Lemma length_filter_chars (p : ascii -> bool) (s : string) :
  length (List.filter p (Js.chars s)) <= String.length s.
Proof.
  rewrite <- length_chars. induction (Js.chars s) as [|c r IH]; cbn; [lia |].
  destruct (p c); cbn; lia.
Qed.

(** ** etlService.cleanText *)

(** X1: cleaning a text loses none of its letters, digits and underscores
    and keeps them in their order: the cleaned text has at least as many
    characters as the text has of these. *)
Theorem cleanText_keeps_word_characters (text : string) :
  List.filter Js.isWord (Js.chars (ETLService.cleanText text))
    = List.filter Js.isWord (Js.chars text) /\
  length (List.filter Js.isWord (Js.chars text))
    <= String.length (ETLService.cleanText text).
Proof.
  split; [apply cleanText_words |].
  rewrite <- cleanText_words. apply length_filter_chars.
Qed.

(** ** Trimming *)

Lemma dropWhile_suffix (q : ascii -> bool) (l : list ascii) :
  exists pre, l = pre ++ Js.dropWhile q l.
Proof.
  induction l as [|c r [pre IH]]; [exists []; reflexivity |].
  cbn. destruct (q c); [exists (c :: pre); cbn; congruence | exists []; reflexivity].
Qed.

Lemma dropWhile_fixed (q : ascii -> bool) (l : list ascii) :
  Js.dropWhile q l = l <->
  match l with [] => True | c :: _ => q c = false end.
Proof.
  destruct l as [|c r]; cbn; [tauto |].
  destruct (q c) eqn:Hq; [| tauto].
  split; [| discriminate].
  intros H. destruct (dropWhile_suffix q r) as [pre Hpre].
  apply (f_equal (@length ascii)) in H. rewrite Hpre in H at 2.
  cbn in H. rewrite length_app in H. lia.
Qed.

Lemma dropWhile_idem (q : ascii -> bool) (l : list ascii) :
  Js.dropWhile q (Js.dropWhile q l) = Js.dropWhile q l.
Proof.
  induction l as [|c r IH]; [reflexivity |].
  cbn. destruct (q c) eqn:Hq; [exact IH |].
  cbn. rewrite Hq. reflexivity.
Qed.

Lemma dropWhile_rev_kept (q : ascii -> bool) (l : list ascii) :
  Js.dropWhile q (rev l) = rev l ->
  Js.dropWhile q (rev (Js.dropWhile q l)) = rev (Js.dropWhile q l).
Proof.
  intros H. destruct (dropWhile_suffix q l) as [pre Hpre].
  destruct (Js.dropWhile q l) as [|c r] eqn:Hd; [reflexivity |].
  rewrite Hpre, rev_app_distr in H.
  apply dropWhile_fixed in H. apply dropWhile_fixed.
  destruct (rev (c :: r)) as [|x y] eqn:Hr.
  - apply (f_equal (@length ascii)) in Hr. rewrite length_rev in Hr. discriminate.
  - exact H.
Qed.

Lemma trimChars_trimmed (l : list ascii) : trimmed (Js.trimChars l).
Proof.
  unfold trimmed, Js.trimChars. split.
  - apply dropWhile_rev_kept. rewrite rev_involutive. apply dropWhile_idem.
  - rewrite rev_involutive. apply dropWhile_idem.
Qed.

Lemma trimChars_fixed (l : list ascii) : trimmed l -> Js.trimChars l = l.
Proof.
  intros [H1 H2]. unfold Js.trimChars. rewrite H1, H2. apply rev_involutive.
Qed.

Lemma trim_fixed (s : string) : trimmed (Js.chars s) -> Js.trim s = s.
Proof.
  intros H. unfold Js.trim. rewrite (trimChars_fixed _ H). apply str_chars.
Qed.

Lemma filter_trimChars (p : ascii -> bool) (l : list ascii) :
  (forall c, Js.isSpace c = true -> p c = false) ->
  List.filter p (Js.trimChars l) = List.filter p l.
Proof. intros H. apply filter_trimChars_gen. exact H. Qed.

(** ** What holds of every character, and of every two neighbours *)

Lemma Forall_dropWhile (P : ascii -> Prop) (q : ascii -> bool) (l : list ascii) :
  Forall P l -> Forall P (Js.dropWhile q l).
Proof.
  intros H. destruct (dropWhile_suffix q l) as [pre Hpre].
  rewrite Hpre in H. apply Forall_app in H. tauto.
Qed.

Lemma Forall_trimChars (P : ascii -> Prop) (l : list ascii) :
  Forall P l -> Forall P (Js.trimChars l).
Proof.
  intros H. unfold Js.trimChars.
  apply Forall_rev, Forall_dropWhile, Forall_rev, Forall_dropWhile, H.
Qed.

Lemma Forall_collapsePunct (P : ascii -> Prop) (l : list ascii) :
  Forall P l -> Forall P (ETLService.collapsePunct l).
Proof.
  induction 1 as [|c r Hc Hr IH]; [constructor |].
  cbn [ETLService.collapsePunct].
  destruct (ETLService.isPunct c && _); [exact IH | constructor; assumption].
Qed.

Lemma Forall_filter_bool (P : ascii -> Prop) (q : ascii -> bool) (l : list ascii) :
  Forall P l -> Forall P (List.filter q l).
Proof.
  induction 1 as [|c r Hc Hr IH]; [constructor |].
  cbn. destruct (q c); [constructor |]; assumption.
Qed.

Lemma Forall_filter_true (q : ascii -> bool) (l : list ascii) :
  Forall (fun c => q c = true) (List.filter q l).
Proof.
  induction l as [|c r IH]; [constructor |].
  cbn. destruct (q c) eqn:Hq; [constructor |]; assumption.
Qed.

Lemma Forall_replaceRuns (P : ascii -> Prop) (q : ascii -> bool) (a : ascii)
  (inRun : bool) (l : list ascii) :
  P a -> (forall c, q c = false -> P c) ->
  Forall P (Js.replaceRuns q [a] inRun l).
Proof.
  intros Ha H. revert inRun.
  induction l as [|c r IH]; intros inRun; cbn; [constructor |].
  destruct (q c) eqn:Hq.
  - destruct inRun; [apply IH | constructor; [exact Ha | apply IH]].
  - constructor; [apply H, Hq | apply IH].
Qed.

Lemma Forall_replaceEach (P : ascii -> Prop) (q : ascii -> bool) (a : ascii)
  (l : list ascii) :
  P a -> (forall c, q c = false -> P c) ->
  Forall P (Js.replaceEach q [a] l).
Proof.
  intros Ha H. unfold Js.replaceEach.
  induction l as [|c r IH]; cbn; [constructor |].
  destruct (q c) eqn:Hq; cbn; constructor; auto.
Qed.

Lemma apart_nil (p : ascii -> bool) : apart p [].
Proof. intros [|x l1] a b l2 H; discriminate. Qed.

Lemma apart_cons (p : ascii -> bool) (c : ascii) (l : list ascii) :
  apart p (c :: l) <->
  match l with [] => True | c' :: _ => p c && p c' = false end /\ apart p l.
Proof.
  split.
  - intros H. split.
    + destruct l as [|c' r]; [exact I |]. apply (H [] c c' r). reflexivity.
    + intros l1 a b l2 E. apply (H (c :: l1) a b l2). rewrite E. reflexivity.
  - intros [Hh Ht] l1 a b l2 E. destruct l1 as [|x l1]; cbn in E.
    + injection E as E1 E2. subst. exact Hh.
    + injection E as E1 E2. subst. apply (Ht l1 a b l2 eq_refl).
Qed.

Lemma apart_app_r (p : ascii -> bool) (l1 l2 : list ascii) :
  apart p (l1 ++ l2) -> apart p l2.
Proof.
  intros H l a b l' E. apply (H (l1 ++ l) a b l').
  rewrite E, app_assoc. reflexivity.
Qed.

Lemma apart_rev (p : ascii -> bool) (l : list ascii) :
  apart p l -> apart p (rev l).
Proof.
  intros H l1 a b l2 E.
  apply (f_equal (@rev ascii)) in E. rewrite rev_involutive in E.
  rewrite rev_app_distr in E. cbn in E. rewrite <- !app_assoc in E. cbn in E.
  rewrite andb_comm. apply (H _ _ _ _ E).
Qed.

Lemma apart_dropWhile (p q : ascii -> bool) (l : list ascii) :
  apart p l -> apart p (Js.dropWhile q l).
Proof.
  intros H. destruct (dropWhile_suffix q l) as [pre Hpre].
  rewrite Hpre in H. apply (apart_app_r _ _ _ H).
Qed.

Lemma apart_trimChars (p : ascii -> bool) (l : list ascii) :
  apart p l -> apart p (Js.trimChars l).
Proof.
  intros H. unfold Js.trimChars.
  apply apart_rev, apart_dropWhile, apart_rev, apart_dropWhile, H.
Qed.

Lemma apart_collapsePunct (l : list ascii) :
  apart ETLService.isPunct (ETLService.collapsePunct l).
Proof.
  induction l as [|c r IH]; [apply apart_nil |].
  cbn [ETLService.collapsePunct].
  destruct (ETLService.isPunct c) eqn:Hc; cbn [andb].
  - destruct r as [|c' r'].
    + cbn. apply apart_cons. split; [exact I | apply apart_nil].
    + destruct (ETLService.isPunct c') eqn:Hc'; [exact IH |].
      apply apart_cons. split; [| exact IH].
      cbn [ETLService.collapsePunct]. rewrite Hc'. cbn [andb].
      rewrite Hc'. apply andb_false_r.
  - apply apart_cons. split; [| exact IH].
    destruct (ETLService.collapsePunct r); [exact I | rewrite Hc; reflexivity].
Qed.

Lemma apart_replaceRuns (q : ascii -> bool) (a : ascii) (inRun : bool)
  (l : list ascii) :
  apart q (Js.replaceRuns q [a] inRun l) /\
  (inRun = true ->
   match Js.replaceRuns q [a] inRun l with [] => True | c :: _ => q c = false end).
Proof.
  revert inRun. induction l as [|c r IH]; intros inRun; cbn.
  - split; [apply apart_nil | trivial].
  - destruct (q c) eqn:Hq.
    + destruct inRun.
      * apply IH.
      * split; [| discriminate]. cbn. apply apart_cons.
        destruct (IH true) as [H1 H2]. split; [| exact H1].
        specialize (H2 eq_refl).
        destruct (Js.replaceRuns q [a] true r); [exact I |].
        rewrite H2. apply andb_false_r.
    + split; [| intros _; exact Hq].
      apply apart_cons. split; [| apply IH].
      destruct (Js.replaceRuns q [a] false r); [exact I | rewrite Hq; reflexivity].
Qed.

(** ** Lengths *)

Lemma length_dropWhile (q : ascii -> bool) (l : list ascii) :
  length (Js.dropWhile q l) <= length l.
Proof.
  destruct (dropWhile_suffix q l) as [pre Hpre].
  rewrite Hpre at 2. rewrite length_app. lia.
Qed.

Lemma length_trimChars (l : list ascii) : length (Js.trimChars l) <= length l.
Proof.
  unfold Js.trimChars. rewrite length_rev.
  etransitivity; [apply length_dropWhile |]. rewrite length_rev.
  apply length_dropWhile.
Qed.

Lemma length_collapsePunct (l : list ascii) :
  length (ETLService.collapsePunct l) <= length l.
Proof.
  induction l as [|c r IH]; [reflexivity |].
  cbn [ETLService.collapsePunct].
  destruct (ETLService.isPunct c && _); cbn; lia.
Qed.

Lemma length_replaceRuns (q : ascii -> bool) (a : ascii) (inRun : bool)
  (l : list ascii) :
  length (Js.replaceRuns q [a] inRun l) <= length l.
Proof.
  revert inRun. induction l as [|c r IH]; intros inRun; cbn; [reflexivity |].
  destruct (q c); [destruct inRun |]; cbn;
    first [specialize (IH true); lia | specialize (IH false); lia].
Qed.

Lemma length_filter_le (q : ascii -> bool) (l : list ascii) :
  length (List.filter q l) <= length l.
Proof. induction l as [|c r IH]; cbn; [| destruct (q c); cbn]; lia. Qed.

Lemma cleanText_trimmed (text : string) :
  trimmed (Js.chars (ETLService.cleanText text)).
Proof. rewrite cleanText_chars. apply trimChars_trimmed. Qed.

Lemma cleanText_length (text : string) :
  String.length (ETLService.cleanText text) <= String.length text.
Proof.
  rewrite <- !length_chars, cleanText_chars.
  etransitivity; [apply length_trimChars |].
  etransitivity; [apply length_collapsePunct |].
  etransitivity; [apply length_filter_le |].
  apply length_replaceRuns.
Qed.

(** X2: the cleaned text holds only the characters the function allows, of
    white space only single spaces between its ends, and never two
    punctuation marks in a row; it is not longer than the text. Two spaces
    in a row can remain, where a character between them was removed. *)
Theorem cleanText_normal_form (text : string) :
  let cleaned := ETLService.cleanText text in
  Forall (fun c => ETLService.allowed c = true /\ plainSpace c) (Js.chars cleaned) /\
  apart ETLService.isPunct (Js.chars cleaned) /\
  trimmed (Js.chars cleaned) /\
  Js.trim cleaned = cleaned /\
  String.length cleaned <= String.length text.
Proof.
  cbn zeta. pose proof (cleanText_trimmed text) as Ht.
  split; [| split; [| split; [| split]]]; [| | exact Ht | apply trim_fixed, Ht
                                          | apply cleanText_length];
    rewrite cleanText_chars.
  - apply Forall_trimChars, Forall_collapsePunct.
    apply Forall_and. split.
    + apply Forall_filter_true.
    + apply Forall_filter_bool, Forall_replaceRuns.
      * intros _. reflexivity.
      * intros c Hc Hs. congruence.
  - apply apart_trimChars, apart_collapsePunct.
Qed.

(** ** searchService.cleanSearchQuery *)

Lemma chars_toLowerCase (s : string) :
  Js.chars (Js.toLowerCase s) = map Js.toLowerChar (Js.chars s).
Proof. unfold Js.toLowerCase. apply chars_str. Qed.

Lemma chars_trim (s : string) : Js.chars (Js.trim s) = Js.trimChars (Js.chars s).
Proof. unfold Js.trim. apply chars_str. Qed.

Lemma cleanSearchQuery_chars (query : string) :
  Js.chars (SearchService.cleanSearchQuery query) =
  Js.trimChars
    (Js.replaceRuns Js.isSpace [Js.space] false
       (Js.replaceEach (fun c => negb (SearchService.keptInQuery c)) [Js.space]
          (map Js.toLowerChar (Js.trimChars (Js.chars query))))).
Proof.
  unfold SearchService.cleanSearchQuery.
  rewrite chars_str, chars_toLowerCase, chars_trim. reflexivity.
Qed.

Lemma toLowerChar_idem (c : ascii) :
  Js.toLowerChar (Js.toLowerChar c) = Js.toLowerChar c.
Proof. by_ascii c. Qed.

Lemma toLowerChar_space (c : ascii) : Js.isSpace (Js.toLowerChar c) = Js.isSpace c.
Proof. by_ascii c. Qed.

Lemma toLowerChar_word (c : ascii) : Js.isWord (Js.toLowerChar c) = Js.isWord c.
Proof. by_ascii c. Qed.

Lemma word_kept (c : ascii) :
  negb (SearchService.keptInQuery c) = true -> Js.isWord c = false.
Proof. by_ascii c. Qed.

Lemma space_kept (c : ascii) :
  Js.isSpace c = true -> SearchService.keptInQuery c = true.
Proof. by_ascii c. Qed.

Lemma Forall_replaceEach_from (P0 P : ascii -> Prop) (q : ascii -> bool) (a : ascii)
  (l : list ascii) :
  P a -> (forall c, P0 c -> q c = false -> P c) ->
  Forall P0 l -> Forall P (Js.replaceEach q [a] l).
Proof.
  intros Ha H. unfold Js.replaceEach.
  induction 1 as [|c r Hc Hr IH]; cbn; [constructor |].
  destruct (q c) eqn:Hq; cbn; constructor; auto.
Qed.

Lemma Forall_replaceRuns_from (P0 P : ascii -> Prop) (q : ascii -> bool) (a : ascii)
  (inRun : bool) (l : list ascii) :
  P a -> (forall c, P0 c -> q c = false -> P c) ->
  Forall P0 l -> Forall P (Js.replaceRuns q [a] inRun l).
Proof.
  intros Ha H Hl. revert inRun.
  induction Hl as [|c r Hc Hr IH]; intros inRun; cbn; [constructor |].
  destruct (q c) eqn:Hq.
  - destruct inRun; [apply IH | constructor; [exact Ha | apply IH]].
  - constructor; [apply H; assumption | apply IH].
Qed.

Lemma cleanSearchQuery_queryChars (query : string) :
  Forall queryChar (Js.chars (SearchService.cleanSearchQuery query)).
Proof.
  rewrite cleanSearchQuery_chars.
  apply Forall_trimChars.
  apply (Forall_replaceRuns_from
           (fun c => SearchService.keptInQuery c = true /\ Js.toLowerChar c = c)).
  - repeat split.
  - intros c [Hk Hl] Hs. repeat split; try assumption. intros Hs'. congruence.
  - apply (Forall_replaceEach_from (fun c => Js.toLowerChar c = c)).
    + split; reflexivity.
    + intros c Hl Hk. split; [| exact Hl].
      apply negb_false_iff. exact Hk.
    + apply Forall_map, Forall_forall. intros c _. apply toLowerChar_idem.
Qed.

Lemma cleanSearchQuery_apart (query : string) :
  apart Js.isSpace (Js.chars (SearchService.cleanSearchQuery query)).
Proof.
  rewrite cleanSearchQuery_chars. apply apart_trimChars, apart_replaceRuns.
Qed.

Lemma map_fixed (f : ascii -> ascii) (l : list ascii) :
  Forall (fun c => f c = c) l -> map f l = l.
Proof. induction 1 as [|c r Hc Hr IH]; cbn; congruence. Qed.

Lemma replaceEach_none (q : ascii -> bool) (by_ l : list ascii) :
  Forall (fun c => q c = false) l -> Js.replaceEach q by_ l = l.
Proof.
  unfold Js.replaceEach. induction 1 as [|c r Hc Hr IH]; cbn; [reflexivity |].
  rewrite Hc, IH. reflexivity.
Qed.

Lemma replaceRuns_fixed (q : ascii -> bool) (a : ascii) (inRun : bool)
  (l : list ascii) :
  Forall (fun c => q c = true -> c = a) l ->
  apart q l ->
  (inRun = true -> match l with [] => True | c :: _ => q c = false end) ->
  Js.replaceRuns q [a] inRun l = l.
Proof.
  intros Hl. revert inRun.
  induction Hl as [|c r Hc Hr IH]; intros inRun Ha Hh; cbn; [reflexivity |].
  apply apart_cons in Ha. destruct Ha as [Hn Ha].
  destruct (q c) eqn:Hq.
  - destruct inRun; [specialize (Hh eq_refl); congruence |].
    cbn. rewrite (Hc eq_refl). f_equal. apply IH; [exact Ha |].
    intros _. destruct r as [|c' r']; [exact I |].
    cbn in Hn. exact Hn.
  - f_equal. apply IH; [exact Ha | discriminate].
Qed.

(** A text that is in the normal form is left as it is. *)
Lemma cleanSearchQuery_fixed (l : list ascii) :
  Forall queryChar l -> apart Js.isSpace l -> trimmed l ->
  SearchService.cleanSearchQuery (Js.str l) = Js.str l.
Proof.
  intros Hq Ha Ht. rewrite <- (str_chars (SearchService.cleanSearchQuery _)).
  f_equal. rewrite cleanSearchQuery_chars, chars_str.
  rewrite (trimChars_fixed _ Ht).
  rewrite map_fixed
    by (eapply Forall_impl; [exact Hq | intros c H; apply H]).
  rewrite replaceEach_none
    by (eapply Forall_impl; [exact Hq |];
        intros c [H _]; cbn; rewrite H; reflexivity).
  rewrite replaceRuns_fixed; [apply (trimChars_fixed _ Ht) | | exact Ha | discriminate].
  eapply Forall_impl; [exact Hq | intros c H; apply H].
Qed.

Lemma dropWhile_map (f : ascii -> ascii) (q : ascii -> bool) (l : list ascii) :
  (forall c, q (f c) = q c) ->
  Js.dropWhile q (map f l) = map f (Js.dropWhile q l).
Proof.
  intros H. induction l as [|c r IH]; [reflexivity |].
  cbn. rewrite H. destruct (q c); [exact IH | reflexivity].
Qed.

Lemma trimChars_map (f : ascii -> ascii) (l : list ascii) :
  (forall c, Js.isSpace (f c) = Js.isSpace c) ->
  Js.trimChars (map f l) = map f (Js.trimChars l).
Proof.
  intros H. unfold Js.trimChars.
  rewrite (dropWhile_map _ _ _ H), <- map_rev, (dropWhile_map _ _ _ H), map_rev.
  reflexivity.
Qed.

Lemma chars_inj (a b : string) : Js.chars a = Js.chars b -> a = b.
Proof. intros H. rewrite <- (str_chars a), <- (str_chars b), H. reflexivity. Qed.

Lemma cleanSearchQuery_toLowerCase (query : string) :
  SearchService.cleanSearchQuery (Js.toLowerCase query)
    = SearchService.cleanSearchQuery query.
Proof.
  apply chars_inj. rewrite !cleanSearchQuery_chars, chars_toLowerCase.
  rewrite (trimChars_map _ _ toLowerChar_space), map_map.
  do 3 f_equal. apply map_ext. intros c. apply toLowerChar_idem.
Qed.

Lemma cleanSearchQuery_trim (query : string) :
  SearchService.cleanSearchQuery (Js.trim query)
    = SearchService.cleanSearchQuery query.
Proof.
  apply chars_inj. rewrite !cleanSearchQuery_chars, chars_trim.
  rewrite (trimChars_fixed (Js.trimChars _)) by apply trimChars_trimmed.
  reflexivity.
Qed.

(** X3: the cleaned query is in a normal form: of the characters the
    function keeps, in lower case, its words parted by single spaces,
    with no white space at its ends; and every letter, digit and
    underscore of the query is still in it, in lower case and in the
    order of the query. (JavaScript lowers a few characters beyond
    Latin-1 to letters, so the cleaned query can hold letters the query
    did not; only the other direction is stated.) *)
Theorem cleanSearchQuery_normal_form (query : string) :
  let cleaned := Js.chars (SearchService.cleanSearchQuery query) in
  Forall queryChar cleaned /\
  apart Js.isSpace cleaned /\
  trimmed cleaned /\
  map Js.toLowerChar (List.filter Js.isWord (Js.chars query))
    `sublist_of` List.filter Js.isWord cleaned.
Proof.
  cbn zeta. split; [apply cleanSearchQuery_queryChars |].
  split; [apply cleanSearchQuery_apart |].
  split; [rewrite cleanSearchQuery_chars; apply trimChars_trimmed |].
  rewrite cleanSearchQuery_chars.
  rewrite (filter_trimChars _ _ word_not_space).
  rewrite (filter_replaceRuns _ _ word_not_space) by reflexivity.
  rewrite (filter_replaceEach _ _ word_kept) by reflexivity.
  rewrite <- (filter_trimChars Js.isWord (Js.chars query) word_not_space).
  induction (Js.trimChars (Js.chars query)) as [|c r IH]; [constructor |].
  cbn. rewrite toLowerChar_word. destruct (Js.isWord c); cbn; [| exact IH].
  apply sublist_skip, IH.
Qed.

(** X4: cleaning a cleaned query changes nothing, and the case of the letters
    and the white space around the query do not count: such queries are
    cached under one key. *)
Theorem cleanSearchQuery_idempotent (query documentId : string)
  (options : SearchOptions) :
  let cleaned := SearchService.cleanSearchQuery query in
  SearchService.cleanSearchQuery cleaned = cleaned /\
  SearchService.cleanSearchQuery (Js.toLowerCase query) = cleaned /\
  SearchService.cleanSearchQuery (Js.trim query) = cleaned /\
  SearchService.generateCacheKey documentId
      (SearchService.cleanSearchQuery (Js.toLowerCase (Js.trim query))) options
    = SearchService.generateCacheKey documentId cleaned options.
Proof.
  cbn zeta. split; [| split; [| split]].
  - rewrite <- (str_chars (SearchService.cleanSearchQuery query)) at 1 2.
    rewrite cleanSearchQuery_fixed, str_chars; [reflexivity | | |].
    + apply cleanSearchQuery_queryChars.
    + apply cleanSearchQuery_apart.
    + rewrite cleanSearchQuery_chars. apply trimChars_trimmed.
  - apply cleanSearchQuery_toLowerCase.
  - apply cleanSearchQuery_trim.
  - rewrite cleanSearchQuery_toLowerCase, cleanSearchQuery_trim. reflexivity.
Qed.

(** ** validators: sanitizeString and sanitizeSearchQuery *)

Lemma chars_substring0 (n : nat) (s : string) :
  Js.chars (Js.substring0 n s) = take n (Js.chars s).
Proof.
  unfold Js.substring0, Js.chars. revert s.
  induction n as [|n IH]; intros [|c s]; cbn; try reflexivity.
  rewrite IH. reflexivity.
Qed.

Lemma apart_app_l (p : ascii -> bool) (l1 l2 : list ascii) :
  apart p (l1 ++ l2) -> apart p l1.
Proof.
  intros H l a b l' E. apply (H l a b (l' ++ l2)).
  rewrite E, <- app_assoc. reflexivity.
Qed.

Lemma apart_take (p : ascii -> bool) (n : nat) (l : list ascii) :
  apart p l -> apart p (take n l).
Proof.
  intros H. rewrite <- (take_drop n l) in H. apply (apart_app_l _ _ _ H).
Qed.

(** X5: a sanitized string holds no angle bracket. A sanitized query holds
    none either, has at most 200 characters, and of white space only
    single spaces. *)
Theorem sanitized_query_is_bounded (query : string) :
  let sanitized := Validators.sanitizeSearchQuery query in
  String.length sanitized <= 200 /\
  String.length sanitized <= String.length query /\
  Forall (fun c => Validators.angle c = false /\ plainSpace c) (Js.chars sanitized) /\
  apart Js.isSpace (Js.chars sanitized) /\
  Forall (fun c => Validators.angle c = false)
         (Js.chars (Validators.sanitizeString query)) /\
  String.length (Validators.sanitizeString query) <= String.length query.
Proof.
  cbn zeta. unfold Validators.sanitizeSearchQuery, Validators.sanitizeString.
  rewrite <- !length_chars, !chars_substring0, !chars_str, chars_trim.
  assert (Hlen : forall l,
             length (List.filter (fun c => negb (Validators.angle c)) (Js.trimChars l))
             <= length l).
  { intros l. etransitivity; [apply length_filter_le | apply length_trimChars]. }
  split; [rewrite length_take; lia |].
  split.
  { rewrite length_take.
    etransitivity; [apply Nat.le_min_r |].
    etransitivity; [apply length_replaceRuns | apply Hlen]. }
  split.
  { apply Forall_take.
    apply (Forall_replaceRuns_from (fun c => Validators.angle c = false)).
    - split; [reflexivity | intros _; reflexivity].
    - intros c Hc Hs. split; [exact Hc | intros Hs'; congruence].
    - eapply Forall_impl; [apply Forall_filter_true |].
      intros c Hc. apply negb_true_iff. exact Hc. }
  split; [apply apart_take, apart_replaceRuns |].
  split; [| apply Hlen].
  eapply Forall_impl; [apply Forall_filter_true |].
  intros c Hc. apply negb_true_iff. exact Hc.
Qed.

(** ** ocrService.cleanExtractedText *)

Lemma replaceCRLF_fixed (l : list ascii) :
  Forall (fun c => Js.code c <> 13) l -> OCRService.replaceCRLF l = l.
Proof.
  induction 1 as [|c r Hc Hr IH]; [reflexivity |].
  cbn [OCRService.replaceCRLF].
  destruct (Js.code c =? 13) eqn:E; [apply Nat.eqb_eq in E; contradiction |].
  cbn [andb]. rewrite IH. reflexivity.
Qed.

Lemma length_replaceEach (q : ascii -> bool) (a : ascii) (l : list ascii) :
  length (Js.replaceEach q [a] l) = length l.
Proof.
  unfold Js.replaceEach. induction l as [|c r IH]; cbn; [reflexivity |].
  rewrite length_app, IH. destruct (q c); reflexivity.
Qed.

Lemma printable_plain (c : ascii) :
  OCRService.printable c = true -> plainSpace c -> Js.inRange 32 126 c = true.
Proof.
  unfold plainSpace.
  destruct c as [[] [] [] [] [] [] [] []]; vm_compute; intros H1 H2;
    try reflexivity; try discriminate; specialize (H2 eq_refl); discriminate.
Qed.

Lemma inRange_not_cr (c : ascii) : Js.inRange 32 126 c = true -> Js.code c <> 13.
Proof. by_ascii c. Qed.

Lemma inRange_no_cr (c : ascii) :
  Js.inRange 32 126 c = true -> Js.oneOf [13] c = false.
Proof. by_ascii c. Qed.

Lemma zeroOrO_plain (text : list ascii) (c : ascii) :
  plainSpace (OCRService.zeroOrO text c) /\ Js.code (OCRService.zeroOrO text c) <> 124.
Proof.
  unfold OCRService.zeroOrO.
  destruct (_ || _); split; try (intros H; discriminate H); vm_compute; lia.
Qed.

(** X6: the text from the OCR comes out as printable ASCII on one line: no
    character outside the codes 32 to 126, so no tab and no line break,
    and no vertical bar; it is trimmed and not longer than what was read. *)
Theorem cleanExtractedText_is_printable (text : string) :
  let cleaned := OCRService.cleanExtractedText text in
  Forall (fun c => Js.inRange 32 126 c = true /\ Js.code c <> 124) (Js.chars cleaned) /\
  trimmed (Js.chars cleaned) /\
  String.length cleaned <= String.length text.
Proof.
  cbn zeta. unfold OCRService.cleanExtractedText.
  destruct (Js.truthy text) eqn:Ht.
  2: { apply truthy_chars in Ht. subst. cbn. repeat split; constructor. }
  rewrite <- !length_chars, chars_str.
  set (l0 := Js.replaceRuns Js.isSpace [Js.space] false (Js.chars text)).
  set (l1 := Js.replaceEach (Js.oneOf [124]) [Js.chr 108] l0).
  set (l2 := map (fun c => if Js.oneOf [48; 79] c
                           then OCRService.zeroOrO (Js.chars text) c else c) l1).
  set (l3 := List.filter OCRService.printable l2).
  assert (H0 : Forall plainSpace l0).
  { apply Forall_replaceRuns; [intros _; reflexivity |].
    intros c Hc Hs. congruence. }
  assert (H1 : Forall (fun c => plainSpace c /\ Js.code c <> 124) l1).
  { apply (Forall_replaceEach_from plainSpace); [| | exact H0].
    - split; [intros H; discriminate H | vm_compute; lia].
    - intros c Hp Hc. split; [exact Hp |].
      intros E. unfold Js.oneOf in Hc. cbn in Hc. rewrite E in Hc. discriminate. }
  assert (H2 : Forall (fun c => plainSpace c /\ Js.code c <> 124) l2).
  { apply Forall_map. eapply Forall_impl; [exact H1 |].
    intros c Hc. cbv beta. destruct (Js.oneOf [48; 79] c); [apply zeroOrO_plain | exact Hc]. }
  assert (H3 : Forall (fun c => Js.inRange 32 126 c = true /\ Js.code c <> 124) l3).
  { assert (H : Forall (fun c => OCRService.printable c = true /\
                                  (plainSpace c /\ Js.code c <> 124)) l3).
    { apply Forall_and. split; [apply Forall_filter_true |].
      apply Forall_filter_bool, H2. }
    eapply Forall_impl; [exact H |].
    intros c [Hp [Hs Hn]]. split; [apply printable_plain; assumption | exact Hn]. }
  rewrite (replaceCRLF_fixed l3)
    by (eapply Forall_impl; [exact H3 | intros c [H _]; apply inRange_not_cr, H]).
  rewrite (replaceEach_none _ _ l3)
    by (eapply Forall_impl; [exact H3 | intros c [H _]; apply inRange_no_cr, H]).
  split; [apply Forall_trimChars, H3 |].
  split; [apply trimChars_trimmed |].
  etransitivity; [apply length_trimChars |].
  etransitivity; [apply length_filter_le |].
  unfold l2. rewrite length_map. unfold l1.
  rewrite length_replaceEach. apply length_replaceRuns.
Qed.

(** ** jobs: the retry delay *)

(** X7: the delay before a retry doubles from one second and stays at thirty
    seconds from the fifth attempt on: it never decreases and is always
    between the two. *)
Theorem retry_delay_is_capped (attemptsMade later : nat) :
  (1000 <= ProcessDocumentJob.getRetryDelay attemptsMade <= 30000)%Z /\
  (attemptsMade <= later ->
   (ProcessDocumentJob.getRetryDelay attemptsMade
      <= ProcessDocumentJob.getRetryDelay later)%Z) /\
  (attemptsMade < 5 ->
   ProcessDocumentJob.getRetryDelay attemptsMade
     = (2 ^ Z.of_nat attemptsMade * 1000)%Z) /\
  (5 <= attemptsMade -> ProcessDocumentJob.getRetryDelay attemptsMade = 30000%Z).
Proof.
  unfold ProcessDocumentJob.getRetryDelay.
  assert (Hpos : forall n : nat, (1 <= 2 ^ Z.of_nat n)%Z).
  { intros n. assert (0 < 2 ^ Z.of_nat n)%Z by (apply Z.pow_pos_nonneg; lia). lia. }
  assert (Hmono : forall n m : nat, n <= m -> (2 ^ Z.of_nat n <= 2 ^ Z.of_nat m)%Z).
  { intros n m H. apply Z.pow_le_mono_r; lia. }
  pose proof (Hpos attemptsMade) as H1.
  split; [lia |]. split; [| split].
  - intros H. specialize (Hmono _ _ H). lia.
  - intros H. pose proof (Hmono attemptsMade 4 ltac:(lia)) as H4.
    change (2 ^ Z.of_nat 4)%Z with 16%Z in H4. lia.
  - intros H. pose proof (Hmono 5 attemptsMade H) as H5.
    change (2 ^ Z.of_nat 5)%Z with 32%Z in H5. lia.
Qed.

(** ** middleware/auth.js *)

(** X8: a request passes only with the configured key, which must not be
    empty: with [API_KEY] unset or empty every request is refused. The
    header counts before the query parameter, which is read only when the
    header is absent or empty; and every refusal is a 401. *)
Theorem authenticate_fails_closed (header queryKey API_KEY : option string) :
  (Auth.authenticate header queryKey API_KEY = Auth.Next <->
   exists key, key <> EmptyString /\ API_KEY = Some key /\
     (header = Some key \/
      ((header = None \/ header = Some EmptyString) /\ queryKey = Some key))) /\
  (API_KEY = None \/ API_KEY = Some EmptyString ->
   Auth.authenticate header queryKey API_KEY <> Auth.Next) /\
  (forall status error,
     Auth.authenticate header queryKey API_KEY = Auth.Denied status error ->
     status = HTTP_STATUS.UNAUTHORIZED).
Proof.
  assert (Hiff :
    Auth.authenticate header queryKey API_KEY = Auth.Next <->
    exists key, key <> EmptyString /\ API_KEY = Some key /\
      (header = Some key \/
       ((header = None \/ header = Some EmptyString) /\ queryKey = Some key))).
  { unfold Auth.authenticate. split.
    - destruct header as [[|c h]|]; cbn.
      + destruct queryKey as [[|c k]|]; cbn; try discriminate.
        case_bool_decide; [| discriminate]. intros _.
        exists (String c k). split; [discriminate |]. split; [congruence |].
        right. split; [right |]; reflexivity.
      + case_bool_decide; [| discriminate]. intros _.
        exists (String c h). split; [discriminate |]. split; [congruence |].
        left. reflexivity.
      + destruct queryKey as [[|c k]|]; cbn; try discriminate.
        case_bool_decide; [| discriminate]. intros _.
        exists (String c k). split; [discriminate |]. split; [congruence |].
        right. split; [left |]; reflexivity.
    - intros [key [Hk [-> [-> | [[-> | ->] ->]]]]];
        destruct key as [|c k]; try contradiction; cbn;
        rewrite bool_decide_eq_true_2 by reflexivity; reflexivity. }
  split; [exact Hiff |]. split.
  - intros H E. apply Hiff in E. destruct E as [key [Hk [E _]]].
    destruct H as [H | H]; congruence.
  - intros status error. unfold Auth.authenticate.
    repeat (match goal with
            | |- context [match ?x with _ => _ end] => destruct x; cbn
            end); intros E; try discriminate; injection E; auto.
Qed.

(** ** database/migrate.js *)

Lemma splitEach_pieces (p : ascii -> bool) (cur l : list ascii) :
  Forall (fun c => p c = false) cur ->
  Forall (Forall (fun c => p c = false)) (Js.splitEach p cur l).
Proof.
  revert cur. induction l as [|c r IH]; intros cur Hcur; cbn.
  - constructor; [apply Forall_rev, Hcur | constructor].
  - destruct (p c) eqn:Hp.
    + constructor; [apply Forall_rev, Hcur | apply IH; constructor].
    + apply IH. constructor; assumption.
Qed.

(** X9: every statement the migration runs is a piece of the schema between
    two semicolons, trimmed, with the semicolon put back: no statement
    holds a semicolon inside. A statement of the schema that does, as the
    [CREATE TRIGGER] of schema.sql with the statement between its [BEGIN]
    and [END], is therefore run in pieces. *)
Theorem migration_splits_at_every_semicolon (schema : string) :
  Forall (fun statement =>
            exists body, statement = body +:+ ";" /\ body <> EmptyString /\
                         Js.trim body = body /\
                         Forall (fun c => Js.code c <> 59) (Js.chars body))
         (Migrate.statements schema) /\
  length (Migrate.statements Migrate.trigger) = 2 /\
  last (Migrate.statements Migrate.trigger) = Some "END;".
Proof.
  split; [| vm_compute; split; reflexivity].
  unfold Migrate.statements.
  apply Forall_map, List.Forall_forall. intros piece Hin.
  apply filter_In in Hin. destruct Hin as [Hin Hlen].
  apply in_map_iff in Hin. destruct Hin as [l [<- Hin]].
  pose proof (splitEach_pieces (Js.oneOf [59]) [] (Js.chars schema)
                ltac:(constructor)) as Hp.
  rewrite List.Forall_forall in Hp. specialize (Hp l Hin).
  exists (Js.trim (Js.str l)). split; [reflexivity |]. split; [| split].
  - intros E. rewrite E in Hlen. discriminate.
  - apply trim_fixed. rewrite chars_trim. apply trimChars_trimmed.
  - rewrite chars_trim, chars_str. apply Forall_trimChars.
    eapply Forall_impl; [exact Hp |]. intros c Hc E.
    unfold Js.oneOf in Hc. cbn in Hc. rewrite E in Hc. discriminate.
Qed.

(** ** The health checks *)

(** X10: the test text of [etlService.healthCheck] has eight words and the
    check asks for nine: the check reports unhealthy in every state,
    without asking the OCR and the index service, and so does the check of
    the job processor that relies on it. *)
Theorem etl_health_check_never_healthy {Stats : Type}
  (getJobStatistics : M (option Stats)) (ocrHealth indexHealth : M Health)
  (w : World) :
  ETLService.healthCheck ocrHealth indexHealth w
    = (Ok {| h_status := "unhealthy";
             h_error := Some "Text feature extraction failed" |}, w) /\
  (wordCount <$> ETLService.extractTextFeatures
                   "This is a test paragraph for health check.") = Some 8 /\
  fst (ProcessDocumentJob.healthCheck getJobStatistics ocrHealth indexHealth w)
    = Ok "unhealthy".
Proof.
  assert (H : forall w', ETLService.healthCheck ocrHealth indexHealth w'
                = (Ok {| h_status := "unhealthy";
                         h_error := Some "Text feature extraction failed" |},
                   w')) by reflexivity.
  split; [apply H |]. split; [reflexivity |].
  unfold ProcessDocumentJob.healthCheck. run.
  destruct (getJobStatistics w) as [[stats | e] w1]; [| reflexivity].
  rewrite H. reflexivity.
Qed.

(** ** searchService.analyzeChunks *)

Lemma countType_cons (t : CONTENT_TYPES) (c : Chunk) (r : list Chunk) :
  ETLService.countType t (c :: r)
    = (if bool_decide (chunk_type c = t) then 1 else 0) + ETLService.countType t r.
Proof.
  unfold ETLService.countType. cbn [List.filter].
  destruct (bool_decide _); reflexivity.
Qed.

Section Tally.

Variable t : Tally.

Lemma tally_byType (chunks : list Chunk) :
  tl_byType (fold_left SearchService.countChunk chunks t)
    = ((tl_byType t).1.1 + ETLService.countType PARAGRAPH chunks,
       (tl_byType t).1.2 + ETLService.countType IMAGE chunks,
       (tl_byType t).2 + ETLService.countType TABLE chunks).
Proof.
  revert t. induction chunks as [|c r IH]; intros t0.
  - unfold ETLService.countType. cbn. destruct (tl_byType t0) as [[? ?] ?]. cbn.
    rewrite !Nat.add_0_r. reflexivity.
  - cbn [fold_left]. rewrite IH, !countType_cons.
    cbn [SearchService.countChunk tl_byType].
    destruct (chunk_type c); repeat case_bool_decide; try congruence; cbn;
      rewrite ?Nat.add_succ_r; reflexivity.
Qed.

Lemma tally_byPage (chunks : list Chunk) (page : Z) :
  default 0 (tl_byPage (fold_left SearchService.countChunk chunks t) !! page)
    = default 0 (tl_byPage t !! page) + length (onPage page chunks).
Proof.
  revert t. induction chunks as [|c r IH]; intros t0; [cbn; lia |].
  cbn [fold_left]. rewrite IH. unfold onPage. cbn [List.filter SearchService.countChunk tl_byPage].
  destruct (Z.eqb_spec (Js.orNum (Some (pageNumber c)) 1) page) as [-> | Hne].
  - rewrite lookup_insert_eq. cbn. lia.
  - rewrite lookup_insert_ne by exact Hne. reflexivity.
Qed.

Lemma tally_pages_counted (chunks : list Chunk) (page : Z) :
  (forall n, tl_byPage t !! page = Some n -> 0 < n) ->
  forall n, tl_byPage (fold_left SearchService.countChunk chunks t) !! page = Some n ->
            0 < n.
Proof.
  revert t. induction chunks as [|c r IH]; intros t0 H0; [exact H0 |].
  cbn [fold_left]. apply IH. cbn [SearchService.countChunk tl_byPage].
  intros n. destruct (Z.eq_dec (Js.orNum (Some (pageNumber c)) 1) page) as [-> | Hne].
  - rewrite lookup_insert_eq. intros [= <-]. lia.
  - rewrite lookup_insert_ne by exact Hne. apply H0.
Qed.

Lemma tally_totalWords (chunks : list Chunk) :
  tl_totalWords (fold_left SearchService.countChunk chunks t)
    = tl_totalWords t
      + sum_list (map (fun c => IndexService.splitWordCount (content c)) chunks).
Proof.
  revert t. induction chunks as [|c r IH]; intros t0; [cbn; lia |].
  cbn [fold_left]. rewrite IH. cbn. lia.
Qed.

Lemma tally_confidenceCount (chunks : list Chunk) :
  tl_confidenceCount (fold_left SearchService.countChunk chunks t)
    = tl_confidenceCount t + length (confident chunks).
Proof.
  revert t. induction chunks as [|c r IH]; intros t0; [cbn; lia |].
  cbn [fold_left]. rewrite IH. unfold confident.
  cbn [List.filter SearchService.countChunk tl_confidenceCount].
  destruct (ocrConfidence c); cbn; lia.
Qed.

Lemma tally_buckets (chunks : list Chunk) :
  tl_high t + tl_medium t + tl_low t = tl_confidenceCount t ->
  let t' := fold_left SearchService.countChunk chunks t in
  tl_high t' + tl_medium t' + tl_low t' = tl_confidenceCount t'.
Proof.
  revert t. induction chunks as [|c r IH]; intros t0 H0; [exact H0 |].
  cbn [fold_left]. apply IH. cbn.
  destruct (ocrConfidence c) as [n|]; [| lia].
  destruct (80 <=? n)%Z; [lia |]. destruct (60 <=? n)%Z; lia.
Qed.

End Tally.

Lemma countType_total (chunks : list Chunk) :
  ETLService.countType PARAGRAPH chunks + ETLService.countType IMAGE chunks
    + ETLService.countType TABLE chunks = length chunks.
Proof.
  induction chunks as [|c r IH]; [reflexivity |].
  rewrite !countType_cons.
  destruct (chunk_type c); repeat case_bool_decide; try congruence; cbn [length]; lia.
Qed.

Lemma orNum_nonzero (n : Z) : (Js.orNum (Some n) 1 =? 0)%Z = false.
Proof.
  unfold Js.orNum. destruct (Z.eqb_spec n 0); [reflexivity |].
  apply Z.eqb_neq. assumption.
Qed.

(** X11: the statistics of a list of chunks: the counts by type are those of
    [getChunkStatsByType] and add up to the number of chunks; a page
    counts the chunks whose page number it is, a chunk without one (or
    with 0) counting for page 1, so that no chunk is on page 0; the three
    confidence classes part the chunks that carry a confidence; and the
    average confidence is 0 when no chunk carries one. *)
Theorem analyzeChunks_counts (chunks : list Chunk) :
  let stats := SearchService.analyzeChunks chunks in
  st_total stats = length chunks /\
  st_byType stats = ETLService.getChunkStatsByType chunks /\
  (st_byType stats).1.1 + (st_byType stats).1.2 + (st_byType stats).2
    = length chunks /\
  (forall page, default 0 (st_byPage stats !! page) = length (onPage page chunks)) /\
  (forall page n, st_byPage stats !! page = Some n -> 0 < n) /\
  st_byPage stats !! 0%Z = None /\
  st_totalWords stats
    = sum_list (map (fun c => IndexService.splitWordCount (content c)) chunks) /\
  st_high stats + st_medium stats + st_low stats = length (confident chunks) /\
  (confident chunks = [] -> st_avgConfidence stats = 0%Z).
Proof.
  cbn zeta. unfold SearchService.analyzeChunks.
  set (t0 := {| tl_byType := (0, 0, 0); tl_byPage := ∅; tl_totalWords := 0;
                tl_totalConfidence := 0; tl_confidenceCount := 0;
                tl_high := 0; tl_medium := 0; tl_low := 0 |}).
  cbn [st_total st_byType st_byPage st_totalWords st_avgConfidence
       st_high st_medium st_low].
  assert (Hpages : forall page n,
             tl_byPage (fold_left SearchService.countChunk chunks t0) !! page = Some n ->
             0 < n).
  { intros page. apply tally_pages_counted. intros n H. cbn in H.
    rewrite lookup_empty in H. discriminate. }
  assert (Hcount : tl_confidenceCount (fold_left SearchService.countChunk chunks t0)
                   = length (confident chunks))
    by (rewrite tally_confidenceCount; reflexivity).
  split; [reflexivity |].
  split; [rewrite tally_byType; reflexivity |].
  split; [rewrite tally_byType; cbn; apply countType_total |].
  split; [intros page; rewrite tally_byPage; cbn; rewrite lookup_empty; reflexivity |].
  split; [exact Hpages |].
  split.
  { destruct (tl_byPage (fold_left SearchService.countChunk chunks t0) !! 0%Z)
      as [n|] eqn:E; [| reflexivity].
    pose proof (Hpages _ _ E) as Hn.
    pose proof (tally_byPage t0 chunks 0%Z) as Hp. rewrite E in Hp. cbn in Hp.
    rewrite lookup_empty in Hp. cbn in Hp.
    assert (Hz : onPage 0%Z chunks = []).
    { unfold onPage. clear. induction chunks as [|c r IH]; [reflexivity |].
      cbn [List.filter]. rewrite orNum_nonzero. exact IH. }
    rewrite Hz in Hp. cbn in Hp. lia. }
  split; [rewrite tally_totalWords; reflexivity |].
  split; [rewrite <- Hcount; apply (tally_buckets t0); reflexivity |].
  intros E. rewrite Hcount, E. reflexivity.
Qed.

(** ** The extraction *)

Lemma longEnough_cons (s : string) (texts : list string) :
  longEnough (s :: texts)
    = if 10 <=? String.length s then s :: longEnough texts else longEnough texts.
Proof. reflexivity. Qed.

Lemma features_of (text : string) :
  Js.truthy text = true ->
  (characterCount <$> ETLService.extractTextFeatures text) = Some (String.length text).
Proof. intros H. unfold ETLService.extractTextFeatures. rewrite H. reflexivity. Qed.

Lemma guard_truthy (s : string) :
  negb (Js.truthy s) || (String.length s <? 10) = false -> Js.truthy s = true.
Proof. intros H. apply orb_false_iff in H. apply negb_false_iff, H. Qed.

Lemma paragraphChunk_wellFormed (p : Paragraph) (mk : string -> Chunk)
  (chunkId : string) :
  ETLService.paragraphChunk p = Some mk -> wellFormedChunk (mk chunkId).
Proof.
  unfold ETLService.paragraphChunk. cbv zeta.
  destruct (negb _ || _) eqn:Hguard; [discriminate |].
  intros [= <-]. unfold wellFormedChunk. cbn.
  split; [apply orPage_set |]. split; [reflexivity |].
  split; [apply cleanText_trimmed |].
  split; [reflexivity |]. split; [reflexivity |].
  split; [apply cleanText_length | apply features_of, guard_truthy, Hguard].
Qed.

Lemma tableChunk_wellFormed (t : Table) (mk : string -> Chunk) (chunkId : string) :
  ETLService.tableChunk t = Some mk -> wellFormedChunk (mk chunkId).
Proof.
  unfold ETLService.tableChunk. cbv zeta.
  destruct (negb _ || _) eqn:Hguard; [discriminate |].
  intros [= <-]. unfold wellFormedChunk. cbn.
  split; [apply orPage_set |]. split; [reflexivity |].
  split.
  { unfold ETLService.convertTableToText. cbv zeta.
    destruct (match t_rows t with
              | Some (RowList rs) => ETLService.rowsText 0 rs
              | _ => Some EmptyString
              end) as [rows |];
      [rewrite chars_trim; apply trimChars_trimmed | split; reflexivity]. }
  split; [reflexivity | apply features_of, guard_truthy, Hguard].
Qed.

Lemma extracted_app (kind : CONTENT_TYPES) (s : string) (texts : list string)
  (here more : list Chunk) :
  (if 10 <=? String.length s
   then exists c, here = [c] /\ content c = s /\ chunk_type c = kind /\
                  wellFormedChunk c
   else here = []) ->
  extracted kind texts more ->
  extracted kind (s :: texts) (here ++ more).
Proof.
  intros Hhere [Hc Hall]. unfold extracted. rewrite longEnough_cons.
  destruct (10 <=? String.length s).
  - destruct Hhere as [c [-> [<- [Hk Hw]]]]. cbn. rewrite Hc.
    split; [reflexivity | constructor; auto].
  - subst here. split; assumption.
Qed.

Lemma returns_paragraphs_extracted (ps : list Paragraph) :
  returns (ETLService.processParagraphs ps)
    (extracted PARAGRAPH
       (map (fun p => ETLService.cleanText (ETLService.paragraphText p)) ps)).
Proof.
  induction ps as [| p rest IH]; cbn [ETLService.processParagraphs map].
  - apply returns_ret. split; [reflexivity | constructor].
  - apply returns_bind with
      (R := fun here => match ETLService.paragraphChunk p with
                        | Some mk => exists chunkId, here = [mk chunkId]
                        | None => here = []
                        end).
    + apply returns_tryCatch.
      destruct (ETLService.paragraphChunk p) as [mk |] eqn:Hp.
      * apply returns_bind with (R := fun _ => True);
          [apply returns_freshName |].
        intros chunkId _. apply returns_ret. eauto.
      * apply returns_ret. reflexivity.
    + intros here Hhere. apply returns_bind with (R := extracted PARAGRAPH
        (map (fun p => ETLService.cleanText (ETLService.paragraphText p)) rest));
        [exact IH |].
      intros more Hmore. apply returns_ret.
      apply extracted_app; [| exact Hmore].
      pose proof (paragraphChunk_accepts p) as Hacc.
      destruct (ETLService.paragraphChunk p) as [mk |] eqn:Hmk.
      * destruct Hhere as [chunkId ->].
        destruct (paragraphChunk_meets p _ chunkId Hmk) as [_ [Hk Hc]].
        assert (Hlen : 10 <= String.length
                  (ETLService.cleanText (ETLService.paragraphText p)))
          by (apply Hacc; eauto).
        apply Nat.leb_le in Hlen. rewrite Hlen.
        exists (mk chunkId). split; [reflexivity |]. split; [exact Hc |].
        split; [exact Hk |]. apply (paragraphChunk_wellFormed p _ _ Hmk).
      * subst here.
        destruct (Nat.leb_spec 10 (String.length
                    (ETLService.cleanText (ETLService.paragraphText p))))
          as [Hlen | Hlen]; [| reflexivity].
        apply Hacc in Hlen. destruct Hlen as [? Hlen]. discriminate.
Qed.

Lemma returns_tables_extracted (ts : list Table) :
  returns (ETLService.processTables ts)
    (extracted TABLE
       (map ETLService.convertTableToText (List.filter structured ts))).
Proof.
  induction ts as [| t rest IH]; cbn [ETLService.processTables List.filter map].
  - apply returns_ret. split; [reflexivity | constructor].
  - apply returns_bind with
      (R := fun here => match ETLService.tableChunk t with
                        | Some mk =>
                            if structured t then exists chunkId, here = [mk chunkId]
                            else here = []
                        | None => here = []
                        end); [apply returns_processTable |].
    intros here Hhere. apply returns_bind with (R := extracted TABLE
      (map ETLService.convertTableToText (List.filter structured rest)));
      [exact IH |].
    intros more Hmore. apply returns_ret.
    destruct (structured t) eqn:Hst.
    + cbn [map]. apply extracted_app; [| exact Hmore].
      pose proof (tableChunk_accepts t) as Hacc.
      destruct (ETLService.tableChunk t) as [mk |] eqn:Hmk.
      * destruct Hhere as [chunkId ->].
        destruct (tableChunk_meets t _ chunkId Hmk) as [_ [Hk Hc]].
        assert (Hlen : 10 <= String.length (ETLService.convertTableToText t))
          by (apply Hacc; eauto).
        apply Nat.leb_le in Hlen. rewrite Hlen.
        exists (mk chunkId). split; [reflexivity |]. split; [exact Hc |].
        split; [exact Hk |]. apply (tableChunk_wellFormed t _ _ Hmk).
      * subst here.
        destruct (Nat.leb_spec 10 (String.length (ETLService.convertTableToText t)))
          as [Hlen | Hlen]; [| reflexivity].
        apply Hacc in Hlen. destruct Hlen as [? Hlen]. discriminate.
    + assert (here = []) as -> by (destruct (ETLService.tableChunk t); exact Hhere).
      exact Hmore.
Qed.

Lemma extracted_nil (kind : CONTENT_TYPES) : extracted kind [] [].
Proof. split; [reflexivity | constructor]. Qed.

Lemma extracted_types (kind : CONTENT_TYPES) (texts : list string) (cs : list Chunk) :
  extracted kind texts cs ->
  map chunk_type cs = replicate (length (longEnough texts)) kind.
Proof.
  intros [Hc Hall]. rewrite <- Hc, length_map. clear Hc.
  induction Hall as [|c r [Hk _] Hr IH]; cbn; congruence.
Qed.

Lemma returns_extract_accepted (pd : ParsedData) :
  returns (ETLService.extractAndProcessContent pd)
    (fun cs =>
       map content cs = paragraphContents pd ++ tableContents pd /\
       map chunk_type cs
         = replicate (length (paragraphContents pd)) PARAGRAPH ++
           replicate (length (tableContents pd)) TABLE /\
       Forall wellFormedChunk cs).
Proof.
  unfold ETLService.extractAndProcessContent, paragraphContents, tableContents.
  apply returns_bind with
    (R := extracted PARAGRAPH
            (map (fun p => ETLService.cleanText (ETLService.paragraphText p))
                 (default [] (paragraphs pd)))).
  { destruct (paragraphs pd); [apply returns_paragraphs_extracted |].
    apply returns_ret, extracted_nil. }
  intros pcs Hp. apply returns_bind with (R := fun cs => cs = []).
  { destruct (images pd); [apply returns_processImages |].
    apply returns_ret. reflexivity. }
  intros ics ->. apply returns_bind with
    (R := extracted TABLE
            (map ETLService.convertTableToText
                 (List.filter structured (default [] (tables pd))))).
  { destruct (tables pd); [apply returns_tables_extracted |].
    apply returns_ret, extracted_nil. }
  intros tcs Ht. apply returns_ret. cbn [app].
  rewrite !map_app, (extracted_types _ _ _ Hp), (extracted_types _ _ _ Ht).
  destruct Hp as [Hpc Hpa], Ht as [Htc Hta]. rewrite Hpc, Htc.
  split; [reflexivity |]. split; [reflexivity |].
  apply Forall_app. split; (eapply Forall_impl; [eassumption |]); intros c H; apply H.
Qed.

(** X12: the extraction returns, for every parsed data and in every state: one
    paragraph chunk for each paragraph whose cleaned text has ten
    characters or more, in their order, then one table chunk for each
    table whose text has and whose rows are absent or an array; a table
    whose rows are another value is dropped, whatever its text, because
    [extractTableStructure] throws; and there is no chunk for an image.
    Every chunk is on a page that is not 0, its text is trimmed and its
    metadata gives the lengths of the text; the database is not touched. *)
Theorem extraction_accepts_in_order (parsedData : ParsedData) (w : World) :
  exists cs w',
    ETLService.extractAndProcessContent parsedData w = (Ok cs, w') /\
    db w' = db w /\
    map content cs = paragraphContents parsedData ++ tableContents parsedData /\
    map chunk_type cs
      = replicate (length (paragraphContents parsedData)) PARAGRAPH ++
        replicate (length (tableContents parsedData)) TABLE /\
    Forall wellFormedChunk cs.
Proof.
  destruct (returns_extract_accepted parsedData w) as [cs [w' [E H]]].
  exists cs, w'. split; [exact E |].
  split; [| exact H].
  pose proof (dbFrame_extract parsedData w) as Hdb. rewrite E in Hdb. exact Hdb.
Qed.

(** ** A run that succeeds *)

Lemma addChunk_row (document d : DocumentData) (c : Chunk) (w : World) :
  documents (db w) !! id document = Some d ->
  exists chunkId w' row,
    Document.addChunk document c w = (Ok chunkId, w') /\
    chunks (db w') = chunks (db w) ++ [row] /\
    foreign_keys (db w') = foreign_keys (db w) /\
    document_id row = id document /\ row_id row = chunkId /\
    row_content row = content c /\ page_number row = pageNumber c /\
    row_type row = chunk_type c /\
    documents (db w')
      = alter (Document.setTotalChunks
                 (length (Document.chunkRows (id document) w')))
              (id document) (documents (db w)).
Proof.
  intros Hd. unfold Document.addChunk, freshName. run. cbn [db with_fresh].
  rewrite Hd. rewrite bool_decide_eq_true_2 by eauto. rewrite andb_false_r.
  eexists _, _, _. split; [reflexivity |]. cbn. repeat split.
Qed.

Lemma storeChunks_rows (document : DocumentData) (cs : list Chunk) (w : World)
  (d : DocumentData) :
  documents (db w) !! id document = Some d ->
  exists ids w' new,
    ETLService.storeChunks document cs w = (Ok ids, w') /\
    length ids = length cs /\
    foreign_keys (db w') = foreign_keys (db w) /\
    Document.chunkRows (id document) w' = Document.chunkRows (id document) w ++ new /\
    (forall other, other <> id document ->
       Document.chunkRows other w' = Document.chunkRows other w /\
       documents (db w') !! other = documents (db w) !! other) /\
    map row_content new = map content cs /\
    map page_number new = map pageNumber cs /\
    map row_type new = map chunk_type cs /\
    documents (db w') !! id document
      = Some (match cs with
              | [] => d
              | _ :: _ =>
                  Document.setTotalChunks
                    (length (Document.chunkRows (id document) w')) d
              end).
Proof.
  revert w d. induction cs as [| c rest IH]; intros w d Hd.
  - exists [], w, []. cbn. rewrite app_nil_r. repeat split; auto.
  - cbn [ETLService.storeChunks].
    destruct (addChunk_row document d c w Hd)
      as (chunkId & w1 & row & Hadd & Hrows1 & Hfk1 & Hdoc & Hid & Hc & Hp & Ht & Hdocs1).
    unfold bind at 1. unfold tryCatch at 1. unfold bind at 1. rewrite Hadd.
    unfold ret at 1.
    assert (Hd1 : documents (db w1) !! id document
                  = Some (Document.setTotalChunks
                            (length (Document.chunkRows (id document) w1)) d)).
    { rewrite Hdocs1, lookup_alter, decide_True by reflexivity. rewrite Hd. reflexivity. }
    destruct (IH w1 _ Hd1)
      as (ids & w' & new & Hrun & Hlen & Hfk & Hrows & Hother & Hcs & Hps & Hts & Hdocs).
    unfold bind at 1. rewrite Hrun. unfold ret.
    assert (Hrows1' : Document.chunkRows (id document) w1
                      = Document.chunkRows (id document) w ++ [row]).
    { unfold Document.chunkRows. rewrite Hrows1, filter_app, filter_cons_True by exact Hdoc.
      rewrite filter_nil. reflexivity. }
    exists (chunkId :: ids), w', (row :: new).
    split; [reflexivity |]. split; [cbn; lia |]. split; [congruence |].
    split; [rewrite Hrows, Hrows1', <- app_assoc; reflexivity |].
    split.
    { intros other Hne. destruct (Hother other Hne) as [H1 H2].
      rewrite H1, H2. split.
      - unfold Document.chunkRows. rewrite Hrows1, filter_app.
        rewrite filter_cons_False by congruence. rewrite filter_nil, app_nil_r.
        reflexivity.
      - rewrite Hdocs1, lookup_alter_ne by congruence. reflexivity. }
    split; [cbn; congruence |]. split; [cbn; congruence |].
    split; [cbn; congruence |].
    rewrite Hdocs. f_equal. destruct rest as [| c' rest']; [| reflexivity].
    destruct new; [| discriminate]. rewrite Hrows, app_nil_r. reflexivity.
Qed.

Lemma chunkRows_filtered_out (documentId : string) (rows : list ChunkRow) :
  filter (fun r => document_id r = documentId)
         (filter (fun r => document_id r <> documentId) rows) = [].
Proof.
  induction rows as [| r rest IH]; [reflexivity |].
  rewrite filter_cons. destruct (decide (document_id r <> documentId)) as [Hne | Heq].
  - rewrite filter_cons_False by exact Hne. exact IH.
  - exact IH.
Qed.

Lemma countType_all (kind : CONTENT_TYPES) (n : nat) (t : CONTENT_TYPES)
  (cs : list Chunk) :
  map chunk_type cs = replicate n kind ->
  ETLService.countType t cs = if bool_decide (kind = t) then n else 0.
Proof.
  revert n. induction cs as [| c rest IH]; intros [| n] H; try discriminate.
  - destruct (bool_decide _); reflexivity.
  - cbn in H. injection H as Hc Hrest. rewrite countType_cons, Hc, (IH n Hrest).
    destruct (bool_decide _); reflexivity.
Qed.

Lemma countType_app (t : CONTENT_TYPES) (a b : list Chunk) :
  ETLService.countType t (a ++ b) = ETLService.countType t a + ETLService.countType t b.
Proof.
  unfold ETLService.countType. rewrite List.filter_app, length_app. reflexivity.
Qed.

Lemma stats_of_types (cs : list Chunk) (n m : nat) :
  map chunk_type cs = replicate n PARAGRAPH ++ replicate m TABLE ->
  ETLService.getChunkStatsByType cs = (n, 0, m).
Proof.
  intros H. apply map_eq_app in H. destruct H as (a & b & -> & Ha & Hb).
  unfold ETLService.getChunkStatsByType. rewrite !countType_app.
  rewrite !(countType_all _ _ _ _ Ha), !(countType_all _ _ _ _ Hb).
  repeat case_bool_decide; try congruence. repeat f_equal; lia.
Qed.

Lemma dbFrame_triple {A : Type} (I : World -> Prop) (m : M A) :
  ofDb I -> dbFrame m -> triple I m (fun _ w => I w) (fun _ _ => True).
Proof.
  intros HI Hm. eapply triple_weaken.
  - apply keeps_triple, dbFrame_keeps; eassumption.
  - auto.
  - auto.
  - auto.
Qed.

(** The state of the database after the steps of [processLoaded], told
    from the world [w0] it started in and the chunks [cs] it extracted. *)
Section Run.

Variables (documentId : string) (w0 : World) (document : DocumentData).

Hypothesis id_document : id document = documentId.

Lemma processLoaded_stores (pd : ParsedData) :
  triple (fun w => db w = db w0 /\ hasRow documentId w0)
    (ETLService.processLoaded document documentId pd)
    (fun r w =>
       exists cs,
         (map content cs = paragraphContents pd ++ tableContents pd /\
          map chunk_type cs
            = replicate (length (paragraphContents pd)) PARAGRAPH ++
              replicate (length (tableContents pd)) TABLE /\
          Forall wellFormedChunk cs) /\
         r = {| pr_documentId := documentId;
                pr_totalChunks := length cs;
                pr_totalPages := ETLService.calculateTotalPages cs;
                pr_chunksByType := ETLService.getChunkStatsByType cs |} /\
         storedAfter documentId w0 cs w /\ rowAfter documentId cs COMPLETED w)
    (fun _ _ => True).
Proof.
  unfold ETLService.processLoaded.
  set (keeps0 := fun w => foreign_keys (db w) = foreign_keys (db w0) /\
                          chunks (db w) = chunks (db w0) /\ hasRow documentId w).
  assert (Hkeeps0 : ofDb keeps0).
  { intros w w' Hdb. unfold keeps0, hasRow. rewrite Hdb. auto. }
  apply triple_bind with
    (R := fun d w => d = Document.setStatus PROCESSING None document /\ keeps0 w).
  { intros w [Hdb Hrow]. cbn. split; [reflexivity |].
    unfold keeps0, hasRow in *. cbn. rewrite Hdb. repeat split.
    rewrite id_document, lookup_alter, decide_True by reflexivity.
    destruct Hrow as [x ->]. eauto. }
  intros document1. apply triple_pure. intros ->.
  apply triple_bind with
    (R := fun cs w =>
            (map content cs = paragraphContents pd ++ tableContents pd /\
             map chunk_type cs
               = replicate (length (paragraphContents pd)) PARAGRAPH ++
                 replicate (length (tableContents pd)) TABLE /\
             Forall wellFormedChunk cs) /\ keeps0 w).
  { eapply triple_weaken.
    - apply (returns_frame_triple keeps0 _ _ Hkeeps0 (dbFrame_extract pd)
               (returns_extract_accepted pd)).
    - auto.
    - cbn. tauto.
    - cbn. tauto. }
  intros cs. apply triple_pure. intros Hcs. cbv zeta.
  set (document2 := Document.setTotalPages (ETLService.calculateTotalPages cs)
                      (Document.setStatus PROCESSING None document)).
  assert (Hid2 : id document2 = documentId) by exact id_document.
  apply triple_bind with
    (R := fun _ w =>
            foreign_keys (db w) = foreign_keys (db w0) /\
            documents (db w) !! documentId = Some document2 /\
            Document.chunkRows documentId w = earlierRows documentId w0).
  { intros w (Hfk & Hchunks & Hrow). cbn. rewrite id_document, lookup_insert_eq.
    split; [exact Hfk |]. split; [reflexivity |].
    unfold Document.chunkRows, earlierRows. cbn. rewrite Hfk, Hchunks.
    rewrite bool_decide_eq_true_2 by exact Hrow. rewrite andb_true_r.
    destruct (foreign_keys (db w0)); [apply chunkRows_filtered_out | reflexivity]. }
  intros _.
  set (after := fun (status : DOCUMENT_STATUS) (w : World) =>
                  storedAfter documentId w0 cs w /\ rowAfter documentId cs status w).
  assert (Hafter : forall status, ofDb (after status)).
  { intros status w w' Hdb. unfold after, storedAfter, rowAfter, Document.chunkRows.
    rewrite Hdb. auto. }
  apply triple_bind with (R := fun _ w => after PROCESSING w).
  { intros w (Hfk & Hdoc & Hrows).
    rewrite <- Hid2 in Hdoc.
    destruct (storeChunks_rows document2 cs w document2 Hdoc)
      as (ids & w' & new & Hrun & _ & _ & Hrows' & _ & Hc & Hp & _ & Hdoc').
    rewrite Hrun. rewrite Hid2 in *. split.
    - exists new. rewrite Hrows', Hrows. auto.
    - eexists. split; [exact Hdoc' |].
      destruct cs as [| c rest]; cbn; repeat split; congruence. }
  intros chunkIds.
  apply triple_bind with (R := fun _ w => after PROCESSING w).
  { apply dbFrame_triple; [apply Hafter | apply dbFrame_createDocumentIndex]. }
  intros _.
  apply triple_bind with (R := fun _ w => after PROCESSING w).
  { apply dbFrame_triple; [apply Hafter | apply dbFrame_indexDocumentChunks]. }
  intros _.
  apply triple_bind with
    (R := fun d w => totalPages d = ETLService.calculateTotalPages cs /\
                     after COMPLETED w).
  { intros w [Hstored (d & Hd & _ & _ & Hpages & Hcount)]. cbn.
    split; [reflexivity |]. split.
    - exact Hstored.
    - exists (Document.setStatus COMPLETED None d).
      unfold Document.chunkRows in *. cbn.
      rewrite id_document, lookup_alter, decide_True by reflexivity. rewrite Hd.
      repeat split; assumption. }
  intros document3. apply triple_pure. intros Hpages3.
  apply triple_ret. intros w [Hstored Hrow].
  exists cs. rewrite Hpages3. auto.
Qed.

End Run.

(** X13: when [processDocument] returns, its result tells what it did: the
    chunks it counts are one for every paragraph and one for every table
    that the extraction accepts, and none for an image; one chunk row was stored
    for each, in that order, after the rows the document started the run
    with (none, with foreign keys on); the document is completed without
    an error, its [totalPages] is the greatest page of the new rows, and
    its [totalChunks], if the run stored a chunk, counts all the rows of
    the document. *)
Theorem successful_run_stores_what_it_reports (documentId : string)
  (parsedData : ParsedData) (w w' : World) (r : ProcessResult) :
  ETLService.processDocument documentId parsedData w = (Ok r, w') ->
  pr_documentId r = documentId /\
  pr_chunksByType r
    = (length (paragraphContents parsedData), 0, length (tableContents parsedData)) /\
  pr_totalChunks r
    = length (paragraphContents parsedData) + length (tableContents parsedData) /\
  (exists new,
     Document.chunkRows documentId w' = earlierRows documentId w ++ new /\
     map row_content new = paragraphContents parsedData ++ tableContents parsedData /\
     maxPage new = pr_totalPages r) /\
  (exists d,
     documents (db w') !! documentId = Some d /\
     processingStatus d = COMPLETED /\ processingError d = None /\
     totalPages d = pr_totalPages r /\
     (pr_totalChunks r <> 0 ->
      totalChunks d = length (Document.chunkRows documentId w'))).
Proof.
  unfold ETLService.processDocument, Document.findById. run.
  destruct (documents (db w) !! documentId) as [x |] eqn:Hx;
    cbn [fmap option_fmap option_map]; [| discriminate].
  pose proof (processLoaded_stores documentId w (Document.ofRow documentId x)
                eq_refl parsedData w) as Hrun.
  destruct (ETLService.processLoaded _ documentId parsedData w) as [[r1 | e1] w1].
  2: { destruct (Document.updateStatus _ _ _ w1) as [[? | ?] ?]; discriminate. }
  intros [= <- <-].
  destruct Hrun as (cs & (Hc & Ht & Hw) & -> & (new & Hrows & Hnc & Hnp) & Hrow).
  { split; [reflexivity |]. unfold hasRow. rewrite Hx. eauto. }
  cbn [pr_documentId pr_chunksByType pr_totalChunks pr_totalPages].
  assert (Hlen : length cs = length (paragraphContents parsedData)
                             + length (tableContents parsedData)).
  { rewrite <- length_app, <- Hc, length_map. reflexivity. }
  split; [reflexivity |]. split; [apply stats_of_types, Ht |].
  split; [exact Hlen |]. split.
  - exists new. split; [exact Hrows |]. split; [congruence |].
    unfold maxPage. rewrite Hnp. symmetry. apply calculateTotalPages_pages.
    eapply Forall_impl; [exact Hw |]. intros c H. apply H.
  - destruct Hrow as (d & Hd & Hs & He & Hp & Hn). exists d.
    repeat split; try assumption. intros Hne. apply Hn. intros ->. apply Hne.
    reflexivity.
Qed.

Lemma successful_run_stores_what_it_reports_witness :
  exists r w',
    ETLService.processDocument "D" Demo.fox (Demo.world true true) = (Ok r, w') /\
    pr_totalChunks r = 1 /\
    map row_content (Document.chunkRows "D" w')
      = ["The quick brown fox jumps over the lazy dog"].
Proof.
  destruct (ETLService.processDocument "D" Demo.fox (Demo.world true true))
    as [[r | e] w'] eqn:E.
  - exists r, w'. split; [reflexivity |].
    destruct (successful_run_stores_what_it_reports "D" Demo.fox
                (Demo.world true true) w' r E)
      as (_ & _ & Hn & (new & Hrows & Hc & _) & _).
    split; [exact Hn |]. rewrite Hrows, map_app, Hc. reflexivity.
  - vm_compute in E. discriminate E.
Defined.

(** ** The Document model *)

Lemma ofRow_fixed (d : DocumentData) :
  processingError d <> Some EmptyString -> Document.ofRow (id d) d = d.
Proof.
  intros H. destruct d as [i f o s m u st e tp tc up]. unfold Document.ofRow. cbn in *.
  f_equal. destruct e as [[| c e] |]; [contradiction | reflexivity | reflexivity].
Qed.

(** X14: a document that is saved is the one [findById] gives back, but for an
    empty error text, which is read back as none. The other documents
    and their chunk rows are left alone; the chunk rows of the document
    itself are kept with foreign keys off, and deleted with foreign keys
    on if the document had a row already. *)
Theorem save_then_findById (d : DocumentData) (w : World) :
  let w' := snd (Document.save d w) in
  Document.findById (id d) w' = (Ok (Some (Document.ofRow (id d) d)), w') /\
  (processingError d <> Some EmptyString -> Document.ofRow (id d) d = d) /\
  (forall other, other <> id d ->
     documents (db w') !! other = documents (db w) !! other /\
     Document.chunkRows other w' = Document.chunkRows other w) /\
  Document.chunkRows (id d) w'
    = if foreign_keys (db w) && bool_decide (hasRow (id d) w)
      then [] else Document.chunkRows (id d) w.
Proof.
  cbn zeta. unfold Document.findById, Document.chunkRows, hasRow. cbn.
  rewrite lookup_insert_eq. split; [reflexivity |].
  split; [apply ofRow_fixed |]. split.
  - intros other Hne. rewrite lookup_insert_ne by congruence.
    split; [reflexivity |].
    destruct (foreign_keys (db w) && _); [| reflexivity].
    induction (chunks (db w)) as [| r rest IH]; [reflexivity |].
    rewrite (filter_cons (fun r => document_id r <> id d)).
    destruct (decide (document_id r <> id d)) as [H | H].
    + rewrite !filter_cons. destruct (decide (document_id r = other)); congruence.
    + rewrite filter_cons_False; [exact IH |]. intros E. apply H. congruence.
  - destruct (foreign_keys (db w) && _); [apply chunkRows_filtered_out | reflexivity].
Qed.

(** ** jobs: cleanupJob *)

(** X15: [cleanupJob] never throws. It marks the document failed, with the
    reason, exactly when the document is being processed, so that the
    document is not in that state afterwards; otherwise it changes
    nothing. No other document and no chunk row is touched. *)
Theorem cleanupJob_settles_interrupted (documentId : string)
  (reason : option string) (w : World) :
  exists w',
    ProcessDocumentJob.cleanupJob documentId reason w = (Ok tt, w') /\
    chunks (db w') = chunks (db w) /\
    (forall other, other <> documentId ->
       documents (db w') !! other = documents (db w) !! other) /\
    (forall d, documents (db w') !! documentId = Some d ->
       processingStatus d <> PROCESSING) /\
    match documents (db w) !! documentId with
    | Some d =>
        if bool_decide (processingStatus d = PROCESSING)
        then statusIs documentId FAILED
               (Some ("Processing interrupted: " +:+ default "shutdown" reason)) w'
        else w' = w
    | None => w' = w
    end.
Proof.
  unfold ProcessDocumentJob.cleanupJob, Document.findById. run.
  destruct (documents (db w) !! documentId) as [d |] eqn:Hd;
    cbn [fmap option_fmap option_map].
  - cbn [processingStatus Document.ofRow].
    case_bool_decide as Hs.
    + eexists. split; [reflexivity |]. cbn. split; [reflexivity |].
      split; [intros other Hne; rewrite lookup_alter_ne by congruence; reflexivity |].
      split.
      * intros d'. rewrite lookup_alter, decide_True by reflexivity.
        rewrite Hd. intros [= <-]. discriminate.
      * unfold statusIs. cbn.
        rewrite lookup_alter, decide_True by reflexivity. rewrite Hd. cbn. eauto.
    + exists w. repeat split; try reflexivity.
      intros d'. rewrite Hd. intros [= <-]. exact Hs.
  - exists w. repeat split; try reflexivity. intros d'. rewrite Hd. discriminate.
Qed.

(** ** jobs: a job that is refused *)

(** X16: a job is checked before anything is processed. Without a document id
    it fails with "Document ID is required"; without parsed data with
    "Parsed data is required"; for a document that has no row with
    "Document ... not found". In each case the error goes to the queue
    and no document is loaded by the ETL service. For the missing parsed
    data the retry guard decides: before the final attempt the database
    is left as it was, on the final attempt the document is marked failed
    with the message. *)
Theorem refused_job_fails_before_processing (job : Job) (w : World) :
  (job_documentId job = None ->
   ProcessDocumentJob.processDocumentJob job w
     = (Throw (Error "Document ID is required"),
        with_progress w (progress w ++ [(job_id job, 10)]))) /\
  (forall documentId, job_documentId job = Some documentId -> validId documentId ->
     job_parsedData job = None ->
     fst (ProcessDocumentJob.processDocumentJob job w)
       = Throw (Error "Parsed data is required") /\
     (attemptsMade job + 1 < attempts job ->
      snd (ProcessDocumentJob.processDocumentJob job w)
        = with_progress w (progress w ++ [(job_id job, 10)])) /\
     (attempts job <= attemptsMade job + 1 -> hasRow documentId w ->
      statusIs documentId FAILED (Some "Parsed data is required")
        (snd (ProcessDocumentJob.processDocumentJob job w)))) /\
  (forall documentId, job_documentId job = Some documentId -> validId documentId ->
     is_Some (job_parsedData job) ->
     documents (db w) !! documentId = None ->
     ProcessDocumentJob.processDocumentJob job w
       = (Throw (Error ("Document " +:+ documentId +:+ " not found")),
          with_progress w (progress w ++ [(job_id job, 10)]))).
Proof.
  unfold ProcessDocumentJob.processDocumentJob, ProcessDocumentJob.attempt,
    ProcessDocumentJob.onError, ProcessDocumentJob.reportProgress,
    ProcessDocumentJob.findDocument, Document.findById.
  split; [| split].
  - intros ->. run. destruct (attempts job <=? attemptsMade job + 1); reflexivity.
  - intros documentId -> Hid ->. apply truthy_valid in Hid.
    run. rewrite Hid. cbn [negb progress db with_progress].
    split; [| split].
    + destruct (attempts job <=? attemptsMade job + 1); [| reflexivity].
      change (db (with_progress w (progress w ++ [(job_id job, 10)]))) with (db w).
      destruct (documents (db w) !! documentId); reflexivity.
    + intros Hlt. apply Nat.leb_gt in Hlt. rewrite Hlt. reflexivity.
    + intros Hle [d Hd]. apply Nat.leb_le in Hle. rewrite Hle.
      change (db (with_progress w (progress w ++ [(job_id job, 10)]))) with (db w).
      rewrite Hd.
      unfold statusIs. cbn.
      rewrite lookup_alter, decide_True by reflexivity. rewrite Hd. cbn. eauto.
  - intros documentId -> Hid [pd ->] Hnone. apply truthy_valid in Hid.
    run. rewrite Hid. cbn [negb].
    change (db (with_progress w (progress w ++ [(job_id job, 10)]))) with (db w).
    rewrite Hnone. cbn [fmap option_fmap option_map].
    destruct (attempts job <=? attemptsMade job + 1); [| reflexivity].
    change (db (with_progress w (progress w ++ [(job_id job, 10)]))) with (db w).
    rewrite Hnone. reflexivity.
Qed.

(** ** documentController: reprocessDocument *)

Lemma reprocess_text_long_enough (name : string) :
  10 <= String.length
          (ETLService.cleanText ("Document " +:+ name +:+ " reprocessing")).
Proof.
  pose proof (length_filter_chars Js.isWord
                (ETLService.cleanText ("Document " +:+ name +:+ " reprocessing")))
    as H.
  rewrite cleanText_words, !chars_app, !List.filter_app, !length_app in H.
  change (length (List.filter Js.isWord (Js.chars "Document "))) with 8 in H.
  change (length (List.filter Js.isWord (Js.chars " reprocessing"))) with 12 in H.
  lia.
Qed.

(** X17: a reprocess request is answered 404 for a document that has no row
    and 422 for one that is being processed, with nothing changed. For
    any other document it first sets the status to pending and clears the
    error. Then, when the queue takes the job, it is answered 200, and
    the job is one of three attempts for that document whose parsed data
    holds one paragraph, made of the original name, which is always long
    enough to give a chunk. When the queue throws, because it was not
    initialised or the add is rejected, it is answered 500 and no job is
    queued: the document stays pending. The chunk rows, the other fields
    of the row, the other documents, the search index and the cache are
    left as they are in both cases. *)
Theorem reprocess_queues_one_paragraph (queue : option JsError)
  (documentId : string) (w : World) :
  match documents (db w) !! documentId with
  | None =>
      DocumentController.reprocessDocument queue documentId w
        = (Ok (HTTP_STATUS.NOT_FOUND, None), w)
  | Some d =>
      if bool_decide (processingStatus d = PROCESSING)
      then DocumentController.reprocessDocument queue documentId w
             = (Ok (HTTP_STATUS.UNPROCESSABLE_ENTITY, None), w)
      else
        exists reply w',
          DocumentController.reprocessDocument queue documentId w = (Ok reply, w') /\
          documents (db w') = <[documentId := Document.setStatus PENDING None d]>
                                (documents (db w)) /\
          chunks (db w') = chunks (db w) /\
          meili w' = meili w /\ redis w' = redis w /\
          match queue with
          | Some _ => reply = (HTTP_STATUS.INTERNAL_SERVER_ERROR, None)
          | None =>
              exists job parsedData,
                reply = (HTTP_STATUS.OK, Some job) /\
                job_documentId job = Some documentId /\
                job_parsedData job = Some parsedData /\
                attemptsMade job = 0 /\ attempts job = 3 /\
                paragraphContents parsedData
                  = [ETLService.cleanText
                       ("Document " +:+ originalName d +:+ " reprocessing")] /\
                tableContents parsedData = []
          end
  end.
Proof.
  unfold DocumentController.reprocessDocument, QueueManager.addJob,
    Document.findById. run.
  destruct (documents (db w) !! documentId) as [d |] eqn:Hd;
    cbn [fmap option_fmap option_map]; [| reflexivity].
  cbn [processingStatus Document.ofRow].
  case_bool_decide as Hs; [reflexivity |].
  assert (Hrow : alter (Document.setStatus PENDING None) documentId (documents (db w))
                 = <[documentId := Document.setStatus PENDING None d]>
                     (documents (db w))).
  { apply map_eq. intros i. destruct (decide (i = documentId)) as [-> | Hne].
    - rewrite lookup_alter, decide_True by reflexivity.
      rewrite lookup_insert_eq, Hd. reflexivity.
    - rewrite lookup_alter_ne, lookup_insert_ne by congruence. reflexivity. }
  destruct queue as [error |].
  - eexists _, _. split; [reflexivity |]. cbn.
    split; [exact Hrow |]. repeat split.
  - eexists _, _. split; [reflexivity |]. cbn.
    split; [exact Hrow |]. repeat (split; [reflexivity |]).
    eexists _, _. split; [reflexivity |]. cbn.
    repeat (split; [reflexivity |]).
    split; [| reflexivity].
    change (longEnough
              [ETLService.cleanText
                 ("Document " +:+ originalName d +:+ " reprocessing")]
            = [ETLService.cleanText
                 ("Document " +:+ originalName d +:+ " reprocessing")]).
    rewrite longEnough_cons.
    pose proof (reprocess_text_long_enough (originalName d)) as Hlen.
    apply Nat.leb_le in Hlen. rewrite Hlen. reflexivity.
Qed.

(** ** documentController: deleteDocument *)

Lemma deleteIndex_outcome (indexName : string) (w : World) :
  (isConnected (meili w) = true -> meili_up (meili w) = true ->
   exists r w',
     MeiliSearchClient.deleteIndex indexName w = (r, w') /\
     db w' = db w /\ redis w' = redis w /\
     indexes (meili w') = delete indexName (indexes (meili w)) /\
     (r = Ok tt \/ r = Throw (MeiliSearchClient.indexNotFound indexName))) /\
  (isConnected (meili w) = false \/ meili_up (meili w) = false ->
   exists e, MeiliSearchClient.deleteIndex indexName w = (Throw e, w) /\
             code e = None).
Proof.
  unfold MeiliSearchClient.deleteIndex, MeiliSearchClient.requireConnected,
    MeiliSearchClient.request, MeiliSearchClient.setIndexes. run.
  split.
  - intros Hc Hu. rewrite Hc, Hu.
    destruct (indexes (meili w) !! indexName) as [docs |] eqn:Hi.
    + eexists _, _. split; [reflexivity |]. cbn. auto.
    + eexists _, _. split; [reflexivity |].
      rewrite delete_id by exact Hi. auto.
  - intros [Hc | Hu].
    + rewrite Hc. eexists. split; reflexivity.
    + destruct (isConnected (meili w)); rewrite ?Hu; eexists; split; reflexivity.
Qed.

(** X18: deleting a document that has a row removes the row and every chunk
    row of the document, leaves the other documents and their chunk rows
    alone, and is answered 200, whatever the search server does: when the
    client is connected and the server reachable the index of the document
    is gone afterwards, and otherwise the index is left behind. A
    document that has no row is answered 404 with nothing changed. *)
Theorem deleteDocument_removes_rows (documentId : string) (w : World) :
  (documents (db w) !! documentId = None ->
   DocumentController.deleteDocument documentId w = (Ok HTTP_STATUS.NOT_FOUND, w)) /\
  (hasRow documentId w ->
   exists w',
     DocumentController.deleteDocument documentId w = (Ok HTTP_STATUS.OK, w') /\
     documents (db w') = delete documentId (documents (db w)) /\
     Document.chunkRows documentId w' = [] /\
     (forall other, other <> documentId ->
        Document.chunkRows other w' = Document.chunkRows other w) /\
     redis w' = redis w /\
     indexes (meili w')
       = if isConnected (meili w) && meili_up (meili w)
         then delete (IndexService.getIndexName documentId) (indexes (meili w))
         else indexes (meili w)).
Proof.
  unfold DocumentController.deleteDocument, Document.findById. split.
  - intros Hd. run. rewrite Hd. reflexivity.
  - intros [d Hd]. unfold IndexService.deleteDocumentIndex.
    destruct (deleteIndex_outcome (IndexService.getIndexName documentId) w)
      as [Hup Hdown].
    assert (Hstep : exists w1,
               tryCatch
                 (tryCatch (MeiliSearchClient.deleteIndex
                              (IndexService.getIndexName documentId))
                    (fun error =>
                       if bool_decide (code error = Some "index_not_found")
                       then ret tt else throw error))
                 (fun _ => ret tt) w = (Ok tt, w1) /\
               db w1 = db w /\ redis w1 = redis w /\
               indexes (meili w1)
                 = if isConnected (meili w) && meili_up (meili w)
                   then delete (IndexService.getIndexName documentId)
                          (indexes (meili w))
                   else indexes (meili w)).
    { destruct (isConnected (meili w)) eqn:Hc, (meili_up (meili w)) eqn:Hu; cbn [andb].
      - destruct (Hup eq_refl eq_refl) as (r & w1 & Hr & Hdb & Hre & Hix & [-> | ->]);
          exists w1; unfold tryCatch; rewrite Hr; cbn; auto.
      - destruct (Hdown (or_intror eq_refl)) as (e & He & Hcode).
        exists w. unfold tryCatch. rewrite He, Hcode. cbn. auto.
      - destruct (Hdown (or_introl eq_refl)) as (e & He & Hcode).
        exists w. unfold tryCatch. rewrite He, Hcode. cbn. auto.
      - destruct (Hdown (or_introl eq_refl)) as (e & He & Hcode).
        exists w. unfold tryCatch. rewrite He, Hcode. cbn. auto. }
    destruct Hstep as (w1 & Hrun & Hdb & Hre & Hix).
    unfold tryCatch at 1. unfold bind at 1. cbn beta. rewrite Hd.
    cbn [fmap option_fmap option_map]. unfold bind at 1. rewrite Hrun.
    eexists. split; [reflexivity |]. unfold Document.chunkRows. cbn.
    rewrite Hdb. split; [reflexivity |]. split; [apply chunkRows_filtered_out |].
    split; [| auto].
    intros other Hne.
    induction (chunks (db w)) as [| r rest IH]; [reflexivity |].
    rewrite (filter_cons (fun r => document_id r <> documentId)).
    destruct (decide (document_id r <> documentId)) as [H | H].
    + rewrite !filter_cons. destruct (decide (document_id r = other)); congruence.
    + rewrite filter_cons_False; [exact IH |]. intros E. apply H. congruence.
Qed.

(** ** searchService.searchDocument and the cache *)

(** What indexService.search leaves alone, and the one query it sends. *)
Lemma index_search_outcome (documentId query : string)
  (options : IndexSearchOptions) (w : World) :
  exists r w',
    IndexService.search documentId query options w = (r, w') /\
    db w' = db w /\ redis w' = redis w /\
    indexes (meili w') = indexes (meili w) /\
    (queries (meili w') = queries (meili w) \/
     queries (meili w')
       = queries (meili w) ++ [(IndexService.getIndexName documentId, query)]) /\
    (isConnected (meili w) && meili_up (meili w) = false ->
     w' = w /\
     r = Throw (Error (if isConnected (meili w)
                       then "request to MeiliSearch failed"
                       else "MeiliSearch not connected"))).
Proof.
  unfold IndexService.search, MeiliSearchClient.search,
    MeiliSearchClient.requireConnected, MeiliSearchClient.request,
    MeiliSearchClient.logQuery. run.
  destruct (isConnected (meili w)) eqn:Hc;
    [destruct (meili_up (meili w)) eqn:Hu;
       [destruct (indexes (meili w) !! IndexService.getIndexName documentId) eqn:Hi |] |];
    eexists _, _; (split; [reflexivity |]); cbn; repeat split; auto; discriminate.
Qed.

Lemma cache_miss (key : string) (w : World) :
  (redis_isConnected (redis w) = false \/
   entries (redis w) !! key = None \/
   exists v expires, entries (redis w) !! key = Some (v, expires) /\
                     (expires <= clock (redis w))%Z) ->
  SearchService.getCachedResults key w = (Ok None, w).
Proof.
  unfold SearchService.getCachedResults, RedisClient.get. run.
  intros [Hc | [He | (v & expires & He & Hx)]].
  - rewrite Hc. reflexivity.
  - rewrite He. destruct (redis_isConnected (redis w)); reflexivity.
  - rewrite He. apply Z.ltb_ge in Hx. rewrite Hx.
    destruct (redis_isConnected (redis w)); reflexivity.
Qed.

(** A search that misses the cache is the search of the index, its
    response stored when it has a hit. *)
Lemma search_after_miss (documentId query : string) (options : SearchOptions)
  (w : World) (d : DocumentData) :
  validId documentId ->
  SEARCH_CONFIG.MIN_QUERY_LENGTH <= String.length (Js.trim query) ->
  documents (db w) !! documentId = Some d ->
  processingStatus d = COMPLETED ->
  SearchService.getCachedResults (cacheKeyOf documentId query options) w
    = (Ok None, w) ->
  SearchService.searchDocument documentId (Some query) options w
    = match IndexService.search documentId (SearchService.cleanSearchQuery query)
              (SearchService.indexOptions options) w with
      | (Ok results, w') =>
          let finalResults :=
            {| sr_results := results; sr_document := Document.ofRow documentId d;
               sr_originalQuery := query;
               sr_cleanedQuery := SearchService.cleanSearchQuery query;
               sr_cached := false |} in
          if 0 <? length (ir_hits results)
          then (Ok finalResults,
                snd (SearchService.cacheResults
                       (cacheKeyOf documentId query options) finalResults w'))
          else (Ok finalResults, w')
      | (Throw e, w') => (Throw e, w')
      end.
Proof.
  intros Hid Hlen Hdoc Hst Hmiss.
  unfold SearchService.searchDocument.
  rewrite (truthy_valid _ Hid), (long_query_passes _ Hlen). cbn [negb].
  unfold Document.findById. run. rewrite Hdoc.
  cbn [fmap option_fmap option_map].
  replace (processingStatus (Document.ofRow documentId d)) with COMPLETED
    by (symmetry; exact Hst).
  rewrite bool_decide_eq_true_2 by reflexivity. cbn [negb].
  unfold cacheKeyOf in *. rewrite Hmiss.
  destruct (IndexService.search documentId (SearchService.cleanSearchQuery query)
              (SearchService.indexOptions options) w) as [[results | e] w'];
    [| reflexivity].
  cbv zeta. destruct (0 <? length (ir_hits results)); [| reflexivity].
  unfold SearchService.cacheResults, RedisClient.set. run.
  destruct (redis_isConnected (redis w')); reflexivity.
Qed.

(** X19: a search whose response came with a hit, made while the cache is
    connected, leaves that response in the cache under the key of the
    search, not yet expired: the same search made again returns the same
    response and changes nothing, so it does not reach the index. *)
Theorem repeated_search_is_served_from_cache (documentId query : string)
  (options : SearchOptions) (w w1 : World) (r : SearchResponse) :
  redis_isConnected (redis w) = true ->
  SearchService.searchDocument documentId (Some query) options w = (Ok r, w1) ->
  0 < length (ir_hits (sr_results r)) ->
  (exists expires,
     entries (redis w1) !! cacheKeyOf documentId query options = Some (r, expires) /\
     (clock (redis w1) < expires)%Z) /\
  SearchService.searchDocument documentId (Some query) options w1 = (Ok r, w1).
Proof.
  intros Hconn H Hhits.
  assert (Hid : validId documentId).
  { intros ->. unfold SearchService.searchDocument in H. run. discriminate H. }
  destruct (Nat.ltb_spec (String.length (Js.trim query)) SEARCH_CONFIG.MIN_QUERY_LENGTH)
    as [Hshort | Hlen].
  { rewrite (search_query_too_short _ _ _ _ Hid Hshort) in H. discriminate H. }
  destruct (documents (db w) !! documentId) as [d |] eqn:Hdoc;
    [| rewrite (search_not_found _ _ _ _ Hid Hlen Hdoc) in H; discriminate H].
  destruct (decide (processingStatus d = COMPLETED)) as [Hst | Hst];
    [| rewrite (search_not_ready _ _ _ _ _ Hid Hlen Hdoc Hst) in H; discriminate H].
  assert (Hhit : forall v expires,
             entries (redis w) !! cacheKeyOf documentId query options
               = Some (v, expires) ->
             (clock (redis w) < expires)%Z ->
             (exists expires,
                entries (redis w1) !! cacheKeyOf documentId query options
                  = Some (r, expires) /\
                (clock (redis w1) < expires)%Z) /\
             SearchService.searchDocument documentId (Some query) options w1
               = (Ok r, w1)).
  { intros v expires He Hx.
    pose proof (search_served_from_cache _ _ _ _ _ _ _ Hid Hlen Hdoc Hst Hconn He Hx)
      as Hs.
    rewrite Hs in H. injection H as -> ->.
    split; [exists expires; auto | exact Hs]. }
  assert (Hmiss : SearchService.getCachedResults
                    (cacheKeyOf documentId query options) w = (Ok None, w) ->
                  (exists expires,
                     entries (redis w1) !! cacheKeyOf documentId query options
                       = Some (r, expires) /\
                     (clock (redis w1) < expires)%Z) /\
                  SearchService.searchDocument documentId (Some query) options w1
                    = (Ok r, w1)).
  { intros Hm.
    rewrite (search_after_miss _ _ _ _ _ Hid Hlen Hdoc Hst Hm) in H.
    destruct (index_search_outcome documentId (SearchService.cleanSearchQuery query)
                (SearchService.indexOptions options) w)
      as (r0 & w' & Hs & Hdb & Hredis & _).
    rewrite Hs in H. destruct r0 as [results | e]; [| discriminate H].
    cbv zeta in H.
    destruct (0 <? length (ir_hits results)) eqn:Hh.
    - unfold SearchService.cacheResults, RedisClient.set in H. run.
      rewrite Hredis, Hconn in H. cbn [snd] in H. injection H as <- <-.
      assert (He : entries (redis
                     (with_redis w'
                        {| redis_isConnected := true;
                           entries :=
                             <[cacheKeyOf documentId query options :=
                                 ({| sr_results := results;
                                     sr_document := Document.ofRow documentId d;
                                     sr_originalQuery := query;
                                     sr_cleanedQuery :=
                                       SearchService.cleanSearchQuery query;
                                     sr_cached := false |},
                                  (clock (redis w) + SearchService.cacheTTL)%Z)]>
                               (entries (redis w));
                           clock := clock (redis w) |}))
                     !! cacheKeyOf documentId query options
                   = Some ({| sr_results := results;
                              sr_document := Document.ofRow documentId d;
                              sr_originalQuery := query;
                              sr_cleanedQuery := SearchService.cleanSearchQuery query;
                              sr_cached := false |},
                           (clock (redis w) + SearchService.cacheTTL)%Z)).
      { cbn. apply lookup_insert_eq. }
      assert (Hx : (clock (redis w) < clock (redis w) + SearchService.cacheTTL)%Z).
      { unfold SearchService.cacheTTL. lia. }
      split; [eexists; split; [exact He | exact Hx] |].
      eapply search_served_from_cache;
        [exact Hid | exact Hlen | cbn; rewrite Hdb; exact Hdoc | exact Hst
        | reflexivity | exact He | exact Hx].
    - injection H as <- <-. cbn in Hhits. apply Nat.ltb_ge in Hh. lia. }
  destruct (entries (redis w) !! cacheKeyOf documentId query options)
    as [[v expires] |] eqn:He.
  - destruct (Z.ltb_spec (clock (redis w)) expires) as [Hx | Hx].
    + exact (Hhit v expires eq_refl Hx).
    + apply Hmiss, cache_miss. right. right. eauto.
  - apply Hmiss, cache_miss. auto.
Qed.

(** A server with an index of one entry for the completed document:
    the search for "fox" finds it, and the second search is the first. *)
Lemma repeated_search_is_served_from_cache_witness :
  exists r,
    SearchService.searchDocument "D" (Some "fox") Demo.options
      (Demo.afterFirstRun false) = (Ok r, Demo.afterSearch) /\
    SearchService.searchDocument "D" (Some "fox") Demo.options Demo.afterSearch
      = (Ok r, Demo.afterSearch).
Proof.
  destruct (SearchService.searchDocument "D" (Some "fox") Demo.options
              (Demo.afterFirstRun false)) as [[r | e] w1] eqn:E.
  - assert (Hw : w1 = Demo.afterSearch).
    { unfold Demo.afterSearch. rewrite E. reflexivity. }
    subst w1. exists r. split; [reflexivity |].
    apply (repeated_search_is_served_from_cache "D" "fox" Demo.options
             (Demo.afterFirstRun false) Demo.afterSearch r).
    + reflexivity.
    + exact E.
    + vm_compute in E. injection E as <-. vm_compute. lia.
  - vm_compute in E. discriminate E.
Defined.

(** X20: a search changes neither the database nor the indexes of the server.
    It sends the server at most one query, the cleaned one, to the index
    of the document. Of the cache it can change the entry of its own key
    only, and nothing when the cache is not connected. *)
Theorem search_only_reads (documentId : string) (query : option string)
  (options : SearchOptions) (w : World) :
  let w' := snd (SearchService.searchDocument documentId query options w) in
  db w' = db w /\
  indexes (meili w') = indexes (meili w) /\
  (queries (meili w') = queries (meili w) \/
   exists asked,
     query = Some asked /\
     queries (meili w')
       = queries (meili w) ++
           [(IndexService.getIndexName documentId,
             SearchService.cleanSearchQuery asked)]) /\
  (redis_isConnected (redis w) = false -> redis w' = redis w) /\
  (forall asked key,
     query = Some asked -> key <> cacheKeyOf documentId asked options ->
     entries (redis w') !! key = entries (redis w) !! key).
Proof.
  assert (Hsame : forall e,
            SearchService.searchDocument documentId query options w = (Throw e, w) ->
            let w' := snd (SearchService.searchDocument documentId query options w) in
            db w' = db w /\
            indexes (meili w') = indexes (meili w) /\
            (queries (meili w') = queries (meili w) \/
             exists asked,
               query = Some asked /\
               queries (meili w')
                 = queries (meili w) ++
                     [(IndexService.getIndexName documentId,
                       SearchService.cleanSearchQuery asked)]) /\
            (redis_isConnected (redis w) = false -> redis w' = redis w) /\
            (forall asked key,
               query = Some asked -> key <> cacheKeyOf documentId asked options ->
               entries (redis w') !! key = entries (redis w) !! key)).
  { intros e ->. cbn. auto 10. }
  destruct (decide (documentId = EmptyString)) as [Hd | Hid].
  { destruct query; eapply Hsame; rewrite Hd; reflexivity. }
  destruct query as [query |];
    [| destruct documentId; [now elim Hid | eapply Hsame; reflexivity]].
  destruct (Nat.ltb_spec (String.length (Js.trim query)) SEARCH_CONFIG.MIN_QUERY_LENGTH)
    as [Hshort | Hlen].
  { eapply Hsame, search_query_too_short; assumption. }
  destruct (documents (db w) !! documentId) as [d |] eqn:Hdoc;
    [| eapply Hsame, search_not_found; assumption].
  destruct (decide (processingStatus d = COMPLETED)) as [Hst | Hst];
    [| eapply Hsame, search_not_ready; eassumption].
  clear Hsame.
  assert (Hmiss : SearchService.getCachedResults
                    (cacheKeyOf documentId query options) w = (Ok None, w) ->
            let w' := snd (SearchService.searchDocument documentId (Some query)
                             options w) in
            db w' = db w /\
            indexes (meili w') = indexes (meili w) /\
            (queries (meili w') = queries (meili w) \/
             exists asked,
               Some query = Some asked /\
               queries (meili w')
                 = queries (meili w) ++
                     [(IndexService.getIndexName documentId,
                       SearchService.cleanSearchQuery asked)]) /\
            (redis_isConnected (redis w) = false -> redis w' = redis w) /\
            (forall asked key,
               Some query = Some asked ->
               key <> cacheKeyOf documentId asked options ->
               entries (redis w') !! key = entries (redis w) !! key)).
  { intros Hm.
    rewrite (search_after_miss _ _ _ _ _ Hid Hlen Hdoc Hst Hm).
    destruct (index_search_outcome documentId (SearchService.cleanSearchQuery query)
                (SearchService.indexOptions options) w)
      as (r0 & w' & Hs & Hdb & Hredis & Hix & Hq & _).
    rewrite Hs.
    assert (Hqs : queries (meili w') = queries (meili w) \/
                  exists asked,
                    Some query = Some asked /\
                    queries (meili w')
                      = queries (meili w) ++
                          [(IndexService.getIndexName documentId,
                            SearchService.cleanSearchQuery asked)]).
    { destruct Hq as [Hq | Hq]; [left; exact Hq | right; eauto]. }
    destruct r0 as [results | e]; [| cbn; rewrite Hredis; auto 10].
    cbv zeta. destruct (0 <? length (ir_hits results));
      [| cbn; rewrite Hredis; auto 10].
    unfold SearchService.cacheResults, RedisClient.set. run.
    rewrite Hredis.
    destruct (redis_isConnected (redis w)) eqn:Hc; cbn.
    - repeat split; auto; [discriminate |].
      intros asked key [= <-] Hne. apply lookup_insert_ne. congruence.
    - rewrite Hredis. auto 10. }
  destruct (redis_isConnected (redis w)) eqn:Hconn;
    [| apply Hmiss, cache_miss; auto].
  destruct (entries (redis w) !! cacheKeyOf documentId query options)
    as [[v expires] |] eqn:He; [| apply Hmiss, cache_miss; auto].
  destruct (Z.ltb_spec (clock (redis w)) expires) as [Hx | Hx];
    [| apply Hmiss, cache_miss; right; right; eauto].
  rewrite (search_served_from_cache _ _ _ _ _ _ _ Hid Hlen Hdoc Hst Hconn He Hx).
  cbn. auto 10.
Qed.

(** X21: the number of results a search asks the server for, and reports in
    its response, is the requested limit, 20 when that is absent, not a
    number or 0, and never more than 100; a limit from 1 to 100 is used
    as it is. The offset is the requested one, 0 when absent. *)
Theorem search_limit_is_capped (options : SearchOptions) :
  let sent := IndexService.meiliOptions (SearchService.indexOptions options) in
  mo_limit sent
    = Z.min (numOr (so_limit options) SEARCH_CONFIG.DEFAULT_LIMIT)
        SEARCH_CONFIG.MAX_RESULTS /\
  (mo_limit sent <= SEARCH_CONFIG.MAX_RESULTS)%Z /\
  mo_limit sent <> 0%Z /\
  (forall n, so_limit options = Num n -> (1 <= n <= 100)%Z -> mo_limit sent = n) /\
  (forall n, so_limit options = Num n -> (n < 0)%Z -> mo_limit sent = n) /\
  mo_offset sent = numOr (so_offset options) 0.
Proof.
  cbn. unfold SEARCH_CONFIG.DEFAULT_LIMIT, SEARCH_CONFIG.MAX_RESULTS.
  assert (H0 : numOr (so_limit options) 20 <> 0%Z).
  { destruct (so_limit options) as [| | | n]; cbn; try lia.
    destruct (Z.eqb_spec n 0); lia. }
  assert (Hm : Z.min (numOr (so_limit options) 20) 100 <> 0%Z) by lia.
  apply Z.eqb_neq in Hm. rewrite Hm.
  repeat split; try lia.
  - intros n -> Hn. cbn. destruct (Z.eqb_spec n 0); lia.
  - intros n -> Hn. cbn. destruct (Z.eqb_spec n 0); lia.
  - destruct (so_offset options) as [| | | n]; cbn; try reflexivity.
    destruct (Z.eqb_spec n 0) as [-> | Hn]; [reflexivity |].
    apply Z.eqb_neq in Hn. rewrite Hn. reflexivity.
Qed.

(** ** indexService: the index of a document *)

Lemma getIndexName_inj (a b : string) :
  IndexService.getIndexName a = IndexService.getIndexName b -> a = b.
Proof. intros H. vm_compute in H. congruence. Qed.

Lemma existsb_id_false (d : SearchDocument) (l : list SearchDocument) :
  ~ In (sd_id d) (map sd_id l) ->
  existsb (fun x => String.eqb (sd_id x) (sd_id d)) l = false.
Proof.
  intros H. induction l as [| x l IH]; [reflexivity |]. cbn in *.
  destruct (String.eqb_spec (sd_id x) (sd_id d)) as [E | _]; [tauto |].
  apply IH. tauto.
Qed.

Lemma upsertAll_fresh (docs l : list SearchDocument) :
  List.NoDup (map sd_id (l ++ docs)) ->
  MeiliSearchClient.upsertAll docs l = l ++ docs.
Proof.
  unfold MeiliSearchClient.upsertAll. revert l.
  induction docs as [| d docs IH]; intros l Hnd; cbn.
  - rewrite app_nil_r. reflexivity.
  - replace (l ++ d :: docs) with ((l ++ [d]) ++ docs) in *
      by (rewrite <- app_assoc; reflexivity).
    unfold MeiliSearchClient.upsert at 2.
    rewrite existsb_id_false.
    + apply IH. exact Hnd.
    + rewrite !map_app in Hnd. apply List.NoDup_app_remove_r in Hnd.
      cbn in Hnd. apply List.NoDup_remove_2 in Hnd.
      rewrite app_nil_r in Hnd. exact Hnd.
Qed.

(** X22: [createDocumentIndex] connects the client when it is not connected.
    With the server reachable it returns the name of the index, the
    client is connected afterwards, and the document has an index: the
    one it had, with its entries, or else an empty one. With the server
    unreachable it throws and no index is made. The database is left
    alone either way. *)
Theorem createDocumentIndex_connects (documentId : string) (w : World) :
  let out := IndexService.createDocumentIndex documentId w in
  db (snd out) = db w /\
  (meili_up (meili w) = true ->
   fst out = Ok (IndexService.getIndexName documentId) /\
   isConnected (meili (snd out)) = true /\
   indexes (meili (snd out))
     = <[IndexService.getIndexName documentId :=
           default [] (indexes (meili w) !! IndexService.getIndexName documentId)]>
         (indexes (meili w))) /\
  (meili_up (meili w) = false ->
   fst out = Throw (Error "request to MeiliSearch failed") /\
   indexes (meili (snd out)) = indexes (meili w)).
Proof.
  unfold IndexService.createDocumentIndex, MeiliSearchClient.isHealthy,
    MeiliSearchClient.connect, MeiliSearchClient.createIndex,
    MeiliSearchClient.configureIndex, MeiliSearchClient.serverCreateIndex,
    MeiliSearchClient.requireConnected, MeiliSearchClient.request,
    MeiliSearchClient.setConnected, MeiliSearchClient.setIndexes.
  run.
  destruct (isConnected (meili w)) eqn:Hc, (meili_up (meili w)) eqn:Hu;
    destruct (indexes (meili w) !! IndexService.getIndexName documentId)
      as [docs |] eqn:Hi;
    repeat first
      [ rewrite Hc | rewrite Hu | rewrite Hi
      | rewrite bool_decide_eq_true_2 by reflexivity
      | progress cbn ];
    (split; [reflexivity |]); (split; [| intros; try discriminate; auto]);
    intros; try discriminate; repeat split;
    rewrite ?(insert_id _ _ _ Hi); reflexivity.
Qed.

(** X23: with the client connected and the server reachable, [reindexDocument]
    of chunks with distinct ids returns their number and leaves in the
    index of the document an entry for each chunk, in their order, and
    nothing of what the index held; the indexes of other documents and
    the database are left alone. With the client not connected it throws
    at the deletion, without trying to connect, and changes nothing. *)
Theorem reindexDocument_leaves_new_entries (documentId : string)
  (cs : list Chunk) (w : World) :
  (isConnected (meili w) = true -> meili_up (meili w) = true ->
   List.NoDup (map chunk_id cs) ->
   exists w',
     IndexService.reindexDocument documentId cs w
       = (Ok (IndexService.getIndexName documentId, length cs), w') /\
     indexes (meili w')
       = <[IndexService.getIndexName documentId :=
             map (IndexService.searchDocumentOf documentId) cs]>
           (indexes (meili w)) /\
     (forall other, other <> documentId ->
        indexes (meili w') !! IndexService.getIndexName other
          = indexes (meili w) !! IndexService.getIndexName other) /\
     db w' = db w) /\
  (isConnected (meili w) = false ->
   IndexService.reindexDocument documentId cs w
     = (Throw (Error "MeiliSearch not connected"), w)).
Proof.
  unfold IndexService.reindexDocument, IndexService.deleteDocumentIndex,
    IndexService.createDocumentIndex, IndexService.indexDocumentChunks,
    MeiliSearchClient.deleteIndex, MeiliSearchClient.addDocuments,
    MeiliSearchClient.isHealthy,
    MeiliSearchClient.connect, MeiliSearchClient.createIndex,
    MeiliSearchClient.configureIndex, MeiliSearchClient.serverCreateIndex,
    MeiliSearchClient.requireConnected, MeiliSearchClient.request,
    MeiliSearchClient.setConnected, MeiliSearchClient.setIndexes.
  run. split.
  - intros Hc Hu Hnd. rewrite Hc, Hu.
    assert (Hfresh : MeiliSearchClient.upsertAll
                       (map (IndexService.searchDocumentOf documentId) cs) []
                     = map (IndexService.searchDocumentOf documentId) cs).
    { rewrite upsertAll_fresh; [reflexivity |].
      cbn. rewrite map_map. exact Hnd. }
    assert (Hother : forall (x : list SearchDocument)
                            (m : gmap string (list SearchDocument)) other,
               other <> documentId ->
               <[IndexService.getIndexName documentId := x]> m
                 !! IndexService.getIndexName other
               = m !! IndexService.getIndexName other).
    { intros x m other Hne. apply lookup_insert_ne.
      intros E. apply Hne. symmetry. exact (getIndexName_inj _ _ E). }
    destruct (indexes (meili w) !! IndexService.getIndexName documentId)
      as [docs |] eqn:Hi.
    + repeat first
        [ rewrite Hc | rewrite Hu | rewrite Hi | rewrite lookup_delete_eq
        | rewrite lookup_insert_eq | progress cbn ].
      rewrite Hfresh. eexists. split; [reflexivity |]. cbn.
      rewrite insert_insert_eq, insert_delete_eq.
      split; [reflexivity |]. split; [| reflexivity].
      intros other Hne. apply Hother, Hne.
    + repeat first
        [ rewrite Hc | rewrite Hu | rewrite Hi | rewrite lookup_insert_eq
        | rewrite bool_decide_eq_true_2 by reflexivity | progress cbn ].
      rewrite Hfresh. eexists. split; [reflexivity |]. cbn.
      rewrite insert_insert_eq.
      split; [reflexivity |]. split; [| reflexivity].
      intros other Hne. apply Hother, Hne.
  - intros Hc. rewrite Hc. reflexivity.
Qed.

(** The index of the demonstration document after a first run, made
    again from one chunk, holds that chunk only. *)
Lemma reindexDocument_leaves_new_entries_witness :
  let cs := [ {| chunk_id := "chunk_9"; chunk_type := PARAGRAPH;
                 content := "Document report.pdf reprocessing"; pageNumber := 1;
                 position := []; ocrConfidence := None;
                 metadata := ParagraphMeta 32 32 None |} ] in
  exists w',
    IndexService.reindexDocument "D" cs (Demo.afterFirstRun false)
      = (Ok ("pdf_search_D", 1), w') /\
    (map sd_content <$> indexes (meili w') !! "pdf_search_D")
      = Some ["Document report.pdf reprocessing"].
Proof.
  intros cs.
  destruct (proj1 (reindexDocument_leaves_new_entries "D" cs
                     (Demo.afterFirstRun false)))
    as (w' & Hrun & Hix & _).
  - reflexivity.
  - reflexivity.
  - constructor; [intros [] | constructor].
  - exists w'. split; [exact Hrun |]. rewrite Hix.
    change "pdf_search_D" with (IndexService.getIndexName "D").
    rewrite lookup_insert_eq. reflexivity.
Defined.

(** ** searchService: suggestions *)

Lemma lowered_word (c : ascii) :
  Js.isWord (Js.toLowerChar c) = true -> Js.isUpper (Js.toLowerChar c) = false.
Proof. by_ascii c. Qed.

Lemma Forall_splitRuns (P : ascii -> Prop) (p : ascii -> bool)
  (cur : list ascii) (inRun : bool) (l : list ascii) :
  Forall P l -> Forall P cur -> Forall (Forall P) (Js.splitRuns p cur inRun l).
Proof.
  intros Hl. revert cur inRun.
  induction Hl as [| c r Hc Hr IH]; intros cur inRun Hcur; cbn.
  - constructor; [| constructor]. apply Forall_rev. exact Hcur.
  - destruct (p c).
    + destruct inRun; [apply IH; exact Hcur |].
      constructor; [apply Forall_rev; exact Hcur | apply IH; constructor].
    + apply IH. constructor; assumption.
Qed.

(** The pieces of a lower-cased text have no upper-case word character. *)
Lemma split_lowered (s : string) :
  Forall (fun word =>
            Forall (fun c => Js.isWord c = true -> Js.isUpper c = false)
                   (Js.chars word))
         (Js.split Js.isSpace (Js.toLowerCase s)).
Proof.
  unfold Js.split. apply Forall_map.
  eapply Forall_impl;
    [apply (Forall_splitRuns
              (fun c => Js.isWord c = true -> Js.isUpper c = false)) |].
  - rewrite chars_toLowerCase. apply Forall_map, Forall_true.
    intros c. apply lowered_word.
  - constructor.
  - intros piece H. cbn. rewrite chars_str. exact H.
Qed.

Lemma cleanWord_lower (word : string) :
  Forall (fun c => Js.isWord c = true -> Js.isUpper c = false) (Js.chars word) ->
  Forall lowerWord (Js.chars (Js.str (List.filter Js.isWord (Js.chars word)))).
Proof.
  intros H. rewrite chars_str. apply List.Forall_forall. intros c Hin.
  apply List.filter_In in Hin. destruct Hin as [Hin Hw].
  rewrite List.Forall_forall in H. split; [exact Hw | exact (H c Hin Hw)].
Qed.

Lemma NoDup_addWord (word : string) (seen : list string) :
  NoDup seen -> NoDup (SearchService.addWord word seen).
Proof.
  intros H. unfold SearchService.addWord.
  destruct (existsb (String.eqb word) seen) eqn:E; [exact H |].
  apply NoDup_app. split; [exact H |]. split; [| apply NoDup_singleton].
  intros x Hx Hw. apply list_elem_of_singleton in Hw. subst x.
  assert (Ht : existsb (String.eqb word) seen = true).
  { apply existsb_exists. exists word. split; [apply list_elem_of_In, Hx |].
    apply String.eqb_refl. }
  congruence.
Qed.

Lemma Forall_addWord (P : string -> Prop) (word : string) (seen : list string) :
  P word -> Forall P seen -> Forall P (SearchService.addWord word seen).
Proof.
  intros Hw H. unfold SearchService.addWord.
  destruct (existsb (String.eqb word) seen); [exact H |].
  apply Forall_app. split; [exact H | constructor; [exact Hw | constructor]].
Qed.

Lemma extractSuggestions_suggested (query : string) (hs : list SearchDocument) :
  NoDup (SearchService.extractSuggestions hs query) /\
  Forall (suggested query) (SearchService.extractSuggestions hs query).
Proof.
  unfold SearchService.extractSuggestions.
  assert (Hgen : forall seen,
            NoDup seen /\ Forall (suggested query) seen ->
            NoDup (fold_left
                     (fun seen hit =>
                        if Js.truthy (sd_content hit) then
                          fold_left
                            (fun seen word =>
                               let cleanWord :=
                                 Js.str (List.filter Js.isWord (Js.chars word)) in
                               if (2 <? String.length cleanWord) &&
                                  (Js.startsWith cleanWord (Js.toLowerCase query) ||
                                   existsb (fun qw => Js.includes cleanWord qw)
                                     (Js.split Js.isSpace (Js.toLowerCase query)))
                               then SearchService.addWord cleanWord seen else seen)
                            (Js.split Js.isSpace (Js.toLowerCase (sd_content hit)))
                            seen
                        else seen) hs seen) /\
            Forall (suggested query)
              (fold_left
                     (fun seen hit =>
                        if Js.truthy (sd_content hit) then
                          fold_left
                            (fun seen word =>
                               let cleanWord :=
                                 Js.str (List.filter Js.isWord (Js.chars word)) in
                               if (2 <? String.length cleanWord) &&
                                  (Js.startsWith cleanWord (Js.toLowerCase query) ||
                                   existsb (fun qw => Js.includes cleanWord qw)
                                     (Js.split Js.isSpace (Js.toLowerCase query)))
                               then SearchService.addWord cleanWord seen else seen)
                            (Js.split Js.isSpace (Js.toLowerCase (sd_content hit)))
                            seen
                        else seen) hs seen)).
  { induction hs as [| hit hs IH]; intros seen Hseen; [exact Hseen |].
    cbn [fold_left]. apply IH.
    destruct (Js.truthy (sd_content hit)); [| exact Hseen].
    pose proof (split_lowered (sd_content hit)) as Hwords.
    revert seen Hseen.
    induction Hwords as [| word words Hword _ IHw]; intros seen Hseen;
      [exact Hseen |].
    cbn [fold_left]. apply IHw. cbv zeta.
    destruct (2 <? String.length
                     (Js.str (List.filter Js.isWord (Js.chars word)))) eqn:Hlen;
      [| exact Hseen].
    cbn [andb].
    destruct (Js.startsWith (Js.str (List.filter Js.isWord (Js.chars word)))
                (Js.toLowerCase query) ||
              existsb
                (fun qw =>
                   Js.includes (Js.str (List.filter Js.isWord (Js.chars word))) qw)
                (Js.split Js.isSpace (Js.toLowerCase query))) eqn:Hrel;
      [| exact Hseen].
    destruct Hseen as [Hnd Hall].
    split; [apply NoDup_addWord, Hnd |].
    apply Forall_addWord; [| exact Hall].
    split; [apply Nat.ltb_lt, Hlen |].
    split; [apply cleanWord_lower, Hword | exact Hrel]. }
  apply Hgen. split; constructor.
Qed.

Lemma length_slice0 {A : Type} (n : Z) (l : list A) :
  (0 <= n)%Z -> length (SearchService.slice0 n l) <= Z.to_nat n.
Proof.
  intros Hn. unfold SearchService.slice0.
  apply Z.leb_le in Hn. rewrite Hn. rewrite length_take. lia.
Qed.

Lemma sublist_slice0 {A : Type} (n : Z) (l : list A) :
  SearchService.slice0 n l `sublist_of` l.
Proof.
  unfold SearchService.slice0. destruct (0 <=? n)%Z; apply sublist_take.
Qed.

Lemma suggestions_returned (documentId : string) (query : option string)
  (limit : Z) (w : World) :
  exists s w', SearchService.searchSuggestions documentId query limit w = (Ok s, w').
Proof.
  unfold SearchService.searchSuggestions. run.
  destruct query as [asked |]; [| eauto].
  destruct (negb (Js.truthy asked) || (String.length asked <? 2)); [eauto |].
  destruct (IndexService.search documentId asked
              (SearchService.suggestionOptions limit) w) as [[results | e] w'];
    eauto.
Qed.

(** X24: the suggestions for a query are returned, never thrown. They are
    distinct; each is longer than two characters, is made of digits,
    lower-case letters and underscores only, and starts with the
    lower-cased query or holds one of its words; and for a limit that is
    not negative there are at most [limit] of them. The database and the
    cache are left alone. *)
Theorem suggestions_are_distinct_words (documentId : string)
  (query : option string) (limit : Z) (w : World) :
  exists s w',
    SearchService.searchSuggestions documentId query limit w = (Ok s, w') /\
    db w' = db w /\ redis w' = redis w /\
    NoDup (suggestions s) /\
    ((0 <= limit)%Z -> length (suggestions s) <= Z.to_nat limit) /\
    Forall (fun word => exists asked, query = Some asked /\ suggested asked word)
           (suggestions s).
Proof.
  assert (Hnone : forall w',
            db w' = db w -> redis w' = redis w ->
            exists s w'',
              (Ok SearchService.noSuggestions, w') = (Ok s, w'') /\
              db w'' = db w /\ redis w'' = redis w /\
              NoDup (suggestions s) /\
              ((0 <= limit)%Z -> length (suggestions s) <= Z.to_nat limit) /\
              Forall (fun word =>
                        exists asked, query = Some asked /\ suggested asked word)
                     (suggestions s)).
  { intros w' Hdb Hredis. eexists _, _. split; [reflexivity |].
    cbn. repeat split; auto; [constructor | lia]. }
  unfold SearchService.searchSuggestions. run.
  destruct query as [asked |]; [| apply Hnone; reflexivity].
  destruct (negb (Js.truthy asked) || (String.length asked <? 2));
    [apply Hnone; reflexivity |].
  destruct (index_search_outcome documentId asked
              (SearchService.suggestionOptions limit) w)
    as (r & w' & Hs & Hdb & Hredis & _).
  rewrite Hs. destruct r as [results | e]; [| apply Hnone; assumption].
  eexists _, _. split; [reflexivity |]. cbn [suggestions].
  destruct (extractSuggestions_suggested asked (ir_hits results)) as [Hnd Hall].
  split; [exact Hdb |]. split; [exact Hredis |].
  split; [eapply sublist_NoDup; [exact Hnd | apply sublist_slice0] |].
  split; [apply length_slice0 |].
  eapply Forall_impl.
  - unfold SearchService.slice0. destruct (0 <=? limit)%Z; apply Forall_take, Hall.
  - cbn. intros word Hword. exists asked. split; [reflexivity | exact Hword].
Qed.

(** ** searchController: the other search routes *)

(** The three failures searchService.searchDocument tells apart. *)
Lemma search_refused (documentId query : string) (options : SearchOptions)
  (w : World) :
  validId documentId ->
  String.length (Js.trim query) < SEARCH_CONFIG.MIN_QUERY_LENGTH \/
  documents (db w) !! documentId = None \/
  (exists d, documents (db w) !! documentId = Some d /\
             processingStatus d <> COMPLETED) ->
  exists e,
    SearchService.searchDocument documentId (Some query) options w = (Throw e, w).
Proof.
  intros Hid H.
  destruct (Nat.ltb_spec (String.length (Js.trim query)) SEARCH_CONFIG.MIN_QUERY_LENGTH)
    as [Hshort | Hlen].
  { eexists. apply search_query_too_short; assumption. }
  destruct H as [H | [H | (d & Hd & Hst)]]; [lia | |].
  - eexists. apply search_not_found; assumption.
  - eexists. eapply search_not_ready; eassumption.
Qed.

(** X25: the search by content type and the search of a page answer a query
    that is too short, an unknown document and a document that is not
    completed with the status 500 and one fixed message each, where the
    plain search answers 400, 404 and 422; nothing is changed. The search
    of a page answers a page number that is below 1 or not a number with
    400, before it looks at the query or the document. *)
Theorem typed_and_page_search_answer_500 (documentId type query : string)
  (pageType : option string) (limit offset : option Z) (w : World) :
  validId documentId ->
  String.length (Js.trim query) < SEARCH_CONFIG.MIN_QUERY_LENGTH \/
  documents (db w) !! documentId = None \/
  (exists d, documents (db w) !! documentId = Some d /\
             processingStatus d <> COMPLETED) ->
  SearchController.searchByContentType documentId type (Some query) limit offset w
    = (SearchController.failure HTTP_STATUS.INTERNAL_SERVER_ERROR
         "Content type search failed", w) /\
  (forall page, (1 <= page)%Z ->
     SearchController.searchDocumentPage documentId (Some page) (Some query)
       pageType limit w
       = (SearchController.failure HTTP_STATUS.INTERNAL_SERVER_ERROR
            "Page search failed", w)) /\
  (forall page any, (page < 1)%Z ->
     SearchController.searchDocumentPage documentId (Some page) any pageType limit w
       = (SearchController.failure HTTP_STATUS.BAD_REQUEST "Invalid page number", w)) /\
  (forall any,
     SearchController.searchDocumentPage documentId None any pageType limit w
       = (SearchController.failure HTTP_STATUS.BAD_REQUEST "Invalid page number", w)).
Proof.
  intros Hid H. split; [| split; [| split]].
  - destruct (search_refused documentId query
                (SearchController.contentTypeOptions type limit offset) w Hid H)
      as [e He].
    unfold SearchController.searchByContentType. rewrite He. reflexivity.
  - intros page Hpage.
    destruct (search_refused documentId query
                (SearchController.pageOptions page pageType limit) w Hid H)
      as [e He].
    unfold SearchController.searchDocumentPage.
    apply Z.ltb_ge in Hpage. rewrite Hpage, He. reflexivity.
  - intros page any Hpage. unfold SearchController.searchDocumentPage.
    apply Z.ltb_lt in Hpage. rewrite Hpage. reflexivity.
  - reflexivity.
Qed.

(** A search in the paragraphs of a document that has no row is
    answered 500. *)
Lemma typed_and_page_search_answer_500_witness :
  SearchController.searchByContentType "E" "paragraph" (Some "fox") None None
    (Demo.world false true)
    = (SearchController.failure HTTP_STATUS.INTERNAL_SERVER_ERROR
         "Content type search failed", Demo.world false true).
Proof.
  refine (proj1 (typed_and_page_search_answer_500 "E" "paragraph" "fox" None
                   None None (Demo.world false true) _ _)).
  - discriminate.
  - right. left. reflexivity.
Defined.

(** X26: a test search of a completed document is answered with the status
    200 whether the search works or not. When the search throws, for one
    because the test query is shorter than two characters, the reply has
    [success] and [searchWorking] false and carries the message of the
    error. A document without a row is answered 404 and one that is not
    completed 422, with nothing changed. *)
Theorem testSearch_answers_200_on_failure (documentId : string)
  (testQuery : option string) (w : World) :
  validId documentId ->
  (documents (db w) !! documentId = None ->
   SearchController.testSearch documentId testQuery w
     = ({| tr_status := HTTP_STATUS.NOT_FOUND; tr_success := false;
           tr_searchWorking := None; tr_resultsFound := None;
           tr_error := Some "Document not found" |}, w)) /\
  (forall d, documents (db w) !! documentId = Some d ->
     processingStatus d <> COMPLETED ->
     SearchController.testSearch documentId testQuery w
       = ({| tr_status := HTTP_STATUS.UNPROCESSABLE_ENTITY; tr_success := false;
             tr_searchWorking := None; tr_resultsFound := None;
             tr_error := Some ("Document is not ready for search. Status: " +:+
                               statusString (processingStatus d)) |}, w)) /\
  (forall d, documents (db w) !! documentId = Some d ->
     processingStatus d = COMPLETED ->
     tr_status (fst (SearchController.testSearch documentId testQuery w))
       = HTTP_STATUS.OK /\
     (forall e,
        fst (SearchService.searchDocument documentId
               (Some (Js.orStr testQuery "test")) SearchController.testOptions w)
          = Throw e ->
        fst (SearchController.testSearch documentId testQuery w)
          = {| tr_status := HTTP_STATUS.OK; tr_success := false;
               tr_searchWorking := Some false; tr_resultsFound := None;
               tr_error := Some (message e) |}) /\
     (forall short, testQuery = Some short -> short <> EmptyString ->
        String.length (Js.trim short) < SEARCH_CONFIG.MIN_QUERY_LENGTH ->
        SearchController.testSearch documentId testQuery w
          = ({| tr_status := HTTP_STATUS.OK; tr_success := false;
                tr_searchWorking := Some false; tr_resultsFound := None;
                tr_error := Some "Query must be at least 2 characters long" |},
             w))).
Proof.
  intros Hid. unfold SearchController.testSearch, Document.findById. run.
  split; [| split].
  - intros ->. reflexivity.
  - intros d -> Hst. cbn [fmap option_fmap option_map Document.ofRow processingStatus].
    rewrite bool_decide_eq_false_2 by exact Hst. reflexivity.
  - intros d -> Hst. cbn [fmap option_fmap option_map Document.ofRow processingStatus].
    rewrite bool_decide_eq_true_2 by exact Hst. cbn [negb].
    split; [| split].
    + destruct (SearchService.searchDocument documentId
                  (Some (Js.orStr testQuery "test")) SearchController.testOptions w)
        as [[r | e] w']; reflexivity.
    + intros e He.
      destruct (SearchService.searchDocument documentId
                  (Some (Js.orStr testQuery "test")) SearchController.testOptions w)
        as [[r | e'] w']; cbn in He; [discriminate He |].
      injection He as ->. reflexivity.
    + intros short -> Hne Hshort.
      replace (Js.orStr (Some short) "test") with short
        by (destruct short; [now elim Hne | reflexivity]).
      rewrite (search_query_too_short _ _ _ _ Hid Hshort). reflexivity.
Qed.

(** The test search of the completed demonstration document with a
    query of one letter: the search throws, and the answer is 200. *)
Lemma testSearch_answers_200_on_failure_witness :
  SearchController.testSearch "D" (Some "a") (Demo.afterFirstRun false)
    = ({| tr_status := HTTP_STATUS.OK; tr_success := false;
          tr_searchWorking := Some false; tr_resultsFound := None;
          tr_error := Some "Query must be at least 2 characters long" |},
       Demo.afterFirstRun false).
Proof.
  destruct (documents (db (Demo.afterFirstRun false)) !! "D") as [d |] eqn:Hd;
    [| vm_compute in Hd; discriminate Hd].
  refine (proj2 (proj2 (proj2 (proj2 (testSearch_answers_200_on_failure "D"
                                        (Some "a") (Demo.afterFirstRun false) _))
                          d Hd _))
            "a" eq_refl _ _).
  - discriminate.
  - vm_compute in Hd. injection Hd as <-. reflexivity.
  - discriminate.
  - vm_compute. lia.
Defined.

(** ** searchController: suggestions *)

(** X27: the suggestions do not read the database: they are the same whatever
    rows it holds, so a document that has no row, or is not completed,
    gets the suggestions of the index that carries its name. A request
    with a query is answered 200 in every case, a failure of the search
    server included; a request without one is answered 500. *)
Theorem suggestions_ignore_the_database (documentId : string)
  (query : option string) (limit : option Z) (w : World) (rows : Database) :
  (let out := SearchController.getSearchSuggestions documentId query limit w in
   SearchController.getSearchSuggestions documentId query limit (with_db w rows)
     = (fst out, with_db (snd out) rows)) /\
  (forall asked, query = Some asked ->
     exists s,
       fst (SearchController.getSearchSuggestions documentId query limit w)
         = (HTTP_STATUS.OK, Some s)) /\
  (query = None ->
   SearchController.getSearchSuggestions documentId query limit w
     = ((HTTP_STATUS.INTERNAL_SERVER_ERROR, None), w)).
Proof.
  split; [| split].
  - unfold SearchController.getSearchSuggestions.
    destruct query as [asked |]; [| reflexivity].
    unfold SearchService.searchSuggestions, IndexService.search,
      MeiliSearchClient.search, MeiliSearchClient.requireConnected,
      MeiliSearchClient.request, MeiliSearchClient.logQuery. run.
    destruct (negb (Js.truthy asked) || (String.length asked <? 2));
      [reflexivity |].
    change (meili (with_db w rows)) with (meili w).
    destruct (isConnected (meili w)); cbn; [| reflexivity].
    destruct (meili_up (meili w)); cbn; [| reflexivity].
    destruct (indexes (meili w) !! IndexService.getIndexName documentId);
      reflexivity.
  - intros asked ->. unfold SearchController.getSearchSuggestions.
    destruct (suggestions_returned documentId (Some asked) (default 5%Z limit) w)
      as (s & w' & Hs).
    rewrite Hs. exists s. reflexivity.
  - intros ->. reflexivity.
Qed.

(** ** The totals of a document, with foreign keys on *)

Lemma ofDb_totalsAfter (documentId : string) (before : nat)
  (accepted : list string) :
  ofDb (totalsAfter documentId before accepted).
Proof.
  intros w w' Hdb. unfold totalsAfter, Document.chunkRows. rewrite Hdb. auto.
Qed.

Lemma keeps_totalsAfter_updateStatus (documentId : string) (before : nat)
  (accepted : list string) (d : DocumentData) (s : DOCUMENT_STATUS)
  (e : option string) :
  keeps (totalsAfter documentId before accepted) (Document.updateStatus d s e)
    (fun _ => True).
Proof.
  intros w (x & Hx & Hrows & Hp & Hc). cbn. split; [| exact I].
  unfold totalsAfter, Document.chunkRows in *. cbn.
  rewrite lookup_alter. case_decide as Heq.
  - subst. rewrite Hx. cbn. eexists. split; [reflexivity |]. cbn. auto.
  - eauto.
Qed.

Lemma wellFormed_pageSet (cs : list Chunk) :
  Forall wellFormedChunk cs -> Forall pageSet cs.
Proof.
  intros H. eapply Forall_impl; [exact H |]. intros c Hc. apply Hc.
Qed.

Section Rerun.

Variables (documentId : string) (w0 : World) (document : DocumentData).

Hypothesis id_document : id document = documentId.
Hypothesis foreign_keys_on : foreign_keys (db w0) = true.
Hypothesis row : hasRow documentId w0.

(** The steps of [processLoaded] with foreign keys on: [save] takes the
    chunk rows of the document away and writes the count the object
    holds, and only [addChunk] counts again. *)
Lemma processLoaded_totals (pd : ParsedData) :
  triple (fun w => db w = db w0)
    (ETLService.processLoaded document documentId pd)
    (fun _ w => totalsAfter documentId (totalChunks document)
                  (paragraphContents pd ++ tableContents pd) w)
    (fun _ w => totalsAfter documentId (totalChunks document)
                  (paragraphContents pd ++ tableContents pd) w).
Proof.
  unfold ETLService.processLoaded.
  set (after := totalsAfter documentId (totalChunks document)
                  (paragraphContents pd ++ tableContents pd)).
  set (keeps0 := fun w => foreign_keys (db w) = true /\
                          chunks (db w) = chunks (db w0) /\ hasRow documentId w).
  assert (Hkeeps0 : ofDb keeps0).
  { intros w w' Hdb. unfold keeps0, hasRow. rewrite Hdb. auto. }
  apply triple_bind with
    (R := fun d w => d = Document.setStatus PROCESSING None document /\ keeps0 w).
  { intros w Hdb. cbn. split; [reflexivity |].
    unfold keeps0, hasRow in *. cbn. rewrite Hdb. repeat split; [assumption |].
    rewrite id_document, lookup_alter, decide_True by reflexivity.
    destruct row as [x ->]. eauto. }
  intros document1. apply triple_pure. intros ->.
  apply triple_bind with
    (R := fun cs w =>
            (map content cs = paragraphContents pd ++ tableContents pd /\
             map chunk_type cs
               = replicate (length (paragraphContents pd)) PARAGRAPH ++
                 replicate (length (tableContents pd)) TABLE /\
             Forall wellFormedChunk cs) /\ keeps0 w).
  { eapply triple_weaken.
    - apply (returns_frame_triple keeps0 _ _ Hkeeps0 (dbFrame_extract pd)
               (returns_extract_accepted pd)).
    - auto.
    - cbn. tauto.
    - cbn. tauto. }
  intros cs. apply triple_pure. intros (Hcontent & _ & Hwell). cbv zeta.
  set (document2 := Document.setTotalPages (ETLService.calculateTotalPages cs)
                      (Document.setStatus PROCESSING None document)).
  assert (Hid2 : id document2 = documentId) by exact id_document.
  apply triple_bind with
    (R := fun _ w =>
            documents (db w) !! documentId = Some document2 /\
            Document.chunkRows documentId w = []).
  { intros w (Hfk & Hchunks & Hrow). cbn. rewrite id_document, lookup_insert_eq.
    split; [reflexivity |].
    unfold Document.chunkRows. cbn. rewrite Hfk.
    rewrite bool_decide_eq_true_2 by exact Hrow. cbn [andb].
    apply chunkRows_filtered_out. }
  intros _.
  apply triple_bind with (R := fun _ w => after w).
  { intros w (Hdoc & Hrows).
    rewrite <- Hid2 in Hdoc.
    destruct (storeChunks_rows document2 cs w document2 Hdoc)
      as (ids & w' & new & Hrun & _ & _ & Hrows' & _ & _ & Hp & _ & Hdoc').
    rewrite Hrun. rewrite Hid2 in *. rewrite Hrows in Hrows'. cbn [app] in Hrows'.
    assert (Hlen : length new = length (paragraphContents pd ++ tableContents pd)).
    { rewrite <- Hcontent, length_map, <- (length_map pageNumber), <- Hp, length_map.
      reflexivity. }
    assert (Hpages : ETLService.calculateTotalPages cs = maxPage new).
    { unfold maxPage. rewrite Hp.
      apply calculateTotalPages_pages, wellFormed_pageSet, Hwell. }
    unfold after, totalsAfter. rewrite Hrows', Hdoc'.
    eexists. split; [reflexivity |]. split; [exact Hlen |].
    rewrite <- Hcontent in *.
    destruct cs as [| c rest]; cbn [map].
    - split; [exact Hpages | reflexivity].
    - split; [exact Hpages |]. cbn. rewrite Hrows'. reflexivity. }
  intros chunkIds.
  apply triple_bind with (R := fun _ w => after w).
  { apply keeps_triple, dbFrame_keeps;
      [apply ofDb_totalsAfter | apply dbFrame_createDocumentIndex]. }
  intros _.
  apply triple_bind with (R := fun _ w => after w).
  { apply keeps_triple, dbFrame_keeps;
      [apply ofDb_totalsAfter | apply dbFrame_indexDocumentChunks]. }
  intros _.
  apply triple_bind with (R := fun _ w => after w).
  { apply keeps_triple, keeps_totalsAfter_updateStatus. }
  intros document3. apply triple_ret. auto.
Qed.

End Rerun.

Lemma processDocument_totals (documentId : string) (parsedData : ParsedData)
  (w : World) (d : DocumentData) :
  foreign_keys (db w) = true ->
  documents (db w) !! documentId = Some d ->
  totalsAfter documentId (totalChunks d)
    (paragraphContents parsedData ++ tableContents parsedData)
    (snd (ETLService.processDocument documentId parsedData w)).
Proof.
  intros Hfk Hdoc.
  unfold ETLService.processDocument, Document.findById. run.
  rewrite Hdoc. cbn [fmap option_fmap option_map].
  assert (Hrow : hasRow documentId w) by (unfold hasRow; rewrite Hdoc; eauto).
  pose proof (processLoaded_totals documentId w (Document.ofRow documentId d)
                eq_refl Hfk Hrow parsedData w eq_refl) as Hrun.
  cbn [totalChunks Document.ofRow] in Hrun.
  destruct (ETLService.processLoaded _ _ _ w) as [[r | e] w1]; [exact Hrun |].
  pose proof (keeps_totalsAfter_updateStatus documentId (totalChunks d)
                (paragraphContents parsedData ++ tableContents parsedData)
                (Document.ofRow documentId d) FAILED (Some (message e)) w1 Hrun)
    as Hfail.
  destruct (Document.updateStatus _ _ _ w1) as [[d' | e'] w2]; cbn; tauto.
Qed.

(** C2: with foreign keys on, as the repository sets them, [save] takes
    the chunk rows of an earlier run away and writes back the count the
    object was loaded with; the count is made again only by [addChunk].
    So after a run, however it ends, the document has a chunk row for
    each text the run accepted and its [totalPages] is the largest page
    of its rows; its [totalChunks] is the number of its rows when the run
    stored a chunk, and then the totals are right. But a run that stores
    no chunk, on a document whose row counted chunks, leaves that count
    over no row: [totalChunks] is not the number of the chunk rows,
    against the specification. *)
Theorem rerun_without_chunks_keeps_stale_total (documentId : string)
  (parsedData : ParsedData) (w : World) (d : DocumentData) :
  foreign_keys (db w) = true ->
  documents (db w) !! documentId = Some d ->
  let accepted := paragraphContents parsedData ++ tableContents parsedData in
  let w' := snd (ETLService.processDocument documentId parsedData w) in
  totalsAfter documentId (totalChunks d) accepted w' /\
  (accepted <> [] -> totalsMatch documentId w') /\
  (accepted = [] -> totalChunks d <> 0 ->
   Document.chunkRows documentId w' = [] /\
   (totalChunks <$> documents (db w') !! documentId) = Some (totalChunks d) /\
   ~ totalsMatch documentId w').
Proof.
  intros Hfk Hdoc accepted w'.
  pose proof (processDocument_totals documentId parsedData w d Hfk Hdoc) as Hafter.
  fold accepted in Hafter. fold w' in Hafter.
  split; [exact Hafter |].
  destruct Hafter as (x & Hx & Hlen & Hpages & Hcount). split.
  - intros Hne. exists x. split; [exact Hx |]. split; [| exact Hpages].
    destruct accepted; [contradiction | exact Hcount].
  - intros Hnil Hstale. rewrite Hnil in Hlen, Hcount. cbn in Hlen.
    assert (Hrows : Document.chunkRows documentId w' = [])
      by (destruct (Document.chunkRows documentId w'); [reflexivity | discriminate]).
    split; [exact Hrows |]. split; [rewrite Hx, <- Hcount; reflexivity |].
    intros (y & Hy & Hcy & _). rewrite Hx in Hy. injection Hy as <-.
    rewrite Hrows in Hcy. cbn in Hcy. congruence.
Qed.

(** The demonstration document after its first run, which stored one
    chunk, and then a run of parsed data that holds nothing: the row
    counts one chunk and there is no chunk row. *)
Lemma rerun_without_chunks_keeps_stale_total_witness :
  let w' := snd (ETLService.processDocument "D" Demo.nothing
                   (Demo.afterFirstRun true)) in
  Document.chunkRows "D" w' = [] /\
  (totalChunks <$> documents (db w') !! "D") = Some 1 /\
  ~ totalsMatch "D" w'.
Proof.
  intros w'.
  destruct (documents (db (Demo.afterFirstRun true)) !! "D") as [d |] eqn:Hd;
    [| vm_compute in Hd; discriminate Hd].
  assert (Hone : totalChunks d = 1)
    by (vm_compute in Hd; injection Hd as <-; reflexivity).
  destruct (proj2 (proj2 (rerun_without_chunks_keeps_stale_total "D" Demo.nothing
                            (Demo.afterFirstRun true) d eq_refl Hd))
              eq_refl)
    as (Hrows & Hcount & Hno).
  - rewrite Hone. discriminate.
  - rewrite Hone in Hcount. auto.
Defined.

(** ** The failures of a search on every search route *)




